(** * Platium game-streaming backend: session orchestration

    A shallow embedding of the Express/Prisma/Socket.io server (the main
    server file of the repository) and of the tables of the SQL migration,
    followed by the properties of the session core: join, leave, end,
    create, join codes and chat; then the listing of the open sessions,
    the Socket.io listeners and the catalogue route of the in-memory
    server, with what holds of them over any sequence of requests.

    Modelling choices, all read off the source:
    - a table is a finite map from its primary key to its rows; a unique
      index is checked when a row is inserted, a foreign key likewise;
    - a Prisma call that rejects (unique or foreign-key violation, record
      to update not found, a value that names no member of its enum, an
      id that is not a string, an integer that does not fit its 32-bit
      column) is a thrown exception; writes made before it stay, except
      inside [$transaction];
    - a route handler is a computation over the world that ends in one HTTP
      response; the [try { ... } catch] of every handler turns a thrown
      exception into its 500 response;
    - one handler runs at a time (no interleaving at [await]);
    - Postgres, Redis and Socket.io are available: a store call fails only
      for a reason its arguments or the tables give;
    - a JavaScript number is a double: arithmetic is exact arithmetic
      followed by rounding to the nearest double;
    - [authenticateToken] has let the request through, and [req.user] is
      the identity the token validator returned;
    - generated primary keys, [Math.random()] and the clock are inputs;
      what [Math.random()] returns is a double. *)

From stdpp Require Import gmap strings list fin_maps numbers pretty sorting.
From Stdlib Require Import Ascii QArith Qround Qreduction Lqa.

Local Open Scope string_scope.
Local Open Scope Z_scope.

(** ** Enumerations of the migration *)

Inductive SessionStatus := STARTING | ACTIVE | ENDING | ENDED | ERROR.
Inductive SessionType := SINGLE | MULTIPLAYER | SPECTATE.
Inductive VideoQuality := Q720p | Q1080p | Q1440p.
Inductive ParticipantRole := PLAYER | SPECTATOR | MODERATOR.
Inductive MessageType := CHAT | SYSTEM | GAME_EVENT.

#[global] Instance SessionStatus_eq_dec : EqDecision SessionStatus.
Proof. solve_decision. Defined.
#[global] Instance ParticipantRole_eq_dec : EqDecision ParticipantRole.
Proof. solve_decision. Defined.

(** ** Rows *)

(** [user_profiles]: primary key [id], unique [platium_user_id], unique
    [username]. *)
Record UserProfile := {
  up_id : string;
  platiumUserId : string;
  username : string;
  displayName : option string
}.

(** [games]: primary key [id], unique [slug]; of the other columns only
    the play counter is touched by the session routes. *)
Record Game := {
  g_id : string;
  slug : string;
  playCount : Z
}.

(** [game_sessions]: primary key [id], unique [session_code]. *)
Record GameSession := {
  gs_id : string;
  gameId : string;
  createdBy : string;
  sessionCode : option string;
  status : SessionStatus;
  sessionType : SessionType;
  isPrivate : bool;
  maxPlayers : Z;
  currentPlayers : Z;
  spectatorCount : Z;
  videoQuality : VideoQuality;
  fps : Z;
  startedAt : Z;
  endedAt : option Z;
  lastActivityAt : Z;
  durationMinutes : option Z
}.

(** [session_participants]: primary key [(session_id, user_id)]. *)
Record SessionParticipant := {
  sp_sessionId : string;
  sp_userId : string;
  role : ParticipantRole;
  isHost : bool;
  joinedAt : Z;
  leftAt : option Z;
  totalDurationMinutes : Z
}.

(** [session_chat]: primary key [id]. *)
Record SessionChat := {
  sc_id : string;
  sc_sessionId : string;
  sc_userId : string;
  message : string;
  sc_type : MessageType;
  sc_createdAt : Z
}.

(** [session_history]: primary key [id]. *)
Record SessionHistory := {
  sh_id : string;
  sh_sessionId : string;
  sh_userId : string;
  sh_gameId : string;
  sh_role : ParticipantRole;
  sh_startedAt : Z;
  sh_endedAt : Z;
  sh_durationMinutes : Z;
  totalPlayers : Z
}.

(** ** Outbound effects: Socket.io emissions and Redis publications *)

Inductive Event :=
  | user_joined (userId uname : string) (dname : option string)
      (r : ParticipantRole)
  | user_left (userId : string)
  | session_ended
  | new_message (m : SessionChat) (user : option UserProfile).

Inductive Effect :=
  | IoTo (room : string) (e : Event)
  | RedisPublish (channel type sessionId gameId : string).

(** The store writes a handler commits, in order. *)
Inductive Write :=
  | W_game_create (id : string)
  | W_userProfile_create (id : string)
  | W_gameSession_create (id : string) (st : SessionStatus)
  | W_gameSession_update (id : string) (st : SessionStatus)
  | W_sessionParticipant_create (sid uid : string)
  | W_sessionParticipant_update (sid uid : string)
  | W_sessionParticipant_updateMany (sid : string)
  | W_game_update (id : string)
  | W_sessionChat_create (id : string).

(** ** The world: the Postgres tables, what was sent out, the clock *)

Record World := {
  userProfiles : gmap string UserProfile;
  games : gmap string Game;
  gameSessions : gmap string GameSession;
  sessionParticipants : gmap (string * string) SessionParticipant;
  sessionChat : list SessionChat;
  sessionHistory : list SessionHistory;
  writes : list Write;
  effects : list Effect;
  now : Z
}.

Definition emptyWorld : World :=
  {| userProfiles := ∅; games := ∅; gameSessions := ∅;
     sessionParticipants := ∅; sessionChat := []; sessionHistory := [];
     writes := []; effects := []; now := 0 |}.

Definition set_userProfiles (f : gmap string UserProfile → gmap string UserProfile)
    (w : World) : World :=
  {| userProfiles := f (userProfiles w); games := games w;
     gameSessions := gameSessions w;
     sessionParticipants := sessionParticipants w;
     sessionChat := sessionChat w; sessionHistory := sessionHistory w;
     writes := writes w; effects := effects w; now := now w |}.

Definition set_games (f : gmap string Game → gmap string Game) (w : World) : World :=
  {| userProfiles := userProfiles w; games := f (games w);
     gameSessions := gameSessions w;
     sessionParticipants := sessionParticipants w;
     sessionChat := sessionChat w; sessionHistory := sessionHistory w;
     writes := writes w; effects := effects w; now := now w |}.

Definition set_gameSessions (f : gmap string GameSession → gmap string GameSession)
    (w : World) : World :=
  {| userProfiles := userProfiles w; games := games w;
     gameSessions := f (gameSessions w);
     sessionParticipants := sessionParticipants w;
     sessionChat := sessionChat w; sessionHistory := sessionHistory w;
     writes := writes w; effects := effects w; now := now w |}.

Definition set_sessionParticipants
    (f : gmap (string * string) SessionParticipant →
         gmap (string * string) SessionParticipant) (w : World) : World :=
  {| userProfiles := userProfiles w; games := games w;
     gameSessions := gameSessions w;
     sessionParticipants := f (sessionParticipants w);
     sessionChat := sessionChat w; sessionHistory := sessionHistory w;
     writes := writes w; effects := effects w; now := now w |}.

Definition set_sessionChat (f : list SessionChat → list SessionChat)
    (w : World) : World :=
  {| userProfiles := userProfiles w; games := games w;
     gameSessions := gameSessions w;
     sessionParticipants := sessionParticipants w;
     sessionChat := f (sessionChat w); sessionHistory := sessionHistory w;
     writes := writes w; effects := effects w; now := now w |}.

Definition log_write (x : Write) (w : World) : World :=
  {| userProfiles := userProfiles w; games := games w;
     gameSessions := gameSessions w;
     sessionParticipants := sessionParticipants w;
     sessionChat := sessionChat w; sessionHistory := sessionHistory w;
     writes := writes w ++ [x]; effects := effects w; now := now w |}.

Definition log_effect (x : Effect) (w : World) : World :=
  {| userProfiles := userProfiles w; games := games w;
     gameSessions := gameSessions w;
     sessionParticipants := sessionParticipants w;
     sessionChat := sessionChat w; sessionHistory := sessionHistory w;
     writes := writes w; effects := effects w ++ [x]; now := now w |}.

(** Time passing between two requests. *)
Definition set_now (t : Z) (w : World) : World :=
  {| userProfiles := userProfiles w; games := games w;
     gameSessions := gameSessions w;
     sessionParticipants := sessionParticipants w;
     sessionChat := sessionChat w; sessionHistory := sessionHistory w;
     writes := writes w; effects := effects w; now := t |}.

(** ** HTTP responses *)

Inductive Body :=
  | ErrorBody (error : string)
  | ErrorSessionBody (error : string) (sessionId : string)
  | SuccessBody
  | CreatedBody (sessionId : string) (code : option string) (joinUrl : string)
  | JoinedBody (participant : SessionParticipant) (session : GameSession).

Record Response := { code : Z; body : Body }.

Definition json (c : Z) (b : Body) : Response := {| code := c; body := b |}.

(** ** Handler computations

    [Value a]: the statement ran through with result [a];
    [Throw]: an exception is propagating;
    [Return r]: the handler executed [return res.status(..).json(..)]. *)

Inductive Outcome (A : Type) :=
  | Value (a : A)
  | Throw
  | Return (r : Response).
Arguments Value {A} a.
Arguments Throw {A}.
Arguments Return {A} r.

Definition Handler (A : Type) : Type := World → World * Outcome A.

Definition hret {A} (a : A) : Handler A := λ w, (w, Value a).

Definition hbind {A B} (m : Handler A) (k : A → Handler B) : Handler B :=
  λ w, match m w with
       | (w', Value a) => k a w'
       | (w', Throw) => (w', Throw)
       | (w', Return r) => (w', Return r)
       end.

#[global] Instance Handler_ret : MRet Handler := @hret.
#[global] Instance Handler_bind : MBind Handler := λ A B k m, hbind m k.

Definition respond {A} (r : Response) : Handler A := λ w, (w, Return r).
Definition modify (f : World → World) : Handler unit := λ w, (f w, Value tt).
Definition reads {A} (f : World → A) : Handler A := λ w, (w, Value (f w)).

(** [try { body } catch (error) { res.status(500).json({ error: msg }) }].
    The body of a route handler never falls off its end: every path of it
    sends a response or throws, so its result type is empty. *)
Definition try_catch (body : Handler Empty_set) (msg : string) (w : World)
    : World * Response :=
  match body w with
  | (w', Return r) => (w', r)
  | (w', Throw) => (w', json 500 (ErrorBody msg))
  | (_, Value a) => match a with end
  end.

(** [try { body } catch (error) { console.error(..) }] of a socket
    listener: nothing is sent back. *)
Definition catch_log (body : Handler unit) : Handler unit :=
  λ w, match body w with
       | (w', Throw) => (w', Value tt)
       | r => r
       end.

(** [prisma.$transaction(fn)]: the writes of [fn] are kept only when it
    does not throw. *)
Definition transaction {A} (m : Handler A) : Handler A :=
  λ w, match m w with
       | (_, Throw) => (w, Throw)
       | r => r
       end.

(** [new Date()] and [Date.now()]: milliseconds since the epoch. *)
Definition new_Date : Handler Z := reads now.

(** ** Table queries *)

(** The first row satisfying [P], for a query on a column that is not the
    primary key. *)
Definition find_row {K V} `{Countable K} (P : V → Prop)
    `{∀ v, Decision (P v)} (m : gmap K V) : option V :=
  head (filter P (map_to_list m).*2).

(** JavaScript truthiness of a string-or-undefined, and [a || b]. *)
Definition truthy (o : option string) : bool :=
  match o with
  | Some s => bool_decide (s ≠ "")
  | None => false
  end.

Definition js_or (a b : option string) : option string :=
  if truthy a then a else b.

Definition js_or_else (a : option string) (b : string) : string :=
  match a with
  | Some s => if decide (s = "") then b else s
  | None => b
  end.

(** [prisma.userProfile.findUnique({ where: { platiumUserId } })] *)
Definition userProfile_findUnique (pid : string) : Handler (option UserProfile) :=
  reads (λ w, find_row (λ u, platiumUserId u = pid) (userProfiles w)).

(** [prisma.userProfile.create({ data })] *)
Definition userProfile_create (newId pid uname : string) (dname : option string)
    : Handler UserProfile :=
  λ w,
    let row := {| up_id := newId; platiumUserId := pid; username := uname;
                  displayName := dname |} in
    match userProfiles w !! newId,
          find_row (λ u, platiumUserId u = pid ∨ username u = uname)
            (userProfiles w) with
    | None, None =>
        (log_write (W_userProfile_create newId)
           (set_userProfiles <[newId:=row]> w), Value row)
    | _, _ => (w, Throw)
    end.

(** [prisma.game.create({ data })] as [POST /api/games] calls it. *)
Definition game_create (newId sl : string) : Handler Game :=
  λ w,
    let row := {| g_id := newId; slug := sl; playCount := 0 |} in
    match games w !! newId, find_row (λ g, slug g = sl) (games w) with
    | None, None =>
        (log_write (W_game_create newId) (set_games <[newId:=row]> w),
         Value row)
    | _, _ => (w, Throw)
    end.

(** The [INTEGER] columns of the migration hold 32-bit integers; a write
    of another value is rejected. *)
Definition int4 (n : Z) : Prop := -2147483648 ≤ n ≤ 2147483647.

#[global] Instance int4_dec n : Decision (int4 n).
Proof. unfold int4. apply _. Defined.

(** [prisma.game.update({ where: { id }, data: { playCount: { increment: 1 } } })] *)
Definition game_update_playCount (id : string) : Handler unit :=
  λ w,
    match games w !! id with
    | Some g =>
        if decide (int4 (playCount g + 1)) then
          (log_write (W_game_update id)
             (set_games <[id := {| g_id := g_id g; slug := slug g;
                                   playCount := playCount g + 1 |}]> w),
           Value tt)
        else (w, Throw)
    | None => (w, Throw)
    end.

(** [prisma.gameSession.findUnique({ where: { id } })] *)
Definition gameSession_findUnique (id : string) : Handler (option GameSession) :=
  reads (λ w, gameSessions w !! id).

(** [prisma.gameSession.findFirst({ where: { createdBy,
      status: { in: ['STARTING', 'ACTIVE'] } } })] *)
Definition gameSession_findFirst (creator : string) : Handler (option GameSession) :=
  reads (λ w, find_row
           (λ s, createdBy s = creator ∧ (status s = STARTING ∨ status s = ACTIVE))
           (gameSessions w)).

(** [tx.gameSession.create({ data })]; the columns not in [data] take the
    defaults of the migration. [vq] is the member of the enum that the
    value given for [videoQuality] names, if it names one; the call is
    rejected when it names none, and when [maxPlayers] or [fps] does not
    fit its column. *)
Definition gameSession_create (newId game creator sessCode : string)
    (maxP : Z) (priv : bool) (vq : option VideoQuality) (framerate : Z)
    (st : SessionStatus) : Handler GameSession :=
  λ w,
    match vq with
    | Some quality =>
        let row := {| gs_id := newId; gameId := game; createdBy := creator;
                      sessionCode := Some sessCode; status := st;
                      sessionType := SINGLE; isPrivate := priv;
                      maxPlayers := maxP; currentPlayers := 0;
                      spectatorCount := 0; videoQuality := quality;
                      fps := framerate;
                      startedAt := now w; endedAt := None;
                      lastActivityAt := now w; durationMinutes := None |} in
        if decide (int4 maxP ∧ int4 framerate) then
          match gameSessions w !! newId,
                find_row (λ s, sessionCode s = Some sessCode) (gameSessions w),
                games w !! game, userProfiles w !! creator with
          | None, None, Some _, Some _ =>
              (log_write (W_gameSession_create newId st)
                 (set_gameSessions <[newId:=row]> w), Value row)
          | _, _, _, _ => (w, Throw)
          end
        else (w, Throw)
    | None => (w, Throw)
    end.

Definition with_status (st : SessionStatus) (ended : option Z)
    (s : GameSession) : GameSession :=
  {| gs_id := gs_id s; gameId := gameId s; createdBy := createdBy s;
     sessionCode := sessionCode s; status := st;
     sessionType := sessionType s; isPrivate := isPrivate s;
     maxPlayers := maxPlayers s; currentPlayers := currentPlayers s;
     spectatorCount := spectatorCount s; videoQuality := videoQuality s;
     fps := fps s; startedAt := startedAt s;
     endedAt := match ended with Some t => Some t | None => endedAt s end;
     lastActivityAt := lastActivityAt s;
     durationMinutes := durationMinutes s |}.

(** [prisma.gameSession.update({ where: { id }, data: { status, endedAt? } })] *)
Definition gameSession_update (id : string) (st : SessionStatus)
    (ended : option Z) : Handler unit :=
  λ w,
    match gameSessions w !! id with
    | Some s =>
        (log_write (W_gameSession_update id st)
           (set_gameSessions <[id := with_status st ended s]> w), Value tt)
    | None => (w, Throw)
    end.

(** [prisma.sessionParticipant.findUnique({ where: { sessionId_userId } })] *)
Definition sessionParticipant_findUnique (sid uid : string)
    : Handler (option SessionParticipant) :=
  reads (λ w, sessionParticipants w !! (sid, uid)).

(** [prisma.sessionParticipant.create({ data })] *)
Definition sessionParticipant_create (sid uid : string) (r : ParticipantRole)
    (host : bool) : Handler SessionParticipant :=
  λ w,
    let row := {| sp_sessionId := sid; sp_userId := uid; role := r;
                  isHost := host; joinedAt := now w; leftAt := None;
                  totalDurationMinutes := 0 |} in
    match sessionParticipants w !! (sid, uid), gameSessions w !! sid,
          userProfiles w !! uid with
    | None, Some _, Some _ =>
        (log_write (W_sessionParticipant_create sid uid)
           (set_sessionParticipants <[(sid, uid):=row]> w), Value row)
    | _, _, _ => (w, Throw)
    end.

Definition with_leftAt (t : Z) (p : SessionParticipant) : SessionParticipant :=
  {| sp_sessionId := sp_sessionId p; sp_userId := sp_userId p;
     role := role p; isHost := isHost p; joinedAt := joinedAt p;
     leftAt := Some t; totalDurationMinutes := totalDurationMinutes p |}.

(** [prisma.sessionParticipant.update({ where: { sessionId_userId },
      data: { leftAt } })] *)
Definition sessionParticipant_update (sid uid : string) (t : Z) : Handler unit :=
  λ w,
    match sessionParticipants w !! (sid, uid) with
    | Some p =>
        (log_write (W_sessionParticipant_update sid uid)
           (set_sessionParticipants <[(sid, uid) := with_leftAt t p]> w),
         Value tt)
    | None => (w, Throw)
    end.

(** [prisma.sessionParticipant.updateMany({ where: { sessionId, leftAt: null },
      data: { leftAt } })] *)
Definition mark_left (sid : string) (t : Z) (p : SessionParticipant)
    : SessionParticipant :=
  if decide (sp_sessionId p = sid ∧ leftAt p = None) then with_leftAt t p else p.

Definition sessionParticipant_updateMany (sid : string) (t : Z) : Handler unit :=
  modify (λ w, log_write (W_sessionParticipant_updateMany sid)
                 (set_sessionParticipants (fmap (mark_left sid t)) w)).

(** [prisma.sessionChat.create({ data, include: { user } })] *)
Definition sessionChat_create (newId sid uid msg : string) (ty : MessageType)
    : Handler (SessionChat * option UserProfile) :=
  λ w,
    let row := {| sc_id := newId; sc_sessionId := sid; sc_userId := uid;
                  message := msg; sc_type := ty; sc_createdAt := now w |} in
    match list_find (λ c, sc_id c = newId) (sessionChat w),
          gameSessions w !! sid, userProfiles w !! uid with
    | None, Some _, Some u =>
        (log_write (W_sessionChat_create newId)
           (set_sessionChat (λ l, (l ++ [row])%list) w), Value (row, Some u))
    | _, _, _ => (w, Throw)
    end.

(** [io.to(room).emit(event, payload)] and [redis.publish(channel, ..)] *)
Definition io_to (room : string) (e : Event) : Handler unit :=
  modify (log_effect (IoTo room e)).

Definition redis_publish (channel ty sid game : string) : Handler unit :=
  modify (log_effect (RedisPublish channel ty sid game)).

(** ** JavaScript numbers

    A number is a binary64 value: [NaN], an infinity, or a finite rational
    that a double holds. The sign of zero is not kept: no answer of the
    code below depends on it. An arithmetic operation is the exact
    operation on the rationals, then the rounding to the nearest double,
    ties to even. *)

Inductive Number := NaN | Infinity (negative : bool) | Num (x : Q).

(** [2 ^ e], for any integer [e] *)
Definition pow2 (e : Z) : Q :=
  2 ^ Z.max e 0 # Z.to_pos (2 ^ Z.max (- e) 0).

(** The binary exponent of [x > 0]: [2 ^ e <= x < 2 ^ (e + 1)]. *)
Definition exponent_of (x : Q) : Z :=
  let e := Z.log2 (Qnum x) - Z.log2 (Z.pos (Qden x)) in
  if Qle_bool (pow2 e) x then e else e - 1.

(** The nearest integer, the even one of two at the same distance. *)
Definition round_half_even (y : Q) : Z :=
  let n := Qfloor y in
  match (y - inject_Z n ?= 1 # 2)%Q with
  | Lt => n
  | Gt => n + 1
  | Eq => if Z.even n then n else n + 1
  end.

(** The step between the doubles around [x > 0]: 52 binary places after
    the leading one; below [2 ^ -1022] the step stays [2 ^ -1074]. *)
Definition ulp (x : Q) : Q := pow2 (Z.max (exponent_of x) (-1022) - 52).

Definition round_positive (x : Q) : Number :=
  let y := (inject_Z (round_half_even (x / ulp x)) * ulp x)%Q in
  if Qle_bool (pow2 1024) y then Infinity false else Num (Qred y).

Definition Number_neg (a : Number) : Number :=
  match a with
  | NaN => NaN
  | Infinity s => Infinity (negb s)
  | Num x => Num (Qred (- x))
  end.

(** The double nearest to the rational [x]: the number a decimal numeral
    of value [x] denotes, and the result of an operation of exact value
    [x]. *)
Definition to_double (x : Q) : Number :=
  match Qnum x with
  | 0 => Num 0
  | Z.pos _ => round_positive x
  | Z.neg _ => Number_neg (round_positive (- x))
  end.

Definition is_double (x : Q) : bool :=
  match to_double x with
  | Num y => Qeq_bool y x
  | _ => false
  end.

(** A finite number on its own: a rational that is a double. *)
Record Double := {
  d_value : Q;
  d_double : Is_true (is_double d_value)
}.

Definition negative_sign (x : Q) : bool := bool_decide (Qnum x < 0).
Definition is_zero (x : Q) : bool := bool_decide (Qnum x = 0).

(** [a + b], [a - b], [a * b], [a / b] *)
Definition Number_add (a b : Number) : Number :=
  match a, b with
  | NaN, _ | _, NaN => NaN
  | Infinity s, Infinity t => if Bool.eqb s t then Infinity s else NaN
  | Infinity s, Num _ | Num _, Infinity s => Infinity s
  | Num x, Num y => to_double (x + y)
  end.

Definition Number_sub (a b : Number) : Number := Number_add a (Number_neg b).

Definition Number_mul (a b : Number) : Number :=
  match a, b with
  | NaN, _ | _, NaN => NaN
  | Infinity s, Infinity t => Infinity (xorb s t)
  | Infinity s, Num x | Num x, Infinity s =>
      if is_zero x then NaN else Infinity (xorb s (negative_sign x))
  | Num x, Num y => to_double (x * y)
  end.

Definition Number_div (a b : Number) : Number :=
  match a, b with
  | NaN, _ | _, NaN => NaN
  | Infinity _, Infinity _ => NaN
  | Infinity s, Num y => Infinity (xorb s (negative_sign y))
  | Num _, Infinity _ => Num 0
  | Num x, Num y =>
      if is_zero y then (if is_zero x then NaN else Infinity (negative_sign x))
      else to_double (x / y)
  end.

(** [Math.floor(a)], [Math.ceil(a)] *)
Definition Math_floor (a : Number) : Number :=
  match a with
  | Num x => Num (inject_Z (Qfloor x))
  | _ => a
  end.

Definition Math_ceil (a : Number) : Number :=
  match a with
  | Num x => Num (inject_Z (Qceiling x))
  | _ => a
  end.

(** [s[k]]: [undefined] unless [k] is an index of [s]. *)
Definition string_at (s : string) (k : Number) : option ascii :=
  match k with
  | Num x =>
      if Qle_bool 0 x && Qeq_bool x (inject_Z (Qfloor x))
      then String.get (Z.to_nat (Qfloor x)) s
      else None
  | _ => None
  end.

(** ** Join codes *)

Definition chars : string := "ABCDEFGHJKMNPQRSTUVWXYZ23456789".

(** [Math.floor(Math.random() * chars.length)], for [r] the value of
    [Math.random()]. *)
Definition random_index (r : Double) : Number :=
  Math_floor (Number_mul (Num (d_value r))
                (Num (inject_Z (Z.of_nat (String.length chars))))).

(** [result += chars[k]]; what is not an index of [chars] reads
    [undefined]. *)
Definition append_char (result : string) (k : Number) : string :=
  match string_at chars k with
  | Some c => result +:+ String c ""
  | None => result +:+ "undefined"
  end.

(** [generateSessionCode()]; [random i] is what the [i]-th call of
    [Math.random()] returns. *)
Definition generateSessionCode (random : nat → Double) : string :=
  fold_left (λ result i, append_char result (random_index (random i)))
    (seq 0 6) "".

(** ** Requests *)

(** [req.user], as [authenticateToken] stores it. *)
Record AuthUser := {
  au_id : string;
  au_username : option string;
  au_name : option string
}.

(** The get-or-create of the caller's profile at the head of
    [POST /api/sessions] and [POST /api/sessions/:id/join]. *)
Definition resolveProfile (user : AuthUser) (newId : string) : Handler UserProfile :=
  found ← userProfile_findUnique (au_id user);
  match found with
  | Some profile => mret profile
  | None =>
      t ← new_Date;
      userProfile_create newId (au_id user)
        (js_or_else (au_username user) ("user_" +:+ pretty t))
        (js_or (au_name user) (au_username user))
  end.

(** A value of the JSON body where the handler expects an id: a string,
    or another value, of which the model keeps what its [toString()]
    returns ([None] where the call throws: [null], and [undefined] for a
    field that is absent). *)
Inductive IdValue :=
  | IdString (s : string)
  | IdOther (toString : option string).

(** [v.toString()] *)
Definition toString (v : IdValue) : Handler string :=
  λ w, match v with
       | IdString s | IdOther (Some s) => (w, Value s)
       | IdOther None => (w, Throw)
       end.

(** The value of a [where: { id: v }]: the column is a string, Prisma
    rejects any other value. *)
Definition where_id (v : IdValue) : Handler string :=
  λ w, match v with
       | IdString s => (w, Value s)
       | IdOther _ => (w, Throw)
       end.

(** The body of [POST /api/sessions]; an absent field takes the default
    of the destructuring. [b_videoQuality] is the member of the enum the
    field names: the labels of the migration start with a digit, so that
    they are not the names of the members in the client, and the default
    ['1080p'] of the destructuring names none. *)
Record CreateBody := {
  b_gameId : IdValue;
  b_maxPlayers : option Z;
  b_isPrivate : option bool;
  b_videoQuality : option VideoQuality;
  b_fps : option Z
}.

(** [POST /api/sessions] *)
Definition createSession (user : AuthUser) (b : CreateBody)
    (newProfileId newSessionId : string) (random : nat → Double)
    : World → World * Response :=
  try_catch (
    let maxP := default 1 (b_maxPlayers b) in
    let priv := default false (b_isPrivate b) in
    let vq := b_videoQuality b in
    let framerate := default 60 (b_fps b) in
    userProfile ← resolveProfile user newProfileId;
    existingSession ← gameSession_findFirst (up_id userProfile);
    match existingSession with
    | Some existing =>
        respond (json 400 (ErrorSessionBody "You already have an active session"
                             (gs_id existing)))
    | None =>
        let sessCode := generateSessionCode random in
        session ← transaction (
          game ← toString (b_gameId b);
          newSession ← gameSession_create newSessionId game
                         (up_id userProfile) sessCode maxP priv vq framerate
                         STARTING;
          sessionParticipant_create (gs_id newSession) (up_id userProfile)
            PLAYER true;;
          mret newSession);
        gameSession_update (gs_id session) ACTIVE None;;
        game ← where_id (b_gameId b);
        game_update_playCount game;;
        redis_publish "session_updates" "session_created" (gs_id session)
          game;;
        respond (json 201 (CreatedBody (gs_id session) (sessionCode session)
                             ("/play/" +:+ default "null" (sessionCode session))))
    end
  ) "Failed to create session".

(** [existingParticipant && !existingParticipant.leftAt]: a [Date] is
    truthy, so [!leftAt] holds exactly when [leftAt] is null. *)
Definition present (o : option SessionParticipant) : bool :=
  match o with
  | Some p => bool_decide (leftAt p = None)
  | None => false
  end.

(** [POST /api/sessions/:id/join] *)
Definition joinSession (id : string) (user : AuthUser)
    (bodyRole : option ParticipantRole) (newProfileId : string)
    : World → World * Response :=
  try_catch (
    let r := default PLAYER bodyRole in
    userProfile ← resolveProfile user newProfileId;
    found ← gameSession_findUnique id;
    match found with
    | None => respond (json 404 (ErrorBody "Session not found or not active"))
    | Some session =>
        if decide (status session ≠ ACTIVE) then
          respond (json 404 (ErrorBody "Session not found or not active"))
        else if decide (maxPlayers session ≤ currentPlayers session ∧ r = PLAYER)
        then respond (json 400 (ErrorBody "Session is full"))
        else
          existingParticipant ← sessionParticipant_findUnique id (up_id userProfile);
          if present existingParticipant then
            respond (json 400 (ErrorBody "Already in this session"))
          else
            participant ← sessionParticipant_create id (up_id userProfile) r false;
            io_to ("session:" +:+ id)
              (user_joined (up_id userProfile) (username userProfile)
                 (displayName userProfile) r);;
            respond (json 200 (JoinedBody participant session))
    end
  ) "Failed to join session".

(** [DELETE /api/sessions/:id/leave] *)
Definition leaveSession (id : string) (user : AuthUser)
    : World → World * Response :=
  try_catch (
    found ← userProfile_findUnique (au_id user);
    match found with
    | None => respond (json 404 (ErrorBody "User profile not found"))
    | Some userProfile =>
        t ← new_Date;
        sessionParticipant_update id (up_id userProfile) t;;
        io_to ("session:" +:+ id) (user_left (up_id userProfile));;
        respond (json 200 SuccessBody)
    end
  ) "Failed to leave session".

(** [DELETE /api/sessions/:id] *)
Definition endSession (id : string) (user : AuthUser)
    : World → World * Response :=
  try_catch (
    userProfile ← userProfile_findUnique (au_id user);
    found ← gameSession_findUnique id;
    match found with
    | None => respond (json 404 (ErrorBody "Session not found"))
    | Some session =>
        if decide (Some (createdBy session) ≠ up_id <$> userProfile) then
          respond (json 403 (ErrorBody "Only the host can end the session"))
        else
          t ← new_Date;
          gameSession_update id ENDING (Some t);;
          t' ← new_Date;
          sessionParticipant_updateMany id t';;
          gameSession_update id ENDED None;;
          io_to ("session:" +:+ id) session_ended;;
          respond (json 200 SuccessBody)
    end
  ) "Failed to end session".

(** ** The realtime channel *)

(** A Socket.io connection; [socket_userId] is set by the [authenticate]
    listener and is [undefined] before. *)
Record Socket := {
  socket_id : string;
  socket_userId : option string
}.

(** [socket.on('send_message', async ({ sessionId, message, type = 'CHAT' }) => ..)] *)
Definition send_message (socket : Socket) (sessionId msg : string)
    (bodyType : option MessageType) (newChatId : string) (w : World) : World :=
  let ty := default CHAT bodyType in
  fst ((if negb (truthy (socket_userId socket)) then mret tt
        else
          catch_log (
            chatMessage ← sessionChat_create newChatId sessionId
                            (default "" (socket_userId socket)) msg ty;
            io_to ("session:" +:+ sessionId)
              (new_message chatMessage.1 chatMessage.2))) w).

(** [POST /api/games] *)
Definition createGame (newId sl : string) : World → World * Response :=
  try_catch (
    game_create newId sl;;
    respond (json 201 SuccessBody)
  ) "Failed to create game".

(** ** Sequences of requests *)

Inductive Request :=
  | POST_games (newId sl : string)
  | POST_sessions (user : AuthUser) (b : CreateBody)
      (newProfileId newSessionId : string) (random : nat → Double)
  | POST_sessions_join (id : string) (user : AuthUser)
      (bodyRole : option ParticipantRole) (newProfileId : string)
  | DELETE_sessions_leave (id : string) (user : AuthUser)
  | DELETE_sessions (id : string) (user : AuthUser)
  | On_send_message (socket : Socket) (sessionId msg : string)
      (bodyType : option MessageType) (newChatId : string)
  | Clock (t : Z).

Definition handle (r : Request) (w : World) : World :=
  match r with
  | POST_games newId sl => (createGame newId sl w).1
  | POST_sessions user b pid sid random => (createSession user b pid sid random w).1
  | POST_sessions_join id user bodyRole pid => (joinSession id user bodyRole pid w).1
  | DELETE_sessions_leave id user => (leaveSession id user w).1
  | DELETE_sessions id user => (endSession id user w).1
  | On_send_message socket sid msg ty cid => send_message socket sid msg ty cid w
  | Clock t => set_now t w
  end.

Definition run (rs : list Request) (w : World) : World :=
  fold_left (λ w r, handle r w) rs w.

(** The requests of a sequence of joins and leaves, with time passing in
    between. *)
Definition join_leave_only (r : Request) : Prop :=
  match r with
  | POST_sessions_join _ _ _ _ | DELETE_sessions_leave _ _ | Clock _ => True
  | _ => False
  end.

(** ** Predicates of the specification *)

(** The caller's profile, if one exists. *)
Definition profile_of (w : World) (user : AuthUser) : option UserProfile :=
  find_row (λ u, platiumUserId u = au_id user) (userProfiles w).

(** The number of participant rows of a session with the given role and
    [left_at] null. *)
Definition present_count (w : World) (sid : string) (r : ParticipantRole) : nat :=
  length (filter (λ p, sp_sessionId p = sid ∧ role p = r ∧ leftAt p = None)
            (map_to_list (sessionParticipants w)).*2).

(** A join code held by some session. *)
Definition code_held (c : string) (w : World) : Prop :=
  ∃ i s, gameSessions w !! i = Some s ∧ sessionCode s = Some c.

(** The unique index on [session_code]: two rows with the same non-null
    code are the same row. *)
Definition unique_codes (m : gmap string GameSession) : Prop :=
  ∀ i j s t c, m !! i = Some s → m !! j = Some t →
    sessionCode s = Some c → sessionCode t = Some c → i = j.

Definition codes_unique (w : World) : Prop := unique_codes (gameSessions w).

Definition ok : Response := json 200 SuccessBody.
Definition err (c : Z) (msg : string) : Response := json c (ErrorBody msg).

(** ** A concrete run, used for the examples below *)

Module Scenario.
Definition host : AuthUser :=
  {| au_id := "ext-h"; au_username := Some "hana"; au_name := None |}.
Definition ann : AuthUser :=
  {| au_id := "ext-a"; au_username := None; au_name := Some "Ann" |}.
(** Another account under the user name of the host. *)
Definition hana_again : AuthUser :=
  {| au_id := "ext-h2"; au_username := Some "hana"; au_name := None |}.
Definition two_players : CreateBody :=
  {| b_gameId := IdString "g1"; b_maxPlayers := Some 2; b_isPrivate := None;
     b_videoQuality := Some Q1080p; b_fps := None |}.

(** Six draws giving the code AEJQUZ; a stream whose first six draws
    give AEJQUZ again and whose next six give CGNSW3; six other draws
    that give AEJQUZ. *)
Definition draw (x : Q) (H : Is_true (is_double x)) : Double :=
  {| d_value := x; d_double := H |}.
Definition draws : nat → Double :=
  λ i, nth i [draw 0 I; draw (9 # 64) I; draw (17 # 64) I; draw (7 # 16) I;
              draw (9 # 16) I; draw (23 # 32) I] (draw 0 I).
Definition colliding_draws : nat → Double :=
  λ i, if (i <? 6)%nat then draws i
       else nth (i - 6)
              [draw (5 # 64) I; draw (13 # 64) I; draw (23 # 64) I;
               draw (1 # 2) I; draw (5 # 8) I; draw (25 # 32) I] (draw 0 I).
Definition other_draws : nat → Double :=
  λ i, nth i [draw (1 # 64) I; draw (5 # 32) I; draw (9 # 32) I;
              draw (27 # 64) I; draw (37 # 64) I; draw (47 # 64) I]
         (draw 0 I).

Definition w_game : World := (createGame "g1" "mario-party-7" emptyWorld).1.
Definition w_created : World :=
  (createSession host two_players "u-h" "s1" draws w_game).1.
Definition w_host_left : World :=
  (leaveSession "s1" host (set_now 500 w_created)).1.
Definition w_joined : World :=
  (joinSession "s1" ann (Some PLAYER) "u-a" (set_now 1000 w_created)).1.
Definition w_left : World :=
  (leaveSession "s1" ann (set_now 5000 w_joined)).1.
Definition w_ended : World :=
  (endSession "s1" host (set_now 3600000 w_joined)).1.
End Scenario.

(** ** Derived forms of the handlers, used in the proofs *)

(** The world a successful [DELETE /api/sessions/:id] leaves. *)
Definition after_end (id : string) (s : GameSession) (w : World) : World :=
  log_effect (IoTo ("session:" +:+ id) session_ended)
    (log_write (W_gameSession_update id ENDED)
       (set_gameSessions
          <[id := with_status ENDED None (with_status ENDING (Some (now w)) s)]>
          (log_write (W_sessionParticipant_updateMany id)
             (set_sessionParticipants (fmap (mark_left id (now w)))
                (log_write (W_gameSession_update id ENDING)
                   (set_gameSessions
                      <[id := with_status ENDING (Some (now w)) s]> w)))))).

(** [POST /api/sessions/:id/join] from the point where the caller's profile
    is known. *)
Definition join_after_profile (id : string) (bodyRole : option ParticipantRole)
    (userProfile : UserProfile) : Handler Empty_set :=
  let r := default PLAYER bodyRole in
  found ← gameSession_findUnique id;
  match found with
  | None => respond (json 404 (ErrorBody "Session not found or not active"))
  | Some session =>
      if decide (status session ≠ ACTIVE) then
        respond (json 404 (ErrorBody "Session not found or not active"))
      else if decide (maxPlayers session ≤ currentPlayers session ∧ r = PLAYER)
      then respond (json 400 (ErrorBody "Session is full"))
      else
        existingParticipant ← sessionParticipant_findUnique id (up_id userProfile);
        if present existingParticipant then
          respond (json 400 (ErrorBody "Already in this session"))
        else
          participant ← sessionParticipant_create id (up_id userProfile) r false;
          io_to ("session:" +:+ id)
            (user_joined (up_id userProfile) (username userProfile)
               (displayName userProfile) r);;
          respond (json 200 (JoinedBody participant session))
  end.

(** [POST /api/sessions] from the point where the caller's profile is known
    and the code has been drawn. *)
Definition create_after_profile (b : CreateBody) (newSessionId sessCode : string)
    (userProfile : UserProfile) : Handler Empty_set :=
  let maxP := default 1 (b_maxPlayers b) in
  let priv := default false (b_isPrivate b) in
  let vq := b_videoQuality b in
  let framerate := default 60 (b_fps b) in
  existingSession ← gameSession_findFirst (up_id userProfile);
  match existingSession with
  | Some existing =>
      respond (json 400 (ErrorSessionBody "You already have an active session"
                           (gs_id existing)))
  | None =>
      session ← transaction (
        game ← toString (b_gameId b);
        newSession ← gameSession_create newSessionId game
                       (up_id userProfile) sessCode maxP priv vq framerate
                       STARTING;
        sessionParticipant_create (gs_id newSession) (up_id userProfile)
          PLAYER true;;
        mret newSession);
      gameSession_update (gs_id session) ACTIVE None;;
      game ← where_id (b_gameId b);
      game_update_playCount game;;
      redis_publish "session_updates" "session_created" (gs_id session)
        game;;
      respond (json 201 (CreatedBody (gs_id session) (sessionCode session)
                           ("/play/" +:+ default "null" (sessionCode session))))
  end.

(** ** What stays of a row, whatever requests come *)

(** [s'] is a later state of the session row [s]: only its status and end
    time may differ, and an ended session is still ended. *)
Definition session_kept (s s' : GameSession) : Prop :=
  gs_id s' = gs_id s ∧ gameId s' = gameId s ∧ createdBy s' = createdBy s ∧
  sessionCode s' = sessionCode s ∧ maxPlayers s' = maxPlayers s ∧
  currentPlayers s' = currentPlayers s ∧
  spectatorCount s' = spectatorCount s ∧ startedAt s' = startedAt s ∧
  (status s = ENDED → status s' = ENDED).

(** [p'] is a later state of the participant row [p]: only [left_at] may
    differ, and a participant who left has still left. *)
Definition participant_kept (p p' : SessionParticipant) : Prop :=
  sp_sessionId p' = sp_sessionId p ∧ sp_userId p' = sp_userId p ∧
  role p' = role p ∧ isHost p' = isHost p ∧ joinedAt p' = joinedAt p ∧
  totalDurationMinutes p' = totalDurationMinutes p ∧
  (leftAt p ≠ None → leftAt p' ≠ None).

(** The session [sid] of the creator [c] is stored, and while it is
    starting or active it is the only session of [c] that is. *)
Definition only_open_session (c sid : string) (w : World) : Prop :=
  (∃ v, gameSessions w !! sid = Some v ∧ createdBy v = c ∧ gs_id v = sid) ∧
  ((∃ v, gameSessions w !! sid = Some v ∧
         (status v = STARTING ∨ status v = ACTIVE)) →
   ∀ k s, gameSessions w !! k = Some s → createdBy s = c →
          status s = STARTING ∨ status s = ACTIVE → gs_id s = sid).

(** The unique indexes on [platium_user_id] and on [username]. *)
Definition profiles_unique (m : gmap string UserProfile) : Prop :=
  ∀ i j p q, m !! i = Some p → m !! j = Some q →
    platiumUserId p = platiumUserId q ∨ username p = username q → i = j.

(** ** [GET /api/sessions] *)

(** One element of the JSON array the route answers with. Of the columns
    selected from the included game only the id is in the model; of the
    creator, the user name and the display name. *)
Record SessionSummary := {
  ss_sessionId : string;
  ss_sessionCode : option string;
  ss_status : SessionStatus;
  ss_maxPlayers : Z;
  ss_currentPlayers : Z;
  ss_videoQuality : VideoQuality;
  ss_fps : Z;
  ss_startedAt : Z;
  ss_game : option string;
  ss_creator : option (string * option string);
  isFull : bool
}.

(** The [where] of the query: [status in ['STARTING', 'ACTIVE']],
    [isPrivate: false], and [gameId] when the query string gives one
    (an empty [gameId] is falsy and filters nothing). *)
Definition sessions_where (gameIdQuery : option string) (s : GameSession) : Prop :=
  (status s = STARTING ∨ status s = ACTIVE) ∧ isPrivate s = false ∧
  (truthy gameIdQuery = true → Some (gameId s) = gameIdQuery).

#[global] Instance sessions_where_dec q s : Decision (sessions_where q s).
Proof. unfold sessions_where. apply _. Defined.

(** [orderBy: { startedAt: 'desc' }]: [a] may come before [b]. *)
Definition started_after (a b : GameSession) : Prop := startedAt b ≤ startedAt a.

#[global] Instance started_after_dec : RelDecision started_after.
Proof. intros a b. unfold started_after. apply _. Defined.

(** [prisma.gameSession.findMany({ where, take: 20, orderBy })]. Sessions
    with the same start time come in the order the store gives them, here
    the order of their ids. *)
Definition gameSession_findMany (gameIdQuery : option string) (w : World)
    : list GameSession :=
  take 20 (merge_sort started_after
             (filter (sessions_where gameIdQuery)
                (map_to_list (gameSessions w)).*2)).

Definition session_summary (w : World) (session : GameSession) : SessionSummary :=
  {| ss_sessionId := gs_id session;
     ss_sessionCode := sessionCode session;
     ss_status := status session;
     ss_maxPlayers := maxPlayers session;
     ss_currentPlayers := currentPlayers session;
     ss_videoQuality := videoQuality session;
     ss_fps := fps session;
     ss_startedAt := startedAt session;
     ss_game := g_id <$> games w !! gameId session;
     ss_creator := (λ u, (username u, displayName u))
                     <$> userProfiles w !! createdBy session;
     isFull := bool_decide (maxPlayers session ≤ currentPlayers session) |}.

(** The body of the 200 answer of [GET /api/sessions]; the route writes
    nothing. *)
Definition getSessions (gameIdQuery : option string) (w : World)
    : list SessionSummary :=
  session_summary w <$> gameSession_findMany gameIdQuery w.

(** Every row of the session table is stored under its own id. *)
Definition sessions_keyed (w : World) : Prop :=
  ∀ k s, gameSessions w !! k = Some s → gs_id s = k.

(** ** The Socket.io listeners

    The realtime layer adds to the store: the connected sockets, each with
    the user id the [authenticate] listener bound to it and the rooms it
    has joined; the Redis set [online_users] and the keys
    [user_socket:<id>] (their expiry is not modelled); and what the
    listeners sent, each emission with the sockets that receive it,
    resolved when it is sent. The payloads of inputs and of WebRTC
    signalling are opaque. *)

Record Conn := {
  conn_userId : option string;
  conn_rooms : gset string
}.

Inductive Message :=
  | M_authentication_error (error : string)
  | M_authenticated
  | M_user_online (userId : string) (uname : option string)
  | M_user_offline (userId : string)
  | M_session_participants (rows : list (SessionParticipant * option UserProfile))
  | M_player_input (userId : option string) (inputData : string)
  | M_webrtc_offer (from offer : string)
  | M_webrtc_answer (from answer : string)
  | M_webrtc_ice_candidate (from candidate : string).

Record Emission := {
  em_to : gset string;
  em_msg : Message
}.

Record Realtime := {
  rt_store : World;
  rt_conns : gmap string Conn;
  online_users : gset string;
  user_socket : gmap string string;
  rt_out : list Emission
}.

Definition set_conns (f : gmap string Conn → gmap string Conn)
    (rt : Realtime) : Realtime :=
  {| rt_store := rt_store rt; rt_conns := f (rt_conns rt);
     online_users := online_users rt; user_socket := user_socket rt;
     rt_out := rt_out rt |}.

Definition set_redis (f : gset string → gset string)
    (g : gmap string string → gmap string string) (rt : Realtime) : Realtime :=
  {| rt_store := rt_store rt; rt_conns := rt_conns rt;
     online_users := f (online_users rt); user_socket := g (user_socket rt);
     rt_out := rt_out rt |}.

Definition set_store (f : World → World) (rt : Realtime) : Realtime :=
  {| rt_store := f (rt_store rt); rt_conns := rt_conns rt;
     online_users := online_users rt; user_socket := user_socket rt;
     rt_out := rt_out rt |}.

Definition send (to : gset string) (m : Message) (rt : Realtime) : Realtime :=
  {| rt_store := rt_store rt; rt_conns := rt_conns rt;
     online_users := online_users rt; user_socket := user_socket rt;
     rt_out := (rt_out rt ++ [{| em_to := to; em_msg := m |}])%list |}.

(** The sockets in a room. *)
Definition room_members (rt : Realtime) (room : string) : gset string :=
  dom (filter (λ kc, room ∈ conn_rooms kc.2) (rt_conns rt)).

(** [socket.emit(..)], [socket.to(room).emit(..)], [io.emit(..)] *)
Definition socket_emit (k : string) (m : Message) : Realtime → Realtime :=
  send {[k]} m.

Definition socket_to_emit (k room : string) (m : Message) (rt : Realtime)
    : Realtime :=
  send (room_members rt room ∖ {[k]}) m rt.

Definition io_emit (m : Message) (rt : Realtime) : Realtime :=
  send (dom (rt_conns rt)) m rt.

(** A listener runs for a connected socket only. *)
Definition on_socket (k : string) (f : Conn → Realtime → Realtime)
    (rt : Realtime) : Realtime :=
  match rt_conns rt !! k with
  | Some c => f c rt
  | None => rt
  end.

(** [io.on('connection', (socket) => ..)]; Socket.io gives the socket an id
    no connected socket has. *)
Definition on_connection (k : string) (rt : Realtime) : Realtime :=
  match rt_conns rt !! k with
  | Some _ => rt
  | None =>
      set_conns <[k := {| conn_userId := None; conn_rooms := ∅ |}]> rt
  end.

(** What the token validator answers to the [fetch] of a listener. *)
Inductive Validation :=
  | Unreachable
  | Refused
  | Valid (user : AuthUser).

(** [socket.on('authenticate', async (token) => ..)] *)
Definition on_authenticate (k : string) (reply : Validation)
    : Realtime → Realtime :=
  on_socket k (λ c rt,
    match reply with
    | Unreachable =>
        socket_emit k (M_authentication_error "Authentication failed") rt
    | Refused => socket_emit k (M_authentication_error "Invalid token") rt
    | Valid user =>
        socket_emit k M_authenticated
          (io_emit (M_user_online (au_id user) (au_username user))
             (set_redis (λ s, {[au_id user]} ∪ s) <[au_id user := k]>
                (set_conns <[k := {| conn_userId := Some (au_id user);
                                     conn_rooms := conn_rooms c |}]> rt)))
    end).

(** [socket.on('join_session_room', async ({ sessionId }) => ..)]: the
    snapshot is [session?.participants || []], the included participants
    being those of the session with [leftAt: null], each with its user. *)
Definition session_snapshot (w : World) (sessionId : string)
    : list (SessionParticipant * option UserProfile) :=
  match gameSessions w !! sessionId with
  | Some session =>
      (λ p, (p, userProfiles w !! sp_userId p)) <$>
        filter (λ p, sp_sessionId p = gs_id session ∧ leftAt p = None)
          (map_to_list (sessionParticipants w)).*2
  | None => []
  end.

Definition on_join_session_room (k sessionId : string) : Realtime → Realtime :=
  on_socket k (λ c rt,
    let rt' :=
      set_conns <[k := {| conn_userId := conn_userId c;
                          conn_rooms := {["session:" +:+ sessionId]}
                                          ∪ conn_rooms c |}]> rt in
    socket_emit k
      (M_session_participants (session_snapshot (rt_store rt') sessionId)) rt').

(** [socket.on('leave_session_room', ({ sessionId }) => ..)] *)
Definition on_leave_session_room (k sessionId : string) : Realtime → Realtime :=
  on_socket k (λ c rt,
    set_conns <[k := {| conn_userId := conn_userId c;
                        conn_rooms := conn_rooms c
                                        ∖ {["session:" +:+ sessionId]} |}]> rt).

(** [socket.on('game_input', ..)] and the three WebRTC listeners *)
Definition on_game_input (k sessionId inputData : string) : Realtime → Realtime :=
  on_socket k (λ c rt,
    socket_to_emit k ("session:" +:+ sessionId)
      (M_player_input (conn_userId c) inputData) rt).

Definition on_webrtc_offer (k sessionId offer : string) : Realtime → Realtime :=
  on_socket k (λ c rt,
    socket_to_emit k ("session:" +:+ sessionId) (M_webrtc_offer k offer) rt).

Definition on_webrtc_answer (k sessionId answer : string) : Realtime → Realtime :=
  on_socket k (λ c rt,
    socket_to_emit k ("session:" +:+ sessionId) (M_webrtc_answer k answer) rt).

Definition on_webrtc_ice_candidate (k sessionId candidate : string)
    : Realtime → Realtime :=
  on_socket k (λ c rt,
    socket_to_emit k ("session:" +:+ sessionId)
      (M_webrtc_ice_candidate k candidate) rt).

(** The [send_message] listener, for the socket [k]. *)
Definition on_send_message (k sessionId msg : string)
    (bodyType : option MessageType) (newChatId : string)
    : Realtime → Realtime :=
  on_socket k (λ c rt,
    set_store (send_message {| socket_id := k; socket_userId := conn_userId c |}
                 sessionId msg bodyType newChatId) rt).

(** [socket.on('disconnect', async () => ..)]; when it runs Socket.io has
    taken the socket out of its rooms and out of the connected sockets. *)
Definition on_disconnect (k : string) : Realtime → Realtime :=
  on_socket k (λ c rt,
    let rt' := set_conns (delete k) rt in
    if truthy (conn_userId c) then
      let userId := default "" (conn_userId c) in
      io_emit (M_user_offline userId)
        (set_redis (λ s, s ∖ {[userId]}) (delete userId) rt')
    else rt').

(** [rt'] is [rt] after one emission of [m] from the socket [k] to the
    other sockets of [room], and nothing else. *)
Definition relayed (k room : string) (m : Message) (rt rt' : Realtime) : Prop :=
  ∃ e, rt_out rt' = (rt_out rt ++ [e])%list ∧ em_msg e = m ∧
    (∀ k', k' ∈ em_to e ↔
           k' ≠ k ∧ ∃ c', rt_conns rt !! k' = Some c' ∧ room ∈ conn_rooms c') ∧
    rt_store rt' = rt_store rt ∧ rt_conns rt' = rt_conns rt ∧
    online_users rt' = online_users rt.

(** ** The in-memory server ([src/index.js]): [GET /api/games]

    The catalogue is the array [games]; the handler is read for any
    catalogue. Of a game the model keeps the fields the handler looks at.
    Strings are ASCII. [page] and [limit], when the query gives them, are
    decimal numerals of integers: the conversion to a number of [page - 1],
    [* limit] and [/ limit], and [parseInt], give the double nearest to
    the integer. *)

Record SimpleGame := {
  sg_id : string;
  sg_title : string;
  sg_system : string;
  sg_genre : option string
}.

Definition ascii_toLowerCase (c : ascii) : ascii :=
  let n := nat_of_ascii c in
  if bool_decide (65 ≤ n ≤ 90)%nat then ascii_of_nat (n + 32) else c.

(** [s.toLowerCase()] *)
Fixpoint toLowerCase (s : string) : string :=
  match s with
  | EmptyString => EmptyString
  | String c s' => String (ascii_toLowerCase c) (toLowerCase s')
  end.

(** [s.includes(sub)] *)
Fixpoint includes (s sub : string) : bool :=
  String.prefix sub s ||
  match s with
  | EmptyString => false
  | String _ s' => includes s' sub
  end.

(** The integer part of a rational: its fraction is dropped. *)
Definition truncate (x : Q) : Z :=
  if bool_decide (Qnum x < 0) then Qceiling x else Qfloor x.

(** The position in an array of length [len] that an argument [k] of
    [slice] stands for: [NaN] is 0, a fraction is dropped, a negative
    index counts from the end, and the result stays within the array. *)
Definition relative_index (len : Z) (k : Number) : Z :=
  match k with
  | NaN => 0
  | Infinity true => 0
  | Infinity false => len
  | Num x =>
      let i := truncate x in
      if bool_decide (i < 0) then Z.max (len + i) 0 else Z.min i len
  end.

(** [l.slice(start, end)] *)
Definition js_slice {A} (l : list A) (start stop : Number) : list A :=
  let len := Z.of_nat (length l) in
  let from := relative_index len start in
  let to := relative_index len stop in
  take (Z.to_nat (to - from)) (drop (Z.to_nat from) l).

(** A number in the JSON of an answer, for a number that is an integer
    when it is finite: [None] is the [null] that stands for [NaN] and for
    the infinities. *)
Definition json_integer (a : Number) : option Z :=
  match a with
  | Num x => Some (Qfloor x)
  | _ => None
  end.

Record GamesQuery := {
  q_page : option Z;
  q_limit : option Z;
  q_system : option string;
  q_search : option string
}.

Record GamesPage := {
  gp_games : list SimpleGame;
  gp_page : option Z;
  gp_limit : option Z;
  gp_total : nat;
  gp_totalPages : option Z
}.

Definition matches_search (search : string) (g : SimpleGame) : bool :=
  let searchLower := toLowerCase search in
  includes (toLowerCase (sg_title g)) searchLower ||
  match sg_genre g with
  | Some genre => includes (toLowerCase genre) searchLower
  | None => false
  end.

(** The games left by the [system] and [search] filters. *)
Definition filteredGames (q : GamesQuery) (games : list SimpleGame)
    : list SimpleGame :=
  let bySystem :=
    if truthy (q_system q)
    then filter (λ g, Some (sg_system g) = q_system q) games
    else games in
  if truthy (q_search q)
  then filter (λ g, matches_search (default "" (q_search q)) g = true) bySystem
  else bySystem.

(** [app.get('/api/games', ..)] of the in-memory server *)
Definition getGames (q : GamesQuery) (games : list SimpleGame) : GamesPage :=
  let page := to_double (inject_Z (default 1 (q_page q))) in
  let limit := to_double (inject_Z (default 20 (q_limit q))) in
  let filtered := filteredGames q games in
  let total := to_double (inject_Z (Z.of_nat (length filtered))) in
  let startIndex := Number_mul (Number_sub page (Num 1)) limit in
  let endIndex := Number_add startIndex limit in
  {| gp_games := js_slice filtered startIndex endIndex;
     gp_page := json_integer page;
     gp_limit := json_integer limit;
     gp_total := length filtered;
     gp_totalPages := json_integer (Math_ceil (Number_div total limit)) |}.

(** ** More concrete states, used for the examples below *)

Module Live.
(** Ann opens a session for nobody: [maxPlayers] 0. *)
Definition no_players : CreateBody :=
  {| b_gameId := IdString "g1"; b_maxPlayers := Some 0; b_isPrivate := None;
     b_videoQuality := Some Q1080p; b_fps := None |}.
Definition w_no_room : World :=
  (createSession Scenario.ann no_players "u-a" "s2"
     (λ i, Scenario.colliding_draws (6 + i)) Scenario.w_created).1.

Definition requests : list Request :=
  [POST_games "g1" "mario-party-7";
   POST_sessions Scenario.host Scenario.two_players "u-h" "s1" Scenario.draws;
   POST_sessions_join "s1" Scenario.ann None "u-a";
   Clock 5000;
   DELETE_sessions_leave "s1" Scenario.ann;
   DELETE_sessions "s1" Scenario.host;
   POST_sessions_join "s1" Scenario.ann None "u-a2"].

(** An identity whose id at the validator is the id of Ann's profile. *)
Definition ann_by_profile_id : AuthUser :=
  {| au_id := "u-a"; au_username := Some "ann"; au_name := None |}.

(** Two sockets in the room of s1, a third one connected only. *)
Definition rt0 : Realtime :=
  {| rt_store := Scenario.w_joined; rt_conns := ∅; online_users := ∅;
     user_socket := ∅; rt_out := [] |}.
Definition rt_room : Realtime :=
  on_connection "k3"
    (on_join_session_room "k2" "s1"
       (on_connection "k2"
          (on_join_session_room "k1" "s1" (on_connection "k1" rt0)))).

(** The catalogue of [src/index.js], and a longer one. *)
Definition games : list SimpleGame :=
  [{| sg_id := "57216f4d-158c-446e-96d3-c28b7ea34354";
      sg_title := "Mario Party 7"; sg_system := "gamecube";
      sg_genre := Some "Party" |}].
Definition five_games : list SimpleGame :=
  [{| sg_id := "1"; sg_title := "Super Mario Bros."; sg_system := "nes";
      sg_genre := Some "Platformer" |};
   {| sg_id := "2"; sg_title := "Metroid"; sg_system := "nes";
      sg_genre := Some "Action" |};
   {| sg_id := "3"; sg_title := "Contra"; sg_system := "nes";
      sg_genre := None |};
   {| sg_id := "4"; sg_title := "Super Mario World"; sg_system := "snes";
      sg_genre := Some "Platformer" |};
   {| sg_id := "5"; sg_title := "Mega Man 2"; sg_system := "nes";
      sg_genre := Some "Platformer" |}].
End Live.

(** * Properties *)

(** ** Queries on a column that is not the key *)

Section find_row.
Context {K V : Type} `{Countable K} (P : V → Prop) `{∀ v, Decision (P v)}.

Lemma find_row_Some (m : gmap K V) v :
  find_row P m = Some v → P v ∧ ∃ k, m !! k = Some v.
Proof.
  unfold find_row. intros Hh.
  assert (Hin : v ∈ filter P (map_to_list m).*2).
  { destruct (filter P (map_to_list m).*2) as [|x l]; simplify_eq/=. left. }
  apply list_elem_of_filter in Hin as [HP Hin]. split; [done|].
  apply list_elem_of_fmap in Hin as [[k v'] [-> Hin]].
  exists k. by apply elem_of_map_to_list.
Qed.

Lemma find_row_None (m : gmap K V) :
  find_row P m = None → ∀ k v, m !! k = Some v → ¬ P v.
Proof.
  unfold find_row. intros Hh k v Hk HP.
  assert (Hin : v ∈ filter P (map_to_list m).*2).
  { apply list_elem_of_filter. split; [done|].
    apply list_elem_of_fmap. exists (k, v). split; [done|].
    by apply elem_of_map_to_list. }
  destruct (filter P (map_to_list m).*2); [by apply not_elem_of_nil in Hin | done].
Qed.
End find_row.

(** ** Running a handler *)

(** Unfold the store operations down to the matches on the tables. *)
Ltac unfold_ops :=
  unfold try_catch, catch_log, transaction, resolveProfile,
    userProfile_findUnique, userProfile_create, gameSession_findUnique,
    gameSession_findFirst, gameSession_create, gameSession_update,
    sessionParticipant_findUnique, sessionParticipant_create,
    sessionParticipant_update, sessionParticipant_updateMany,
    sessionChat_create, game_create, game_update_playCount, io_to,
    redis_publish, toString, where_id, new_Date, respond, modify, reads,
    mbind, mret, Handler_bind, Handler_ret, hbind, hret in *.

(** One step of a run: use what is known about a lookup, or split on it. *)
Ltac run_step :=
  match goal with
  | |- context [<[?k:=_]> _ !! ?k] => rewrite lookup_insert_eq
  | H : ?m !! ?k = _ |- context [?m !! ?k] => rewrite H
  | H : find_row ?P ?m = _ |- context [find_row ?P ?m] => rewrite H
  | |- context [match ?m !! ?k with _ => _ end] => destruct (m !! k) eqn:?
  | |- context [match find_row ?P ?m with _ => _ end] =>
      destruct (find_row P m) eqn:?
  | H : b_gameId ?b = _ |- context [b_gameId ?b] => rewrite H
  | H : b_videoQuality ?b = _ |- context [b_videoQuality ?b] => rewrite H
  | |- context [match b_gameId ?b with _ => _ end] =>
      destruct (b_gameId b) as [?|[?|]] eqn:?
  | |- context [match b_videoQuality ?b with _ => _ end] =>
      destruct (b_videoQuality b) eqn:?
  | |- context [match decide ?P with _ => _ end] => destruct (decide P)
  end; cbn.

(** ** Rounding to the nearest double *)

Lemma pow2_pos e : (0 < pow2 e)%Q.
Proof.
  unfold pow2, Qlt. simpl. rewrite Z.mul_1_r. apply Z.pow_pos_nonneg; lia.
Qed.

Lemma pow2_Z (k : Z) : 0 ≤ k → pow2 k = inject_Z (2 ^ k).
Proof.
  intros Hk. unfold pow2, inject_Z.
  rewrite Z.max_l, Z.max_r by lia. reflexivity.
Qed.

Lemma pow2_frac (m n : Z) :
  0 ≤ m → 0 ≤ n → (pow2 (m - n) == 2 ^ m # Z.to_pos (2 ^ n))%Q.
Proof.
  intros Hm Hn. unfold pow2, Qeq. simpl.
  rewrite !Z2Pos.id by (apply Z.pow_pos_nonneg; lia).
  rewrite <- !Z.pow_add_r by lia. f_equal. lia.
Qed.

Lemma pow2_add (a b : Z) : (pow2 (a + b) == pow2 a * pow2 b)%Q.
Proof.
  unfold pow2, Qeq, Qmult. simpl.
  rewrite Pos2Z.inj_mul, !Z2Pos.id by (apply Z.pow_pos_nonneg; lia).
  rewrite <- !Z.pow_add_r by lia. f_equal. lia.
Qed.

Lemma pow2_le (a b : Z) : a ≤ b → (pow2 a <= pow2 b)%Q.
Proof.
  intros Hab. replace b with (a + (b - a)) by lia.
  rewrite pow2_add, (pow2_Z (b - a)) by lia.
  assert (1 ≤ 2 ^ (b - a)) by (apply Z.lt_pred_le, Z.pow_pos_nonneg; lia).
  assert (1 <= inject_Z (2 ^ (b - a)))%Q by (unfold Qle; simpl; lia).
  pose proof (pow2_pos a). nra.
Qed.

Lemma pow2_lt (a b : Z) : a < b → (pow2 a < pow2 b)%Q.
Proof.
  intros Hab. replace b with (a + (b - a)) by lia.
  rewrite pow2_add, (pow2_Z (b - a)) by lia.
  assert (2 ≤ 2 ^ (b - a)).
  { replace (b - a) with (1 + (b - a - 1)) by lia. rewrite Z.pow_add_r by lia.
    assert (0 < 2 ^ (b - a - 1)) by (apply Z.pow_pos_nonneg; lia). lia. }
  assert (2 <= inject_Z (2 ^ (b - a)))%Q by (unfold Qle; simpl; lia).
  pose proof (pow2_pos a). nra.
Qed.

Lemma pow2_lt_inv (a b : Z) : (pow2 a < pow2 b)%Q → a < b.
Proof.
  intros H. destruct (decide (a < b)) as [|Hn]; [done|].
  assert (pow2 b <= pow2 a)%Q by (apply pow2_le; lia). lra.
Qed.

Lemma exponent_of_spec (x : Q) :
  (0 < x)%Q → (pow2 (exponent_of x) <= x)%Q ∧ (x < pow2 (exponent_of x + 1))%Q.
Proof.
  intros Hx. destruct x as [a b]. unfold exponent_of. cbn [Qnum Qden].
  assert (Ha : 0 < a) by (unfold Qlt in Hx; simpl in Hx; lia).
  destruct (Z.log2_spec a Ha) as [Ha1 Ha2].
  destruct (Z.log2_spec (Z.pos b) (Pos2Z.is_pos b)) as [Hb1 Hb2].
  pose proof (Z.log2_nonneg a). pose proof (Z.log2_nonneg (Z.pos b)).
  set (la := Z.log2 a) in *. set (lb := Z.log2 (Z.pos b)) in *.
  assert (0 < 2 ^ la) by (apply Z.pow_pos_nonneg; lia).
  assert (0 < 2 ^ lb) by (apply Z.pow_pos_nonneg; lia).
  rewrite Z.pow_succ_r in Ha2, Hb2 by lia.
  assert (Hlo : (pow2 (la - lb - 1) <= a # b)%Q).
  { replace (la - lb - 1) with (la - (lb + 1)) by lia.
    rewrite pow2_frac by lia. unfold Qle. simpl.
    rewrite Z2Pos.id by (apply Z.pow_pos_nonneg; lia).
    rewrite Z.add_1_r, Z.pow_succ_r by lia. nia. }
  assert (Hhi : (a # b < pow2 (la - lb + 1))%Q).
  { replace (la - lb + 1) with (la + 1 - lb) by lia.
    rewrite pow2_frac by lia. unfold Qlt. simpl.
    rewrite Z2Pos.id by (apply Z.pow_pos_nonneg; lia).
    rewrite Z.add_1_r, Z.pow_succ_r by lia. nia. }
  destruct (Qle_bool (pow2 (la - lb)) (a # b)) eqn:Hc.
  - apply Qle_bool_iff in Hc. split; assumption.
  - split; [done|]. replace (la - lb - 1 + 1) with (la - lb) by lia.
    apply Qnot_le_lt. intros Hle. apply Qle_bool_iff in Hle. congruence.
Qed.

Lemma exponent_unique (x : Q) (e1 e2 : Z) :
  (pow2 e1 <= x)%Q → (x < pow2 (e1 + 1))%Q →
  (pow2 e2 <= x)%Q → (x < pow2 (e2 + 1))%Q → e1 = e2.
Proof.
  intros H1 H2 H3 H4.
  assert (e1 < e2 + 1) by (apply pow2_lt_inv; lra).
  assert (e2 < e1 + 1) by (apply pow2_lt_inv; lra). lia.
Qed.

Lemma exponent_of_eq (x : Q) (e : Z) :
  (pow2 e <= x)%Q → (x < pow2 (e + 1))%Q → exponent_of x = e.
Proof.
  intros H1 H2. pose proof (pow2_pos e).
  destruct (exponent_of_spec x) as [H3 H4]; [lra|].
  by apply (exponent_unique x).
Qed.

Lemma round_half_even_spec (y : Q) :
  (inject_Z (round_half_even y) - (1 # 2) <= y)%Q ∧
  (y <= inject_Z (round_half_even y) + (1 # 2))%Q.
Proof.
  unfold round_half_even. pose proof (Qfloor_le y). pose proof (Qlt_floor y).
  rewrite inject_Z_plus in *. change (inject_Z 1) with 1%Q in *.
  destruct (Qcompare_spec (y - inject_Z (Qfloor y)) (1 # 2)) as [He|Hl|Hg].
  - destruct (Z.even (Qfloor y)); rewrite ?inject_Z_plus;
      change (inject_Z 1) with 1%Q; split; lra.
  - split; lra.
  - rewrite inject_Z_plus. change (inject_Z 1) with 1%Q. split; lra.
Qed.

Lemma round_half_even_Z (y : Q) (k : Z) :
  (y == inject_Z k)%Q → round_half_even y = k.
Proof.
  intros Hy. unfold round_half_even.
  rewrite (Qfloor_comp _ _ Hy), Qfloor_Z.
  destruct (Qcompare_spec (y - inject_Z k) (1 # 2)) as [He|Hl|Hg]; [lra|done|lra].
Qed.

Lemma to_double_pos (x : Q) : (0 < x)%Q → to_double x = round_positive x.
Proof.
  intros Hx. unfold to_double. destruct x as [[|a|a] b]; [|done|].
  - unfold Qlt in Hx. simpl in Hx. lia.
  - unfold Qlt in Hx. simpl in Hx. lia.
Qed.

Lemma ulp_pos (x : Q) : (0 < ulp x)%Q.
Proof. apply pow2_pos. Qed.

(** The rounded value is within half a unit in the last place. *)
Lemma round_positive_cases (x : Q) :
  (0 < x)%Q →
  let y := (inject_Z (round_half_even (x / ulp x)) * ulp x)%Q in
  (y - ulp x * (1 # 2) <= x)%Q ∧ (x <= y + ulp x * (1 # 2))%Q ∧
  ((round_positive x = Infinity false ∧ (pow2 1024 <= y)%Q) ∨
   (round_positive x = Num (Qred y) ∧ (y < pow2 1024)%Q)).
Proof.
  intros Hx y. pose proof (ulp_pos x) as Hu.
  destruct (round_half_even_spec (x / ulp x)) as [H1 H2].
  assert (Hxu : (x / ulp x * ulp x == x)%Q) by (field; lra).
  set (q := (x / ulp x)%Q) in *. set (u := ulp x) in *.
  set (n := inject_Z (round_half_even q)) in *.
  split; [subst y; nra|]. split; [subst y; nra|].
  unfold round_positive. fold u q n. fold y.
  destruct (Qle_bool (pow2 1024) y) eqn:Ho.
  - left. split; [done|]. by apply Qle_bool_iff.
  - right. split; [done|]. apply Qnot_le_lt. intros Hle.
    apply Qle_bool_iff in Hle. congruence.
Qed.

Lemma Qred_inject_Z (z : Z) : Qred (inject_Z z) = inject_Z z.
Proof.
  pose proof (Qred_correct (inject_Z z)) as He.
  pose proof (gcd_Qred (inject_Z z)) as Hg.
  destruct (Qred (inject_Z z)) as [a d]. unfold Qeq in He. simpl in *.
  rewrite Z.mul_1_r in He. subst a.
  rewrite Z.gcd_comm, Z.mul_comm, Z.gcd_mul_diag_l in Hg by lia.
  assert (d = 1%positive) as -> by lia. by rewrite Z.mul_1_r.
Qed.

Lemma pow2_inv (e : Z) : (pow2 e * pow2 (- e) == 1)%Q.
Proof. rewrite <- pow2_add. by replace (e + - e) with 0 by lia. Qed.

(** An integer below [2 ^ 53] is a double. *)
Lemma to_double_Z (x : Q) (z : Z) :
  (x == inject_Z z)%Q → 0 ≤ z < 2 ^ 53 → to_double x = Num (inject_Z z).
Proof.
  intros Hx Hz. destruct (decide (z = 0)) as [->|Hnz].
  { unfold to_double. destruct x as [a b]. unfold Qeq in Hx. simpl in Hx.
    assert (a = 0) as -> by lia. done. }
  assert (H1 : (1 <= x)%Q) by (rewrite Hx; unfold Qle; simpl; lia).
  assert (H53 : (x < pow2 53)%Q).
  { rewrite Hx, pow2_Z by lia. unfold Qlt. simpl. lia. }
  rewrite to_double_pos by lra.
  destruct (exponent_of_spec x) as [He1 He2]; [lra|].
  assert (exponent_of x < 53) by (apply pow2_lt_inv; lra).
  assert (0 < exponent_of x + 1).
  { apply pow2_lt_inv. change (pow2 0) with 1%Q. lra. }
  unfold round_positive, ulp. rewrite Z.max_l by lia.
  set (e := exponent_of x) in *.
  assert (Hq : (x / pow2 (e - 52) == inject_Z (z * 2 ^ (52 - e)))%Q).
  { rewrite inject_Z_mult, <- pow2_Z, <- Hx by lia.
    pose proof (pow2_inv (e - 52)) as Hi. pose proof (pow2_pos (e - 52)).
    replace (- (e - 52)) with (52 - e) in Hi by lia.
    apply (Qmult_inj_r _ _ (pow2 (e - 52))); [lra|].
    rewrite <- Qmult_assoc, (Qmult_comm (pow2 (52 - e))), Hi. field. lra. }
  rewrite (round_half_even_Z _ _ Hq).
  assert (Hy : (inject_Z (z * 2 ^ (52 - e)) * pow2 (e - 52) == inject_Z z)%Q).
  { rewrite inject_Z_mult, <- pow2_Z by lia.
    pose proof (pow2_inv (e - 52)) as Hi.
    replace (- (e - 52)) with (52 - e) in Hi by lia.
    rewrite <- Qmult_assoc, (Qmult_comm (pow2 (52 - e))), Hi. ring. }
  assert (Qle_bool (pow2 1024) (inject_Z (z * 2 ^ (52 - e)) * pow2 (e - 52))
          = false) as ->.
  { apply not_true_is_false. intros Hle%Qle_bool_iff. rewrite Hy, <- Hx in Hle.
    pose proof (pow2_lt 53 1024 ltac:(lia)). lra. }
  f_equal. rewrite (Qred_complete _ _ Hy). apply Qred_inject_Z.
Qed.

(** A double below 1 is at most [1 - 2 ^ -53]. *)
Lemma double_below_1 (r : Q) :
  Is_true (is_double r) → (0 <= r)%Q → (r < 1)%Q →
  (r <= 1 - (1 # 9007199254740992))%Q.
Proof.
  intros Hd H0 H1. destruct (Qlt_le_dec r (1 # 2)) as [|Hhalf]; [lra|].
  unfold is_double in Hd. rewrite to_double_pos in Hd by lra.
  assert (He : exponent_of r = -1).
  { apply exponent_of_eq; [change (pow2 (-1)) with (1 # 2)%Q; lra|].
    change (pow2 (-1 + 1)) with 1%Q. lra. }
  destruct (round_positive_cases r) as (_ & _ & [[Hr _]|[Hr _]]); [lra|..];
    rewrite Hr in Hd; [done|].
  apply Is_true_true, Qeq_bool_eq in Hd. rewrite Qred_correct in Hd.
  unfold ulp in Hd. rewrite He in Hd.
  change (pow2 (Z.max (-1) (-1022) - 52)) with (1 # 9007199254740992)%Q in Hd.
  set (n := round_half_even _) in Hd.
  assert (n < 9007199254740992).
  { rewrite Zlt_Qlt. rewrite <- Hd in H1.
    assert (inject_Z n * (1 # 9007199254740992) * inject_Z 9007199254740992
            == inject_Z n)%Q as Hn by (unfold inject_Z; field).
    rewrite <- Hn. change (inject_Z 9007199254740992) with 9007199254740992%Q.
    nra. }
  assert (inject_Z n <= 9007199254740991)%Q.
  { change 9007199254740991%Q with (inject_Z 9007199254740991).
    rewrite <- Zle_Qle. lia. }
  rewrite <- Hd. lra.
Qed.

(** Below [31 - 31 * 2 ^ -53], the nearest double is below 31. *)
Lemma to_double_below_31 (x : Q) :
  (0 <= x)%Q → (x <= 31 - (31 # 9007199254740992))%Q →
  ∃ y, to_double x = Num y ∧ (0 <= y)%Q ∧ (y < 31)%Q.
Proof.
  intros H0 H1. destruct (Qlt_le_dec 0 x) as [Hpos|Hle].
  2:{ exists 0%Q. split; [|split; lra]. unfold to_double.
      destruct x as [a b]. unfold Qle in *. simpl in *.
      assert (a = 0) as -> by lia. done. }
  rewrite to_double_pos by done.
  destruct (exponent_of_spec x) as [He1 He2]; [done|].
  assert (exponent_of x < 5).
  { apply pow2_lt_inv. change (pow2 5) with 32%Q. lra. }
  assert (Hu : (ulp x <= 1 # 281474976710656)%Q).
  { change (1 # 281474976710656)%Q with (pow2 (4 - 52)).
    apply pow2_le. lia. }
  pose proof (ulp_pos x) as Hupos.
  destruct (round_positive_cases x) as (Hlo & Hhi & Hcase); [done|].
  set (y := (inject_Z (round_half_even (x / ulp x)) * ulp x)%Q) in *.
  assert (Hy31 : (y < 31)%Q) by lra.
  assert (Hy0 : (0 <= y)%Q).
  { subst y. apply Qmult_le_0_compat; [|lra].
    set (n := round_half_even _) in *.
    assert (-1 < n); [|change 0%Q with (inject_Z 0); rewrite <- Zle_Qle; lia].
    rewrite Zlt_Qlt. change (inject_Z (-1)) with (-1)%Q.
    destruct (Qlt_le_dec (-1) (inject_Z n)) as [|Hn]; [done|]. nra. }
  destruct Hcase as [[_ Hover]|[-> _]].
  - pose proof (pow2_lt 5 1024 ltac:(lia)) as H5. change (pow2 5) with 32%Q in H5. lra.
  - exists (Qred y). split; [done|]. rewrite Qred_correct. split; lra.
Qed.

(** The quotient of two integers below [2 ^ 53], rounded, has the ceiling
    of the exact quotient. *)
Lemma to_double_quotient_ceiling (a b : Z) :
  0 ≤ a < 2 ^ 53 → 1 ≤ b < 2 ^ 53 →
  ∃ y, to_double (inject_Z a / inject_Z b) = Num y ∧
       Qceiling y = - ((- a) `div` b).
Proof.
  intros Ha Hb.
  set (c := - ((- a) `div` b)).
  assert (Hc : (c - 1) * b < a ≤ c * b).
  { unfold c. pose proof (Z.div_mod (- a) b ltac:(lia)) as Hd.
    pose proof (Z.mod_pos_bound (- a) b ltac:(lia)) as Hm.
    generalize dependent ((- a) `div` b). generalize dependent ((- a) `mod` b).
    intros m Hm d Hd. nia. }
  assert (Hbpos : (0 < inject_Z b)%Q) by (unfold Qlt; simpl; lia).
  set (x := (inject_Z a / inject_Z b)%Q).
  assert (Hxb : (x * inject_Z b == inject_Z a)%Q) by (unfold x; field; lra).
  destruct (decide (a = c * b)) as [Hdiv|Hndiv].
  { exists (inject_Z c). split; [|apply Qceiling_Z].
    apply to_double_Z; [|nia].
    apply (Qmult_inj_r _ _ (inject_Z b)); [lra|].
    rewrite Hxb, <- inject_Z_mult. by rewrite Hdiv. }
  assert (Hlo : (inject_Z (c - 1) * inject_Z b + 1 <= x * inject_Z b)%Q).
  { rewrite Hxb, <- inject_Z_mult. change 1%Q with (inject_Z 1).
    rewrite <- inject_Z_plus, <- Zle_Qle. lia. }
  assert (Hhi : (x * inject_Z b + 1 <= inject_Z c * inject_Z b)%Q).
  { rewrite Hxb, <- inject_Z_mult. change 1%Q with (inject_Z 1).
    rewrite <- inject_Z_plus, <- Zle_Qle. lia. }
  assert (a ≠ 0).
  { intros ->. apply Hndiv. assert (c = 0) as -> by nia. lia. }
  assert (Hapos : (0 < inject_Z a)%Q) by (unfold Qlt; simpl; lia).
  assert (Hxpos : (0 < x)%Q).
  { destruct (Qlt_le_dec 0 x) as [|Hn]; [done|]. nra. }
  assert (Ha53 : (inject_Z a < pow2 53)%Q).
  { rewrite pow2_Z by lia. rewrite <- Zlt_Qlt. lia. }
  assert (Hb53 : (inject_Z b < pow2 53)%Q).
  { rewrite pow2_Z by lia. rewrite <- Zlt_Qlt. lia. }
  rewrite to_double_pos by done.
  destruct (exponent_of_spec x Hxpos) as [He1 He2].
  (* the quotient is in the normal range *)
  assert (Hnormal : -1022 ≤ exponent_of x).
  { assert (-54 < exponent_of x + 1); [|lia].
    apply pow2_lt_inv. eapply Qlt_trans; [|exact He2].
    assert (Hi : (pow2 (-54) * pow2 53 < 1)%Q).
    { rewrite <- pow2_add. reflexivity. }
    pose proof (pow2_pos (-54)). pose proof (pow2_pos 53).
    assert (1 <= inject_Z a)%Q.
    { change 1%Q with (inject_Z 1). rewrite <- Zle_Qle. nia. }
    destruct (Qlt_le_dec (pow2 (-54)) x) as [|Hn]; [done|]. nra. }
  assert (Hulp : (ulp x * pow2 52 <= x)%Q).
  { unfold ulp. rewrite Z.max_l by lia. rewrite <- pow2_add.
    by replace (exponent_of x - 52 + 52) with (exponent_of x) by lia. }
  change (pow2 52) with 4503599627370496%Q in Hulp.
  change (pow2 53) with 9007199254740992%Q in Ha53, Hb53.
  pose proof (ulp_pos x) as Hupos.
  destruct (round_positive_cases x Hxpos) as (Hylo & Hyhi & Hcase).
  set (y := (inject_Z (round_half_even (x / ulp x)) * ulp x)%Q) in *.
  (* half a step is less than 1 / b *)
  assert (Hstep : (ulp x * (1 # 2) * inject_Z b < 1)%Q) by nra.
  assert (Hy1 : (inject_Z (c - 1) < y)%Q).
  { destruct (Qlt_le_dec (inject_Z (c - 1)) y) as [|Hn]; [done|]. nra. }
  assert (Hy2 : (y < inject_Z c)%Q).
  { destruct (Qlt_le_dec y (inject_Z c)) as [|Hn]; [done|]. nra. }
  destruct Hcase as [[_ Hover]|[-> _]].
  { exfalso. pose proof (pow2_lt 53 1024 ltac:(lia)) as H5.
    change (pow2 53) with 9007199254740992%Q in H5.
    assert (inject_Z c <= inject_Z a)%Q; [|lra].
    rewrite <- Zle_Qle. nia. }
  exists (Qred y). split; [done|]. rewrite (Qceiling_comp _ _ (Qred_correct y)).
  pose proof (Qceiling_lt y) as Hc1. pose proof (Qle_ceiling y) as Hc2.
  assert (Qceiling y - 1 < c) by (rewrite Zlt_Qlt; lra).
  assert (c - 1 < Qceiling y) by (rewrite Zlt_Qlt; lra).
  lia.
Qed.

(** ** Join codes: length and alphabet *)

Lemma string_at_nat (s : string) (k : nat) :
  string_at s (Num (inject_Z (Z.of_nat k))) = String.get k s.
Proof.
  unfold string_at. rewrite Qfloor_Z, Qeq_bool_refl, Nat2Z.id.
  assert (Qle_bool 0 (inject_Z (Z.of_nat k)) = true) as ->; [|done].
  apply Qle_bool_iff. unfold Qle. simpl. lia.
Qed.

(** A draw in [0, 1) selects an index of the alphabet. *)
Lemma random_index_lt (r : Double) :
  (0 <= d_value r)%Q → (d_value r < 1)%Q →
  ∃ k : nat, random_index r = Num (inject_Z (Z.of_nat k)) ∧ (k < 31)%nat.
Proof.
  intros H0 H1. unfold random_index. change (String.length chars) with 31%nat.
  change (inject_Z (Z.of_nat 31)) with 31%Q. cbn [Number_mul].
  pose proof (double_below_1 _ (d_double r) H0 H1) as Hr.
  destruct (to_double_below_31 (d_value r * 31)) as (y & -> & Hy0 & Hy31);
    [lra | lra |].
  cbn [Math_floor]. exists (Z.to_nat (Qfloor y)).
  assert (0 ≤ Qfloor y).
  { rewrite <- (Qfloor_Z 0). by apply Qfloor_resp_le. }
  assert (Qfloor y < 31).
  { rewrite Zlt_Qlt. eapply Qle_lt_trans; [apply Qfloor_le | done]. }
  rewrite Z2Nat.id by done. split; [done | lia].
Qed.

(** At a draw just below a border between two symbols the product of the
    doubles rounds up to the border, and the next symbol is selected. *)
Example random_index_rounds_up :
  let r := Scenario.draw (1162219258676257 # 4503599627370496) I in
  Qfloor (d_value r * 31) = 7 ∧ random_index r = Num 8.
Proof. vm_compute. split; reflexivity. Qed.

Lemma append_char_spec (s : string) (k : nat) :
  (k < 31)%nat →
  ∃ c, c ∈ String.list_ascii_of_string chars ∧
       append_char s (Num (inject_Z (Z.of_nat k))) = s +:+ String c "".
Proof.
  intros Hk. unfold append_char. rewrite string_at_nat.
  do 31 (destruct k as [|k]; [eexists; split; [|reflexivity]; vm_compute; set_solver|]).
  lia.
Qed.

Lemma list_ascii_of_string_app (s t : string) :
  String.list_ascii_of_string (s +:+ t)
  = (String.list_ascii_of_string s ++ String.list_ascii_of_string t)%list.
Proof. induction s as [|a s IH]; simpl; [done | by rewrite IH]. Qed.

Lemma string_length_list (s : string) :
  String.length s = length (String.list_ascii_of_string s).
Proof. induction s as [|a s IH]; simpl; [done | by rewrite IH]. Qed.

Lemma fold_append_char (random : nat → Double) (l : list nat) (s : string) :
  Forall (λ i, (0 <= d_value (random i))%Q ∧ (d_value (random i) < 1)%Q) l →
  let code := fold_left (λ result i, append_char result (random_index (random i))) l s in
  String.length code = (String.length s + length l)%nat ∧
  ∀ c, c ∈ String.list_ascii_of_string code →
       c ∈ String.list_ascii_of_string s ∨ c ∈ String.list_ascii_of_string chars.
Proof.
  intros Hl. revert s. induction Hl as [|i l [H0 H1] _ IH]; intros s; simpl.
  - split; [lia | auto].
  - destruct (random_index_lt (random i) H0 H1) as (k & -> & Hk).
    destruct (append_char_spec s k Hk) as (a & Ha & ->).
    destruct (IH (s +:+ String a "")) as [Hlen Hin]. split.
    + rewrite Hlen, !string_length_list, list_ascii_of_string_app, length_app.
      simpl. lia.
    + intros c Hc. destruct (Hin c Hc) as [Hs | ?]; [|by right].
      rewrite list_ascii_of_string_app in Hs.
      apply elem_of_app in Hs as [?|Hs]; [by left|].
      simpl in Hs. apply list_elem_of_singleton in Hs as ->. by right.
Qed.


(** ** The caller's profile *)

Lemma resolveProfile_tables user nid w w' o :
  resolveProfile user nid w = (w', o) →
  gameSessions w' = gameSessions w ∧
  sessionParticipants w' = sessionParticipants w ∧ now w' = now w.
Proof. unfold_ops. intros Hr. repeat case_match; simplify_eq/=; done. Qed.

Lemma resolveProfile_no_Return user nid w w1 r :
  resolveProfile user nid w ≠ (w1, Return r).
Proof. unfold_ops. repeat case_match; simplify_eq; done. Qed.

Lemma resolveProfile_Throw user nid w w1 :
  resolveProfile user nid w = (w1, Throw) → w1 = w ∧ profile_of w user = None.
Proof.
  unfold profile_of. unfold_ops. intros Hr.
  repeat case_match; simplify_eq/=; done.
Qed.

Lemma profile_of_resolve user nid w p :
  profile_of w user = Some p → resolveProfile user nid w = (w, Value p).
Proof. unfold profile_of. unfold_ops. by intros ->. Qed.

(** Once resolved, the profile is the one later requests find. *)
Lemma resolveProfile_Value user nid w w1 p :
  resolveProfile user nid w = (w1, Value p) → profile_of w1 user = Some p.
Proof.
  unfold profile_of. unfold_ops. intros Hr.
  destruct (find_row _ (userProfiles w)) as [p'|] eqn:Hfound; [by simplify_eq/=|].
  cbn in Hr.
  destruct (userProfiles w !! nid) eqn:Hnid; [done|].
  destruct (find_row (λ u, platiumUserId u = au_id user ∨ _) _) eqn:Hdup; [done|].
  injection Hr as <- <-. cbn.
  match goal with
  | |- find_row ?P ?m = _ => destruct (find_row P m) as [v|] eqn:Hv
  end.
  - apply find_row_Some in Hv as [HP [k Hk]].
    destruct (decide (k = nid)) as [->|Hne].
    + rewrite lookup_insert_eq in Hk. by simplify_eq.
    + rewrite lookup_insert_ne in Hk by done.
      by destruct (find_row_None _ _ Hfound k v Hk).
  - exfalso. eapply (find_row_None _ _ Hv nid); [apply lookup_insert_eq | done].
Qed.

(** ** Handlers that leave the session table alone *)

Lemma joinSession_gameSessions id user r nid w :
  gameSessions (joinSession id user r nid w).1 = gameSessions w.
Proof. unfold joinSession. unfold_ops. repeat case_match; simplify_eq/=; done. Qed.

Lemma leaveSession_gameSessions id user w :
  gameSessions (leaveSession id user w).1 = gameSessions w.
Proof. unfold leaveSession. unfold_ops. repeat case_match; simplify_eq/=; done. Qed.

Lemma createGame_gameSessions nid sl w :
  gameSessions (createGame nid sl w).1 = gameSessions w.
Proof. unfold createGame. unfold_ops. repeat case_match; simplify_eq/=; done. Qed.

Lemma send_message_gameSessions socket sid msg ty nid w :
  gameSessions (send_message socket sid msg ty nid w) = gameSessions w.
Proof. unfold send_message. unfold_ops. repeat case_match; simplify_eq/=; done. Qed.

(** ** Joining *)

Lemma joinSession_resolved id user bodyRole nid w w1 p :
  resolveProfile user nid w = (w1, Value p) →
  joinSession id user bodyRole nid w
  = try_catch (join_after_profile id bodyRole p) "Failed to join session" w1.
Proof.
  intros Hres. unfold joinSession, try_catch.
  unfold mbind at 1, Handler_bind at 1, hbind at 1. by rewrite Hres.
Qed.

(** What a 200 answer of the join route tells about the world it leaves. *)
Lemma joinSession_ok_inv id user bodyRole nid w w2 part sess :
  joinSession id user bodyRole nid w = (w2, json 200 (JoinedBody part sess)) →
  ∃ p, profile_of w2 user = Some p ∧
       gameSessions w2 !! id = Some sess ∧ status sess = ACTIVE ∧
       ¬ (maxPlayers sess ≤ currentPlayers sess ∧ default PLAYER bodyRole = PLAYER) ∧
       sessionParticipants w2 !! (id, up_id p) = Some part ∧ leftAt part = None.
Proof.
  intros Hj.
  destruct (resolveProfile user nid w) as [w1 [p| |r]] eqn:Hres.
  - rewrite (joinSession_resolved _ _ _ _ _ _ _ Hres) in Hj.
    apply resolveProfile_Value in Hres. exists p.
    revert Hj. unfold join_after_profile, profile_of in *. unfold_ops.
    intros Hj. repeat case_match; simplify_eq/=.
    rewrite lookup_insert_eq.
    split_and!; try done. by apply dec_stable.
  - revert Hj. unfold joinSession, try_catch.
    unfold mbind at 1, Handler_bind at 1, hbind at 1. by rewrite Hres.
  - by destruct (resolveProfile_no_Return _ _ _ _ _ Hres).
Qed.

(** ** Ending *)

Lemma mark_left_idem sid t t0 row :
  mark_left sid t (mark_left sid t0 row) = mark_left sid t0 row.
Proof.
  unfold mark_left. destruct (decide (sp_sessionId row = sid ∧ leftAt row = None)).
  - rewrite decide_False; [done | simpl; intros [_ ?]; done].
  - by rewrite decide_False.
Qed.

Lemma endSession_ok_inv id user w w1 :
  endSession id user w = (w1, ok) →
  ∃ s p, gameSessions w !! id = Some s ∧ profile_of w user = Some p ∧
         createdBy s = up_id p.
Proof.
  unfold endSession, profile_of. unfold_ops. intros Hr.
  destruct (gameSessions w !! id) as [s|] eqn:Hs; [|simplify_eq/=].
  destruct (find_row _ (userProfiles w)) as [p|] eqn:Hp.
  - destruct (decide (Some (createdBy s) ≠ up_id <$> Some p)) as [|Heq];
      [simplify_eq/=|].
    exists s, p. split_and!; try done. apply dec_stable in Heq. by simplify_eq/=.
  - rewrite decide_True in Hr by done. simplify_eq/=.
Qed.

Lemma endSession_as_host id user w s p :
  gameSessions w !! id = Some s →
  profile_of w user = Some p →
  createdBy s = up_id p →
  endSession id user w = (after_end id s w, ok).
Proof.
  intros Hs Hp Hhost. unfold endSession, profile_of in *. unfold_ops.
  rewrite Hs, Hp. rewrite decide_False by (simpl; rewrite Hhost; auto).
  cbn. rewrite Hs. cbn. rewrite lookup_insert_eq. cbn.
  unfold after_end, log_effect, log_write, set_gameSessions; cbn.
  by rewrite insert_insert_eq.
Qed.

(** ** Creating, and the unique index on the code *)

Lemma createSession_resolved user b pid sid random w :
  createSession user b pid sid random w =
  match resolveProfile user pid w with
  | (w1, Value p) =>
      try_catch (create_after_profile b sid (generateSessionCode random) p)
        "Failed to create session" w1
  | (w1, Throw) => (w1, err 500 "Failed to create session")
  | (w1, Return r) => (w1, r)
  end.
Proof.
  unfold createSession, try_catch.
  unfold mbind at 1, Handler_bind at 1, hbind at 1.
  by destruct (resolveProfile user pid w) as [w1 [p| |r]].
Qed.

Lemma unique_codes_insert_fresh m id row c :
  unique_codes m → sessionCode row = Some c →
  find_row (λ s, sessionCode s = Some c) m = None →
  unique_codes (<[id:=row]> m).
Proof.
  intros Hu Hc Hfree i j s t c' Hi Hj Hs Ht.
  destruct (decide (i = id)) as [->|Hi']; destruct (decide (j = id)) as [->|Hj'];
    [done| | |].
  - rewrite lookup_insert_eq in Hi. rewrite lookup_insert_ne in Hj by done.
    simplify_eq. destruct (find_row_None _ _ Hfree j t Hj). congruence.
  - rewrite lookup_insert_eq in Hj. rewrite lookup_insert_ne in Hi by done.
    simplify_eq. destruct (find_row_None _ _ Hfree i s Hi). congruence.
  - rewrite lookup_insert_ne in Hi, Hj by done. eauto.
Qed.

Lemma unique_codes_update m id s s' :
  unique_codes m → m !! id = Some s → sessionCode s' = sessionCode s →
  unique_codes (<[id:=s']> m).
Proof.
  intros Hu Hid Hc i j a b c Hi Hj Ha Hb.
  destruct (decide (i = id)) as [->|Hi']; destruct (decide (j = id)) as [->|Hj'];
    [done| | |].
  - rewrite lookup_insert_eq in Hi. rewrite lookup_insert_ne in Hj by done.
    simplify_eq. apply (Hu id j s b c); congruence.
  - rewrite lookup_insert_eq in Hj. rewrite lookup_insert_ne in Hi by done.
    simplify_eq. apply (Hu i id a s c); congruence.
  - rewrite lookup_insert_ne in Hi, Hj by done. eauto.
Qed.

Lemma endSession_unique_codes id user w :
  unique_codes (gameSessions w) →
  unique_codes (gameSessions (endSession id user w).1).
Proof.
  intros Hu. unfold endSession. unfold_ops.
  repeat (run_step; try done).
  rewrite insert_insert_eq. by eapply unique_codes_update.
Qed.

Lemma create_after_profile_unique_codes b sid c p w :
  unique_codes (gameSessions w) →
  unique_codes (gameSessions
    (try_catch (create_after_profile b sid c p) "Failed to create session" w).1).
Proof.
  intros Hu. unfold create_after_profile. unfold_ops.
  repeat (run_step; try done).
  all: rewrite ?insert_insert_eq;
    eapply unique_codes_insert_fresh; [done|reflexivity|done].
Qed.

Lemma create_after_profile_collision b sid c p w x :
  find_row (λ s, sessionCode s = Some c) (gameSessions w) = Some x →
  gameSessions (try_catch (create_after_profile b sid c p)
                  "Failed to create session" w).1 = gameSessions w ∧
  code (try_catch (create_after_profile b sid c p)
          "Failed to create session" w).2 ≠ 201.
Proof.
  intros Hx. unfold create_after_profile. unfold_ops.
  repeat (run_step; try done).
Qed.

Lemma createSession_unique_codes user b pid sid random w :
  unique_codes (gameSessions w) →
  unique_codes (gameSessions (createSession user b pid sid random w).1).
Proof.
  intros Hu. rewrite createSession_resolved.
  destruct (resolveProfile user pid w) as [w1 o] eqn:Hres.
  destruct (resolveProfile_tables _ _ _ _ _ Hres) as (Hgs & _ & _).
  rewrite <- Hgs in Hu. destruct o; [|done..].
  by apply create_after_profile_unique_codes.
Qed.

Lemma handle_unique_codes r w :
  unique_codes (gameSessions w) → unique_codes (gameSessions (handle r w)).
Proof.
  intros Hu. destruct r; cbn.
  - by rewrite createGame_gameSessions.
  - by apply createSession_unique_codes.
  - by rewrite joinSession_gameSessions.
  - by rewrite leaveSession_gameSessions.
  - by apply endSession_unique_codes.
  - by rewrite send_message_gameSessions.
  - done.
Qed.

(** * The claims *)

(** ** C1: player counter under join and leave *)

(** C1, as stated, fails. The host leaves the fresh session, so that no
    player is present and the counter, 0, equals the number of present
    players; Ann then joins as a player and is accepted, after which one
    player is present and the counter is still 0. *)
Lemma current_players_not_incremented :
  let before := Scenario.w_host_left in
  let r := joinSession "s1" Scenario.ann (Some PLAYER) "u-a"
             (set_now 1000 before) in
  (currentPlayers <$> gameSessions before !! "s1" = Some 0 ∧
   present_count before "s1" PLAYER = 0%nat) ∧
  code r.2 = 200 ∧
  currentPlayers <$> gameSessions r.1 !! "s1" = Some 0 ∧
  present_count r.1 "s1" PLAYER = 1%nat.
Proof. vm_compute. repeat split; reflexivity. Qed.

(** C1 (amended). Joining and leaving never write the session table: over
    any sequence of join and leave requests (with time passing in
    between), from any state, the session table is the same; every session
    keeps its [current_players], [spectator_count] and [max_players]; so a
    counter that is within [max_players] stays within it. The counter does
    not follow the number of present players. *)
Theorem join_leave_counters_unchanged rs w :
  Forall join_leave_only rs →
  gameSessions (run rs w) = gameSessions w ∧
  (∀ id s, gameSessions w !! id = Some s →
     ∃ s', gameSessions (run rs w) !! id = Some s' ∧
       currentPlayers s' = currentPlayers s ∧
       spectatorCount s' = spectatorCount s ∧
       maxPlayers s' = maxPlayers s) ∧
  ((∀ id s, gameSessions w !! id = Some s →
            currentPlayers s ≤ maxPlayers s) →
   ∀ id s, gameSessions (run rs w) !! id = Some s →
           currentPlayers s ≤ maxPlayers s).
Proof.
  intros Hrs.
  assert (Heq : gameSessions (run rs w) = gameSessions w).
  { revert w. induction Hrs as [|r rs Hr _ IH]; intros w; [done|].
    cbn. rewrite IH. destruct r; try done; cbn.
    - apply joinSession_gameSessions.
    - apply leaveSession_gameSessions. }
  split; [done|]. rewrite Heq. split; [|done].
  intros id s Hs. by exists s.
Qed.

Lemma join_leave_counters_unchanged_witness :
  gameSessions
    (run [POST_sessions_join "s1" Scenario.ann None "u-a"; Clock 5000;
          DELETE_sessions_leave "s1" Scenario.ann] Scenario.w_created)
  = gameSessions Scenario.w_created.
Proof.
  apply (join_leave_counters_unchanged
           [POST_sessions_join "s1" Scenario.ann None "u-a"; Clock 5000;
            DELETE_sessions_leave "s1" Scenario.ann] Scenario.w_created).
  repeat constructor.
Defined.

(** ** C2: requests on an ended session *)

(** C2, as stated, fails. On the session the host has ended, a second end
    request of the host is answered 200 and not with an error, the
    recorded end time moves from the first request to the second, and a
    leave request of a participant is answered 200 as well and moves the
    participant's [left_at]. *)
Lemma endSession_twice_succeeds :
  let w := set_now 4000000 Scenario.w_ended in
  status <$> gameSessions w !! "s1" = Some ENDED ∧
  endedAt <$> gameSessions w !! "s1" = Some (Some 3600000) ∧
  (endSession "s1" Scenario.host w).2 = ok ∧
  endedAt <$> gameSessions (endSession "s1" Scenario.host w).1 !! "s1"
  = Some (Some 4000000) ∧
  (leaveSession "s1" Scenario.ann w).2 = ok ∧
  leftAt <$> sessionParticipants (leaveSession "s1" Scenario.ann w).1
               !! ("s1", "u-a")
  = Some (Some 4000000).
Proof. vm_compute. repeat split; reflexivity. Qed.

(** C2 (amended). When an end request has succeeded, a second end request
    of the same caller, at any later time, succeeds again: it leaves every
    participant row as it is (no [left_at] and no duration is touched a
    second time), writes no history row, and leaves the session [ENDED],
    with the end time of the second request. Of the mutating requests only
    the join is refused on a session in a terminal status ([ENDED] or
    [ERROR]), whoever calls: it is answered 404 when the caller's profile
    is found or can be created, and 500 when the caller has no profile and
    none can be created (the generated id or the user name is taken); it
    writes nothing beyond the caller's profile. *)
Theorem endSession_twice_join_terminal id user w :
  (∀ w1 t, endSession id user w = (w1, ok) →
     ∃ w2, endSession id user (set_now t w1) = (w2, ok) ∧
       sessionParticipants w2 = sessionParticipants w1 ∧
       sessionHistory w2 = sessionHistory w1 ∧
       ∃ s2, gameSessions w2 !! id = Some s2 ∧ status s2 = ENDED ∧
             endedAt s2 = Some t) ∧
  (∀ s bodyRole nid,
     gameSessions w !! id = Some s →
     status s = ENDED ∨ status s = ERROR →
     let r := joinSession id user bodyRole nid w in
     gameSessions r.1 = gameSessions w ∧
     sessionParticipants r.1 = sessionParticipants w ∧
     ((∃ p, resolveProfile user nid w = (r.1, Value p) ∧
            r.2 = err 404 "Session not found or not active") ∨
      (profile_of w user = None ∧ resolveProfile user nid w = (w, Throw) ∧
       r = (w, err 500 "Failed to join session")))).
Proof.
  split.
  - intros w1 t Hend.
    destruct (endSession_ok_inv _ _ _ _ Hend) as (s & p & Hs & Hp & Hhost).
    rewrite (endSession_as_host _ _ _ _ _ Hs Hp Hhost) in Hend.
    injection Hend as <-.
    eexists. split.
    { apply endSession_as_host with (p := p)
        (s := with_status ENDED None (with_status ENDING (Some (now w)) s)).
      - cbn. by rewrite lookup_insert_eq.
      - exact Hp.
      - exact Hhost. }
    cbn. split_and!.
    + rewrite <- map_fmap_compose. apply map_fmap_ext. intros k row _.
      apply mark_left_idem.
    + done.
    + eexists. rewrite lookup_insert_eq. done.
  - intros s bodyRole nid Hs Hst.
    destruct (resolveProfile user nid w) as [w1 [p| |r0]] eqn:Hres.
    + destruct (resolveProfile_tables _ _ _ _ _ Hres) as (Hgs & Hsp & _).
      assert (Hjoin : joinSession id user bodyRole nid w
                      = (w1, err 404 "Session not found or not active")).
      { rewrite (joinSession_resolved _ _ _ _ _ _ _ Hres).
        unfold join_after_profile. unfold_ops. rewrite Hgs, Hs.
        rewrite decide_True; [done|]. destruct Hst as [-> | ->]; done. }
      rewrite Hjoin. cbn. split_and!; [done..|]. left. by exists p.
    + destruct (resolveProfile_Throw _ _ _ _ Hres) as [-> Hnone].
      assert (Hjoin : joinSession id user bodyRole nid w
                      = (w, err 500 "Failed to join session")).
      { unfold joinSession, try_catch.
        unfold mbind at 1, Handler_bind at 1, hbind at 1. by rewrite Hres. }
      rewrite Hjoin. cbn. split_and!; [done..|]. by right.
    + by destruct (resolveProfile_no_Return _ _ _ _ _ Hres).
Qed.

Lemma endSession_twice_join_terminal_witness :
  (∃ w2, endSession "s1" Scenario.host (set_now 4000000 Scenario.w_ended)
         = (w2, ok) ∧
         sessionParticipants w2 = sessionParticipants Scenario.w_ended) ∧
  (joinSession "s1" Scenario.ann None "u-a2" Scenario.w_ended).2
  = err 404 "Session not found or not active" ∧
  joinSession "s1" Scenario.hana_again None "u-x" Scenario.w_ended
  = (Scenario.w_ended, err 500 "Failed to join session").
Proof.
  destruct (endSession_twice_join_terminal "s1" Scenario.host
              (set_now 3600000 Scenario.w_joined)) as [Htwice _].
  destruct (endSession_twice_join_terminal "s1" Scenario.ann
              Scenario.w_ended) as [_ Hann].
  destruct (endSession_twice_join_terminal "s1" Scenario.hana_again
              Scenario.w_ended) as [_ Hagain].
  split; [|split].
  - destruct (Htwice Scenario.w_ended 4000000) as (w2 & Hw2 & Hrows & _).
    + vm_compute. reflexivity.
    + exists w2. split; assumption.
  - edestruct Hann with (bodyRole := @None ParticipantRole) (nid := "u-a2")
      as (_ & _ & [(p & _ & H404)|(Hnone & _)]).
    + vm_compute. reflexivity.
    + left. vm_compute. reflexivity.
    + exact H404.
    + vm_compute in Hnone. discriminate.
  - edestruct Hagain with (bodyRole := @None ParticipantRole) (nid := "u-x")
      as (_ & _ & [(p & Hp & _)|(_ & _ & H500)]).
    + vm_compute. reflexivity.
    + left. vm_compute. reflexivity.
    + vm_compute in Hp. discriminate.
    + exact H500.
Defined.

(** ** C3: how a join is refused *)

(** C3, as stated, fails. A join of a session that does not exist and a
    join of a session that exists and has ended get the very same answer,
    404 with the one message for both; there is no separate error for a
    session that is not active. *)
Lemma joinSession_absent_and_ended_same_error :
  gameSessions Scenario.w_ended !! "s0" = None ∧
  status <$> gameSessions Scenario.w_ended !! "s1" = Some ENDED ∧
  (joinSession "s0" Scenario.ann None "u-a2" Scenario.w_ended).2
  = err 404 "Session not found or not active" ∧
  (joinSession "s1" Scenario.ann None "u-a2" Scenario.w_ended).2
  = err 404 "Session not found or not active".
Proof. vm_compute. repeat split; reflexivity. Qed.

(** C3 (amended). With the caller's profile found or created, a join is
    answered: 404 "Session not found or not active" when the session does
    not exist, and the same 404 when it exists with a status other than
    active; 400 "Session is full" when it is active, the role is player
    and the player counter is at or above the maximum; 400 "Already in
    this session" when it is active, not full for that role, and the
    caller has a row with [left_at] null. A caller whose join was accepted
    and who joins again with the same role, at any later time and without
    leaving, gets "Already in this session". *)
Theorem joinSession_failures id user bodyRole nid w w1 p :
  resolveProfile user nid w = (w1, Value p) →
  (gameSessions w !! id = None →
     joinSession id user bodyRole nid w
     = (w1, err 404 "Session not found or not active")) ∧
  (∀ s, gameSessions w !! id = Some s → status s ≠ ACTIVE →
     joinSession id user bodyRole nid w
     = (w1, err 404 "Session not found or not active")) ∧
  (∀ s, gameSessions w !! id = Some s → status s = ACTIVE →
     default PLAYER bodyRole = PLAYER → maxPlayers s ≤ currentPlayers s →
     joinSession id user bodyRole nid w = (w1, err 400 "Session is full")) ∧
  (∀ s row, gameSessions w !! id = Some s → status s = ACTIVE →
     ¬ (maxPlayers s ≤ currentPlayers s ∧ default PLAYER bodyRole = PLAYER) →
     sessionParticipants w !! (id, up_id p) = Some row → leftAt row = None →
     joinSession id user bodyRole nid w
     = (w1, err 400 "Already in this session")) ∧
  (∀ w2 part sess t nid',
     joinSession id user bodyRole nid w = (w2, json 200 (JoinedBody part sess)) →
     joinSession id user bodyRole nid' (set_now t w2)
     = (set_now t w2, err 400 "Already in this session")).
Proof.
  intros Hres.
  destruct (resolveProfile_tables _ _ _ _ _ Hres) as (Hgs & Hsp & Hnow).
  rewrite (joinSession_resolved _ _ _ _ _ _ _ Hres).
  unfold join_after_profile. unfold_ops. rewrite Hgs. split_and!.
  - by intros ->.
  - intros s -> Hst. by rewrite decide_True.
  - intros s -> Hst Hr Hfull. rewrite decide_False by (by intros []).
    by rewrite decide_True.
  - intros s row -> Hst Hnf Hrow Hleft. rewrite decide_False by (by intros []).
    rewrite decide_False by done. rewrite Hsp, Hrow. cbn.
    by rewrite bool_decide_eq_true_2.
  - intros w2 part sess t nid' Hj.
    assert (Hj' : joinSession id user bodyRole nid w
                  = (w2, json 200 (JoinedBody part sess))).
    { rewrite (joinSession_resolved _ _ _ _ _ _ _ Hres).
      unfold join_after_profile. unfold_ops. by rewrite Hgs. }
    clear Hj.
    apply joinSession_ok_inv in Hj' as (q & Hq & Hs & Hst & Hnf & Hrow & Hleft).
    rewrite (joinSession_resolved id user bodyRole nid'
               (set_now t w2) (set_now t w2) q)
      by (by apply profile_of_resolve).
    unfold join_after_profile. unfold_ops. cbn. rewrite Hs.
    rewrite decide_False by (by intros []).
    rewrite decide_False by done. cbn. rewrite Hrow. cbn.
    by rewrite bool_decide_eq_true_2.
Qed.

Lemma joinSession_failures_witness :
  joinSession "s0" Scenario.ann (Some PLAYER) "u-a" Scenario.w_created
  = ((resolveProfile Scenario.ann "u-a" Scenario.w_created).1,
     err 404 "Session not found or not active") ∧
  joinSession "s1" Scenario.ann (Some PLAYER) "u-a2"
    (set_now 2000 Scenario.w_joined)
  = (set_now 2000 Scenario.w_joined, err 400 "Already in this session").
Proof.
  destruct (joinSession_failures "s0" Scenario.ann (Some PLAYER) "u-a"
              Scenario.w_created
              (resolveProfile Scenario.ann "u-a" Scenario.w_created).1
              {| up_id := "u-a"; platiumUserId := "ext-a";
                 username := "user_0"; displayName := Some "Ann" |})
    as (Habsent & _).
  { vm_compute. reflexivity. }
  destruct (joinSession_failures "s1" Scenario.ann (Some PLAYER) "u-a"
              (set_now 1000 Scenario.w_created)
              (resolveProfile Scenario.ann "u-a"
                 (set_now 1000 Scenario.w_created)).1
              {| up_id := "u-a"; platiumUserId := "ext-a";
                 username := "user_1000"; displayName := Some "Ann" |})
    as (_ & _ & _ & _ & Htwice).
  { vm_compute. reflexivity. }
  split.
  - apply Habsent. vm_compute. reflexivity.
  - eapply (Htwice Scenario.w_joined). vm_compute. reflexivity.
Defined.

(** ** C4: what ending a session writes *)

(** C4, as stated, fails. The host ends the session one hour after its
    creation, with Ann present since the first second: both rows get their
    [left_at], but their accumulated duration stays 0, and the history
    table stays empty. *)
Lemma endSession_no_history_no_duration :
  (endSession "s1" Scenario.host (set_now 3600000 Scenario.w_joined)).2 = ok ∧
  sessionParticipants Scenario.w_ended !! ("s1", "u-h")
  = Some {| sp_sessionId := "s1"; sp_userId := "u-h"; role := PLAYER;
            isHost := true; joinedAt := 0; leftAt := Some 3600000;
            totalDurationMinutes := 0 |} ∧
  sessionParticipants Scenario.w_ended !! ("s1", "u-a")
  = Some {| sp_sessionId := "s1"; sp_userId := "u-a"; role := PLAYER;
            isHost := false; joinedAt := 1000; leftAt := Some 3600000;
            totalDurationMinutes := 0 |} ∧
  sessionHistory Scenario.w_ended = [].
Proof. vm_compute. repeat split; reflexivity. Qed.

(** C4 (amended). When the caller is the host of an existing session, the
    end request is answered 200 and commits exactly three writes: the
    status [ENDING] with the end time, the [left_at] of the present
    participants, the status [ENDED]. The session is then [ENDED]; every
    row of the session with [left_at] null has [left_at] set to the time of
    the request and every other row keeps its [left_at]; no row's
    accumulated duration changes; no history row is written;
    [session_ended] is sent to the session's room. *)
Theorem endSession_by_host id user w s p :
  gameSessions w !! id = Some s →
  profile_of w user = Some p →
  createdBy s = up_id p →
  ∃ w', endSession id user w = (w', ok) ∧
    writes w' = (writes w ++ [W_gameSession_update id ENDING;
                              W_sessionParticipant_updateMany id;
                              W_gameSession_update id ENDED])%list ∧
    (∃ s', gameSessions w' !! id = Some s' ∧ status s' = ENDED ∧
           endedAt s' = Some (now w)) ∧
    (∀ k row, sessionParticipants w !! k = Some row →
       ∃ row', sessionParticipants w' !! k = Some row' ∧
         totalDurationMinutes row' = totalDurationMinutes row ∧
         leftAt row' = (if decide (sp_sessionId row = id ∧ leftAt row = None)
                        then Some (now w) else leftAt row)) ∧
    sessionHistory w' = sessionHistory w ∧
    effects w' = (effects w ++ [IoTo ("session:" +:+ id) session_ended])%list.
Proof.
  intros Hs Hp Hhost. exists (after_end id s w).
  split; [by apply endSession_as_host with p|]. cbn. split_and!.
  - by rewrite <- !app_assoc.
  - eexists. rewrite lookup_insert_eq. done.
  - intros k row Hk. exists (mark_left id (now w) row).
    rewrite lookup_fmap, Hk. split; [done|]. unfold mark_left.
    by destruct (decide _).
  - done.
  - done.
Qed.

Lemma endSession_by_host_witness :
  ∃ w', endSession "s1" Scenario.host (set_now 3600000 Scenario.w_joined)
        = (w', ok) ∧
        sessionHistory w' = sessionHistory (set_now 3600000 Scenario.w_joined).
Proof.
  destruct (endSession_by_host "s1" Scenario.host
              (set_now 3600000 Scenario.w_joined)
              {| gs_id := "s1"; gameId := "g1"; createdBy := "u-h";
                 sessionCode := Some "AEJQUZ"; status := ACTIVE;
                 sessionType := SINGLE; isPrivate := false; maxPlayers := 2;
                 currentPlayers := 0; spectatorCount := 0;
                 videoQuality := Q1080p; fps := 60; startedAt := 0;
                 endedAt := None; lastActivityAt := 0;
                 durationMinutes := None |}
              {| up_id := "u-h"; platiumUserId := "ext-h";
                 username := "hana"; displayName := Some "hana" |})
    as (w' & Hend & _ & _ & _ & Hhist & _).
  - vm_compute. reflexivity.
  - vm_compute. reflexivity.
  - reflexivity.
  - exists w'. split; assumption.
Defined.

(** ** C5: allocation of the join code *)

(** C5, as stated, fails. The session s1 holds the code AEJQUZ. Ann creates
    a session with a random stream whose first six draws give AEJQUZ again
    and whose next six draws would give the free code CGNSW3: the request
    is answered 500 at once and no session is stored; the later draws are
    never read. *)
Lemma createSession_collision_no_retry :
  let r := createSession Scenario.ann Scenario.two_players "u-a" "s2"
             Scenario.colliding_draws Scenario.w_created in
  sessionCode <$> gameSessions Scenario.w_created !! "s1"
  = Some (Some "AEJQUZ") ∧
  generateSessionCode Scenario.colliding_draws = "AEJQUZ" ∧
  generateSessionCode (λ i, Scenario.colliding_draws (6 + i)) = "CGNSW3" ∧
  r.2 = err 500 "Failed to create session" ∧
  gameSessions r.1 !! "s2" = None.
Proof. vm_compute. repeat split; reflexivity. Qed.

(** C5 (amended). The code is drawn once and there is no retry: when the
    drawn code is held by a session, the creation fails (the answer is not
    201) and the session table is left as it was. Since a session is only
    ever stored with a code that no session holds, and no request changes
    the code of a stored session, the join codes of any two distinct
    sessions differ after any sequence of requests. *)
Theorem join_codes_unique_no_retry w :
  codes_unique w →
  (∀ rs, codes_unique (run rs w)) ∧
  (∀ user b pid sid random,
     code_held (generateSessionCode random) w →
     gameSessions (createSession user b pid sid random w).1 = gameSessions w ∧
     code (createSession user b pid sid random w).2 ≠ 201).
Proof.
  unfold codes_unique. intros Hu. split.
  - intros rs. revert w Hu. induction rs as [|r rs IH]; intros w Hu; [done|].
    cbn. apply IH. by apply handle_unique_codes.
  - intros user b pid sid random (i & s & Hi & Hc).
    rewrite createSession_resolved.
    destruct (resolveProfile user pid w) as [w1 o] eqn:Hres.
    destruct (resolveProfile_tables _ _ _ _ _ Hres) as (Hgs & _ & _).
    destruct o as [p| |r]; cbn;
      [|done|by destruct (resolveProfile_no_Return _ _ _ _ _ Hres)].
    destruct (find_row (λ s, sessionCode s = Some (generateSessionCode random))
                (gameSessions w1)) as [x|] eqn:Hx.
    + rewrite <- Hgs. by eapply create_after_profile_collision.
    + rewrite Hgs in Hx. by destruct (find_row_None _ _ Hx i s Hi).
Qed.

Lemma join_codes_unique_no_retry_witness :
  codes_unique
    (run [POST_games "g1" "mario-party-7";
          POST_sessions Scenario.host Scenario.two_players "u-h" "s1"
            Scenario.draws;
          POST_sessions Scenario.ann Scenario.two_players "u-a" "s2"
            Scenario.colliding_draws] emptyWorld).
Proof.
  destruct (join_codes_unique_no_retry emptyWorld) as [Hrun _].
  - intros i j s t c Hi. cbn in Hi. rewrite lookup_empty in Hi.
    discriminate Hi.
  - apply Hrun.
Defined.

(** ** C6: shape of a join code *)

(** C6, as stated, fails: the alphabet of the join codes does not have 32
    symbols. *)
Lemma chars_not_32_symbols : String.length chars ≠ 32%nat.
Proof. discriminate. Qed.

(** C6 (amended). Whatever [Math.random()] returns in [0, 1), the join code
    has exactly 6 characters, each of them a symbol of the alphabet; the
    alphabet has 31 pairwise distinct symbols and none of them is one of
    the ambiguous 0, O, 1, I, L. *)
Theorem generateSessionCode_alphabet (random : nat → Double) :
  (∀ i, (i < 6)%nat →
        (0 <= d_value (random i))%Q ∧ (d_value (random i) < 1)%Q) →
  String.length (generateSessionCode random) = 6%nat ∧
  (∀ c, c ∈ String.list_ascii_of_string (generateSessionCode random) →
        c ∈ String.list_ascii_of_string chars) ∧
  String.length chars = 31%nat ∧
  NoDup (String.list_ascii_of_string chars) ∧
  (∀ c, c ∈ ["0"; "O"; "1"; "I"; "L"]%char →
        c ∉ String.list_ascii_of_string chars).
Proof.
  intros Hr.
  destruct (fold_append_char random (seq 0 6) "") as [Hlen Hin].
  { apply Forall_forall. intros i Hi%elem_of_seq. apply Hr. lia. }
  split; [exact Hlen|]. split.
  { intros c Hc. destruct (Hin c Hc) as [Hnil|]; [|done].
    by apply not_elem_of_nil in Hnil. }
  split; [reflexivity|]. split.
  { apply (bool_decide_unpack _). vm_compute. exact I. }
  intros c Hc.
  repeat (apply elem_of_cons in Hc as [->|Hc];
          [apply (bool_decide_unpack _); vm_compute; exact I|]).
  by apply not_elem_of_nil in Hc.
Qed.

Lemma generateSessionCode_alphabet_witness :
  generateSessionCode Scenario.draws = "AEJQUZ" ∧
  String.length (generateSessionCode Scenario.draws) = 6%nat.
Proof.
  split; [reflexivity|].
  apply (generateSessionCode_alphabet Scenario.draws).
  intros i Hi.
  do 6 (destruct i as [|i]; [split; [discriminate | reflexivity]|]). lia.
Defined.

(** ** C7: leaving *)

(** C7, as stated, fails. Ann leaves at 5000 and leaves again at 6000: the
    second request is answered 200, not 404, and moves her [left_at] from
    5000 to 6000. The host, who has a profile but no row in a session s0,
    gets 500 and not 404 when leaving s0. A successful leave changes neither
    the duration of the row nor a counter of the session. *)
Lemma leaveSession_twice_succeeds :
  let r := leaveSession "s1" Scenario.ann (set_now 6000 Scenario.w_left) in
  leftAt <$> sessionParticipants Scenario.w_left !! ("s1", "u-a")
  = Some (Some 5000) ∧
  r.2 = ok ∧
  leftAt <$> sessionParticipants r.1 !! ("s1", "u-a") = Some (Some 6000) ∧
  totalDurationMinutes <$> sessionParticipants r.1 !! ("s1", "u-a") = Some 0 ∧
  gameSessions r.1 = gameSessions Scenario.w_joined ∧
  (leaveSession "s0" Scenario.host Scenario.w_left).2
  = err 500 "Failed to leave session".
Proof. vm_compute. repeat split; reflexivity. Qed.

(** C7 (amended). A leave is answered 404 only when the caller has no
    profile, and then writes nothing; 500 when the caller has a profile
    but no row in the session, and then writes nothing; and 200 whenever
    the caller has a row in the session, whether its [left_at] is null or
    not: the row then gets the time of the request as [left_at] and keeps
    its role, join time and accumulated duration, no other row and no
    session changes, and [user_left] is sent to the session's room. *)
Theorem leaveSession_cases id user w :
  (profile_of w user = None →
     leaveSession id user w = (w, err 404 "User profile not found")) ∧
  (∀ p, profile_of w user = Some p →
        sessionParticipants w !! (id, up_id p) = None →
        leaveSession id user w = (w, err 500 "Failed to leave session")) ∧
  (∀ p row, profile_of w user = Some p →
        sessionParticipants w !! (id, up_id p) = Some row →
        ∃ w' row', leaveSession id user w = (w', ok) ∧
          sessionParticipants w' !! (id, up_id p) = Some row' ∧
          leftAt row' = Some (now w) ∧
          totalDurationMinutes row' = totalDurationMinutes row ∧
          role row' = role row ∧ joinedAt row' = joinedAt row ∧
          (∀ k, k ≠ (id, up_id p) →
                sessionParticipants w' !! k = sessionParticipants w !! k) ∧
          gameSessions w' = gameSessions w ∧
          sessionHistory w' = sessionHistory w ∧
          effects w'
          = (effects w ++ [IoTo ("session:" +:+ id) (user_left (up_id p))])%list).
Proof.
  unfold leaveSession, profile_of. unfold_ops. split; [|split].
  - by intros ->.
  - intros p -> Hrow. by rewrite Hrow.
  - intros p row -> Hrow. rewrite Hrow.
    eexists _, (with_leftAt (now w) row). split; [reflexivity|]. cbn.
    rewrite lookup_insert_eq. split_and!; try done.
    intros k Hk. by rewrite lookup_insert_ne.
Qed.

Lemma leaveSession_cases_witness :
  leaveSession "s1" Scenario.ann Scenario.w_game
  = (Scenario.w_game, err 404 "User profile not found") ∧
  leaveSession "s0" Scenario.host Scenario.w_left
  = (Scenario.w_left, err 500 "Failed to leave session") ∧
  ∃ w', leaveSession "s1" Scenario.ann (set_now 6000 Scenario.w_left)
        = (w', ok).
Proof.
  destruct (leaveSession_cases "s1" Scenario.ann Scenario.w_game)
    as (Hnone & _).
  destruct (leaveSession_cases "s0" Scenario.host Scenario.w_left)
    as (_ & Hrow & _).
  destruct (leaveSession_cases "s1" Scenario.ann
              (set_now 6000 Scenario.w_left)) as (_ & _ & Hleft).
  split; [|split].
  - apply Hnone. vm_compute. reflexivity.
  - eapply Hrow; vm_compute; reflexivity.
  - edestruct Hleft as (w' & row' & Hw' & _).
    + vm_compute. reflexivity.
    + vm_compute. reflexivity.
    + exists w'. exact Hw'.
Defined.

(** ** C8: joining again after leaving *)

(** A join by a caller whose row in the session has [left_at] set passes
    the "already in this session" test and then inserts a row under the
    key of the existing one, which the primary key of the table refuses. *)
Lemma joinSession_after_leave_throws id user bodyRole nid w w1 p s row t :
  resolveProfile user nid w = (w1, Value p) →
  gameSessions w !! id = Some s → status s = ACTIVE →
  ¬ (maxPlayers s ≤ currentPlayers s ∧ default PLAYER bodyRole = PLAYER) →
  sessionParticipants w !! (id, up_id p) = Some row → leftAt row = Some t →
  joinSession id user bodyRole nid w = (w1, err 500 "Failed to join session").
Proof.
  intros Hres Hs Hst Hnf Hrow Hleft.
  destruct (resolveProfile_tables _ _ _ _ _ Hres) as (Hgs & Hsp & Hnow).
  rewrite (joinSession_resolved _ _ _ _ _ _ _ Hres).
  unfold join_after_profile. unfold_ops. rewrite Hgs, Hs.
  rewrite decide_False by (by intros []).
  rewrite decide_False by done. rewrite Hsp, Hrow. cbn.
  rewrite bool_decide_eq_false_2 by (by rewrite Hleft). by rewrite Hsp, Hrow.
Qed.

(** C8 (the code at the failing input). The session s1 is active with 0 of
    2 players counted; Ann joined it at 1000 and left at 5000. Her join at
    7000 is answered 500 "Failed to join session", and her row keeps
    [left_at] = 5000: she is not present again. *)
Theorem rejoin_after_leave_fails :
  let r := joinSession "s1" Scenario.ann (Some PLAYER) "u-a2"
             (set_now 7000 Scenario.w_left) in
  status <$> gameSessions Scenario.w_left !! "s1" = Some ACTIVE ∧
  leftAt <$> sessionParticipants Scenario.w_left !! ("s1", "u-a")
  = Some (Some 5000) ∧
  r.2 = err 500 "Failed to join session" ∧
  leftAt <$> sessionParticipants r.1 !! ("s1", "u-a") = Some (Some 5000).
Proof. vm_compute. repeat split; reflexivity. Qed.

(** ** C9: ending is for the host *)

(** C9. An end request for an existing session by a caller who is not its
    creator (a caller without a profile included) is answered 403 and
    leaves the whole world as it was: the status of the session, every
    participant row, everything sent. *)
Theorem endSession_not_host id user w s :
  gameSessions w !! id = Some s →
  Some (createdBy s) ≠ up_id <$> profile_of w user →
  endSession id user w = (w, err 403 "Only the host can end the session").
Proof.
  intros Hs Hne. unfold endSession, profile_of in *. unfold_ops.
  rewrite Hs. by rewrite decide_True.
Qed.

Lemma endSession_not_host_witness :
  endSession "s1" Scenario.ann Scenario.w_joined
  = (Scenario.w_joined, err 403 "Only the host can end the session").
Proof.
  apply (endSession_not_host "s1" Scenario.ann Scenario.w_joined
           {| gs_id := "s1"; gameId := "g1"; createdBy := "u-h";
              sessionCode := Some "AEJQUZ"; status := ACTIVE;
              sessionType := SINGLE; isPrivate := false; maxPlayers := 2;
              currentPlayers := 0; spectatorCount := 0;
              videoQuality := Q1080p; fps := 60; startedAt := 0;
              endedAt := None; lastActivityAt := 0;
              durationMinutes := None |}).
  - vm_compute. reflexivity.
  - vm_compute. discriminate.
Defined.

(** ** C10: chat from a connection that is not authenticated *)

(** C10. A [send_message] event on a socket with no user id leaves the
    world as it was: no chat row is stored, nothing is emitted to the room
    of the session and nothing to the sender. *)
Theorem send_message_unauthenticated socket sid msg ty nid w :
  socket_userId socket = None →
  send_message socket sid msg ty nid w = w.
Proof. intros Hu. unfold send_message. by rewrite Hu. Qed.

Lemma send_message_unauthenticated_witness :
  send_message {| socket_id := "k1"; socket_userId := None |} "s1" "hello"
    None "c1" Scenario.w_joined
  = Scenario.w_joined.
Proof.
  apply (send_message_unauthenticated
           {| socket_id := "k1"; socket_userId := None |}).
  reflexivity.
Defined.

(** For contrast: with a user id that is the id of a profile, the message
    is stored and sent to the room. *)
Example send_message_authenticated :
  let w := send_message {| socket_id := "k1"; socket_userId := Some "u-a" |}
             "s1" "hello" None "c1" (set_now 2000 Scenario.w_joined) in
  sessionChat w
  = [{| sc_id := "c1"; sc_sessionId := "s1"; sc_userId := "u-a";
        message := "hello"; sc_type := CHAT; sc_createdAt := 2000 |}] ∧
  last (effects w)
  = Some (IoTo "session:s1"
            (new_message
               {| sc_id := "c1"; sc_sessionId := "s1"; sc_userId := "u-a";
                  message := "hello"; sc_type := CHAT; sc_createdAt := 2000 |}
               (Some {| up_id := "u-a"; platiumUserId := "ext-a";
                        username := "user_1000"; displayName := Some "Ann" |}))).
Proof. vm_compute. split; reflexivity. Qed.

(** * Further properties of the server *)

(** ** What one request can do to a table *)

Lemma endSession_gameSessions_shape id user w :
  gameSessions (endSession id user w).1 = gameSessions w ∨
  ∃ s, gameSessions w !! id = Some s ∧
       gameSessions (endSession id user w).1
       = <[id := with_status ENDED None (with_status ENDING (Some (now w)) s)]>
           (gameSessions w).
Proof.
  unfold endSession. unfold_ops. repeat (run_step; auto).
  right. eexists. split; [done|]. by rewrite insert_insert_eq.
Qed.

Lemma createSession_gameSessions_shape user b pid sid random w :
  gameSessions (createSession user b pid sid random w).1 = gameSessions w ∨
  ∃ row, gameSessions w !! sid = None ∧
         gameSessions (createSession user b pid sid random w).1
         = <[sid := row]> (gameSessions w) ∧
         gs_id row = sid ∧ status row = ACTIVE ∧
         currentPlayers row = 0 ∧ spectatorCount row = 0.
Proof.
  rewrite createSession_resolved.
  destruct (resolveProfile user pid w) as [w1 o] eqn:Hres.
  destruct (resolveProfile_tables _ _ _ _ _ Hres) as (Hgs & _ & _).
  destruct o as [p| |r]; cbn; auto. rewrite <- Hgs.
  unfold create_after_profile. unfold_ops. repeat (run_step; auto).
  all: right; eexists; split; [done|]; rewrite insert_insert_eq; done.
Qed.

Lemma joinSession_participants_shape id user bodyRole nid w :
  sessionParticipants (joinSession id user bodyRole nid w).1
  = sessionParticipants w ∨
  ∃ k row, sessionParticipants w !! k = None ∧
         sessionParticipants (joinSession id user bodyRole nid w).1
         = <[k := row]> (sessionParticipants w).
Proof.
  destruct (resolveProfile user nid w) as [w1 o] eqn:Hres.
  destruct (resolveProfile_tables _ _ _ _ _ Hres) as (_ & Hsp & _).
  destruct o as [p| |r].
  - rewrite (joinSession_resolved _ _ _ _ _ _ _ Hres). rewrite <- Hsp.
    unfold join_after_profile. unfold_ops. repeat (run_step; auto).
    all: try (destruct (present _); cbn; auto).
    all: repeat (run_step; auto).
    all: right; eexists _, _; split; done.
  - unfold joinSession, try_catch.
    unfold mbind, Handler_bind, hbind. rewrite Hres. cbn. auto.
  - by destruct (resolveProfile_no_Return _ _ _ _ _ Hres).
Qed.

Lemma leaveSession_participants_shape id user w :
  sessionParticipants (leaveSession id user w).1 = sessionParticipants w ∨
  ∃ k p, sessionParticipants w !! k = Some p ∧
         sessionParticipants (leaveSession id user w).1
         = <[k := with_leftAt (now w) p]> (sessionParticipants w).
Proof.
  unfold leaveSession. unfold_ops. repeat (run_step; auto).
  right. eexists _, _. split; done.
Qed.

Lemma endSession_participants_shape id user w :
  sessionParticipants (endSession id user w).1 = sessionParticipants w ∨
  sessionParticipants (endSession id user w).1
  = mark_left id (now w) <$> sessionParticipants w.
Proof. unfold endSession. unfold_ops. repeat (run_step; auto). Qed.

Lemma createSession_participants_shape user b pid sid random w :
  sessionParticipants (createSession user b pid sid random w).1
  = sessionParticipants w ∨
  ∃ k row, sessionParticipants w !! k = None ∧
         sessionParticipants (createSession user b pid sid random w).1
         = <[k := row]> (sessionParticipants w).
Proof.
  rewrite createSession_resolved.
  destruct (resolveProfile user pid w) as [w1 o] eqn:Hres.
  destruct (resolveProfile_tables _ _ _ _ _ Hres) as (_ & Hsp & _).
  destruct o as [p| |r]; cbn; auto. rewrite <- Hsp.
  unfold create_after_profile. unfold_ops. repeat (run_step; auto).
  all: right; eexists _, _; split; done.
Qed.

Lemma createGame_frame nid sl w :
  sessionParticipants (createGame nid sl w).1 = sessionParticipants w ∧
  sessionChat (createGame nid sl w).1 = sessionChat w ∧
  sessionHistory (createGame nid sl w).1 = sessionHistory w ∧
  userProfiles (createGame nid sl w).1 = userProfiles w.
Proof. unfold createGame. unfold_ops. repeat (run_step; auto). Qed.

Lemma resolveProfile_frame user nid w w' o :
  resolveProfile user nid w = (w', o) →
  games w' = games w ∧ sessionChat w' = sessionChat w ∧
  sessionHistory w' = sessionHistory w.
Proof. unfold_ops. intros Hr. repeat case_match; simplify_eq/=; done. Qed.

Lemma createSession_frame user b pid sid random w :
  sessionChat (createSession user b pid sid random w).1 = sessionChat w ∧
  sessionHistory (createSession user b pid sid random w).1 = sessionHistory w.
Proof.
  rewrite createSession_resolved.
  destruct (resolveProfile user pid w) as [w1 o] eqn:Hres.
  destruct (resolveProfile_frame _ _ _ _ _ Hres) as (_ & Hc & Hh).
  destruct o as [p| |r]; cbn; auto. rewrite <- Hc, <- Hh.
  unfold create_after_profile. unfold_ops. repeat (run_step; auto).
Qed.

Lemma joinSession_unresolved id user bodyRole nid w w1 :
  resolveProfile user nid w = (w1, Throw) →
  joinSession id user bodyRole nid w = (w1, err 500 "Failed to join session").
Proof.
  intros Hres. unfold joinSession, try_catch.
  unfold mbind at 1, Handler_bind at 1, hbind at 1. by rewrite Hres.
Qed.

Lemma joinSession_frame id user bodyRole nid w :
  games (joinSession id user bodyRole nid w).1 = games w ∧
  sessionChat (joinSession id user bodyRole nid w).1 = sessionChat w ∧
  sessionHistory (joinSession id user bodyRole nid w).1 = sessionHistory w.
Proof.
  destruct (resolveProfile user nid w) as [w1 o] eqn:Hres.
  destruct (resolveProfile_frame _ _ _ _ _ Hres) as (Hg & Hc & Hh).
  destruct o as [p| |r].
  - rewrite (joinSession_resolved _ _ _ _ _ _ _ Hres).
    rewrite <- Hg, <- Hc, <- Hh.
    unfold join_after_profile. unfold_ops. repeat (run_step; try done).
    all: try (destruct (present _); cbn; try done).
    all: repeat (run_step; try done).
  - rewrite (joinSession_unresolved _ _ _ _ _ _ Hres). done.
  - by destruct (resolveProfile_no_Return _ _ _ _ _ Hres).
Qed.

Lemma leaveSession_frame id user w :
  userProfiles (leaveSession id user w).1 = userProfiles w ∧
  games (leaveSession id user w).1 = games w ∧
  sessionChat (leaveSession id user w).1 = sessionChat w ∧
  sessionHistory (leaveSession id user w).1 = sessionHistory w.
Proof. unfold leaveSession. unfold_ops. repeat (run_step; auto). Qed.

Lemma endSession_frame id user w :
  userProfiles (endSession id user w).1 = userProfiles w ∧
  games (endSession id user w).1 = games w ∧
  sessionChat (endSession id user w).1 = sessionChat w ∧
  sessionHistory (endSession id user w).1 = sessionHistory w.
Proof. unfold endSession. unfold_ops. repeat (run_step; auto). Qed.

Lemma send_message_frame socket sid msg ty nid w :
  userProfiles (send_message socket sid msg ty nid w) = userProfiles w ∧
  games (send_message socket sid msg ty nid w) = games w ∧
  sessionParticipants (send_message socket sid msg ty nid w)
  = sessionParticipants w ∧
  sessionHistory (send_message socket sid msg ty nid w) = sessionHistory w.
Proof.
  unfold send_message. destruct (truthy _); cbn; [|done].
  unfold_ops. repeat case_match; simplify_eq/=; done.
Qed.

(** ** Invariants of sequences of requests *)

Lemma run_invariant (R : World → World → Prop) :
  (∀ w, R w w) →
  (∀ w1 w2 w3, R w1 w2 → R w2 w3 → R w1 w3) →
  (∀ r w, R w (handle r w)) →
  ∀ rs w, R w (run rs w).
Proof.
  intros Hrefl Htrans Hstep rs. induction rs as [|r rs IH]; intros w; cbn.
  - apply Hrefl.
  - eapply Htrans; [apply Hstep | apply IH].
Qed.

Lemma session_kept_refl s : session_kept s s.
Proof. by repeat split. Qed.

Lemma session_kept_trans s1 s2 s3 :
  session_kept s1 s2 → session_kept s2 s3 → session_kept s1 s3.
Proof.
  unfold session_kept. intros (?&?&?&?&?&?&?&?&?) (?&?&?&?&?&?&?&?&?).
  split_and!; try congruence. auto.
Qed.

Lemma handle_session_kept r w id s :
  gameSessions w !! id = Some s →
  ∃ s', gameSessions (handle r w) !! id = Some s' ∧ session_kept s s'.
Proof.
  intros Hs.
  assert (Hsame : ∀ m, m = gameSessions w →
            ∃ s', m !! id = Some s' ∧ session_kept s s').
  { intros m ->. exists s. split; [done | apply session_kept_refl]. }
  destruct r; cbn.
  - apply Hsame, createGame_gameSessions.
  - destruct (createSession_gameSessions_shape user b newProfileId
                newSessionId random w) as [Heq | (row & Hfresh & Heq & _)].
    + by apply Hsame.
    + rewrite Heq. exists s. split; [|apply session_kept_refl].
      rewrite lookup_insert_ne; [done|]. intros ->. congruence.
  - apply Hsame, joinSession_gameSessions.
  - apply Hsame, leaveSession_gameSessions.
  - destruct (endSession_gameSessions_shape id0 user w)
      as [Heq | (s0 & Hs0 & Heq)].
    + by apply Hsame.
    + rewrite Heq. destruct (decide (id0 = id)) as [->|Hne].
      * rewrite lookup_insert_eq. eexists. split; [done|].
        simplify_eq. by repeat split.
      * rewrite lookup_insert_ne by done. exists s.
        split; [done | apply session_kept_refl].
  - apply Hsame, send_message_gameSessions.
  - by apply Hsame.
Qed.

Lemma run_session_kept rs w id s :
  gameSessions w !! id = Some s →
  ∃ s', gameSessions (run rs w) !! id = Some s' ∧ session_kept s s'.
Proof.
  revert s. revert w.
  apply (run_invariant (λ w w', ∀ s, gameSessions w !! id = Some s →
           ∃ s', gameSessions w' !! id = Some s' ∧ session_kept s s')).
  - intros w s Hs. exists s. split; [done | apply session_kept_refl].
  - intros w1 w2 w3 H12 H23 s Hs.
    destruct (H12 s Hs) as (s2 & Hs2 & Hk2).
    destruct (H23 s2 Hs2) as (s3 & Hs3 & Hk3).
    exists s3. split; [done|]. by eapply session_kept_trans.
  - intros r w s Hs. by apply handle_session_kept.
Qed.

(** X1. No sequence of requests (game creation, session creation, join,
    leave, end, chat message, clock tick) deletes a session or changes what
    identifies it: a session that is stored is still stored afterwards, with
    the same game, creator, join code, maximum and current number of players
    and spectator count; and a session that is ended stays ended. *)
Theorem sessions_persist rs w id s :
  gameSessions w !! id = Some s →
  ∃ s', gameSessions (run rs w) !! id = Some s' ∧
    gameId s' = gameId s ∧ createdBy s' = createdBy s ∧
    sessionCode s' = sessionCode s ∧ maxPlayers s' = maxPlayers s ∧
    currentPlayers s' = currentPlayers s ∧
    spectatorCount s' = spectatorCount s ∧
    (status s = ENDED → status s' = ENDED).
Proof.
  intros Hs. destruct (run_session_kept rs w id s Hs) as (s' & Hs' & Hk).
  exists s'. split; [exact Hs'|].
  destruct Hk as (_ & Hg & Hc & Hcode & Hmax & Hcur & Hspec & _ & Hst).
  by repeat split.
Qed.

Lemma sessions_persist_witness :
  ∃ s', gameSessions (run Live.requests Scenario.w_ended) !! "s1" = Some s' ∧
        sessionCode s' = Some "AEJQUZ" ∧ status s' = ENDED.
Proof.
  edestruct (sessions_persist Live.requests Scenario.w_ended "s1")
    as (s' & Hs' & _ & _ & Hcode & _ & _ & _ & Hst).
  - vm_compute. reflexivity.
  - exists s'. split; [exact Hs'|]. split; [exact Hcode|].
    apply Hst. reflexivity.
Defined.

Lemma joinSession_not_active id user bodyRole nid w s :
  gameSessions w !! id = Some s → status s ≠ ACTIVE →
  code (joinSession id user bodyRole nid w).2 ≠ 200 ∧
  sessionParticipants (joinSession id user bodyRole nid w).1
  = sessionParticipants w.
Proof.
  intros Hs Hst.
  destruct (resolveProfile user nid w) as [w1 o] eqn:Hres.
  destruct (resolveProfile_tables _ _ _ _ _ Hres) as (Hgs & Hsp & _).
  destruct o as [p| |r].
  - rewrite (joinSession_resolved _ _ _ _ _ _ _ Hres).
    unfold join_after_profile. unfold_ops. rewrite Hgs, Hs.
    rewrite decide_True by done. done.
  - rewrite (joinSession_unresolved _ _ _ _ _ _ Hres). done.
  - by destruct (resolveProfile_no_Return _ _ _ _ _ Hres).
Qed.

(** X2. Ended is final for joining: once a session is ended, after any
    further sequence of requests a join request for it is not answered 200
    and neither adds nor changes a participant row. *)
Theorem ended_session_never_joined rs w id s user bodyRole nid :
  gameSessions w !! id = Some s → status s = ENDED →
  code (joinSession id user bodyRole nid (run rs w)).2 ≠ 200 ∧
  sessionParticipants (joinSession id user bodyRole nid (run rs w)).1
  = sessionParticipants (run rs w).
Proof.
  intros Hs Hended.
  destruct (run_session_kept rs w id s Hs) as (s' & Hs' & Hk).
  apply (joinSession_not_active _ _ _ _ _ s' Hs').
  destruct Hk as (_&_&_&_&_&_&_&_&Hst). rewrite (Hst Hended). done.
Qed.

Lemma ended_session_never_joined_witness :
  code (joinSession "s1" Scenario.ann (Some SPECTATOR) "u-x"
          (run Live.requests Scenario.w_ended)).2 ≠ 200.
Proof.
  eapply (ended_session_never_joined Live.requests Scenario.w_ended "s1").
  - vm_compute. reflexivity.
  - reflexivity.
Defined.

Lemma participant_kept_refl p : participant_kept p p.
Proof. by repeat split. Qed.

Lemma participant_kept_trans p1 p2 p3 :
  participant_kept p1 p2 → participant_kept p2 p3 → participant_kept p1 p3.
Proof.
  unfold participant_kept. intros (?&?&?&?&?&?&?) (?&?&?&?&?&?&?).
  split_and!; try congruence. auto.
Qed.

Lemma handle_participant_kept r w k p :
  sessionParticipants w !! k = Some p →
  ∃ p', sessionParticipants (handle r w) !! k = Some p' ∧ participant_kept p p'.
Proof.
  intros Hp.
  assert (Hsame : ∀ m, m = sessionParticipants w →
            ∃ p', m !! k = Some p' ∧ participant_kept p p').
  { intros m ->. exists p. split; [done | apply participant_kept_refl]. }
  assert (Hfresh : ∀ m k' row, sessionParticipants w !! k' = None →
            m = <[k' := row]> (sessionParticipants w) →
            ∃ p', m !! k = Some p' ∧ participant_kept p p').
  { intros m k' row Hk' ->. exists p. split; [|apply participant_kept_refl].
    rewrite lookup_insert_ne; [done|]. intros ->. congruence. }
  destruct r; cbn.
  - apply Hsame, createGame_frame.
  - destruct (createSession_participants_shape user b newProfileId
                newSessionId random w) as [Heq | (k' & row & Hk' & Heq)];
      [by apply Hsame | by eapply Hfresh].
  - destruct (joinSession_participants_shape id user bodyRole newProfileId w)
      as [Heq | (k' & row & Hk' & Heq)];
      [by apply Hsame | by eapply Hfresh].
  - destruct (leaveSession_participants_shape id user w)
      as [Heq | (k' & p0 & Hk' & Heq)]; [by apply Hsame|].
    rewrite Heq. destruct (decide (k' = k)) as [->|Hne].
    + rewrite lookup_insert_eq. eexists. split; [done|].
      simplify_eq. by repeat split.
    + rewrite lookup_insert_ne by done. exists p.
      split; [done | apply participant_kept_refl].
  - destruct (endSession_participants_shape id user w) as [Heq | Heq];
      [by apply Hsame|].
    rewrite Heq, lookup_fmap, Hp. eexists. split; [done|].
    unfold mark_left. destruct (decide _) as [[_ Hnone]|]; [|apply participant_kept_refl].
    by repeat split.
  - apply Hsame, send_message_frame.
  - by apply Hsame.
Qed.

Lemma run_participant_kept rs w k p :
  sessionParticipants w !! k = Some p →
  ∃ p', sessionParticipants (run rs w) !! k = Some p' ∧ participant_kept p p'.
Proof.
  revert p. revert w.
  apply (run_invariant (λ w w', ∀ p, sessionParticipants w !! k = Some p →
           ∃ p', sessionParticipants w' !! k = Some p' ∧ participant_kept p p')).
  - intros w p Hp. exists p. split; [done | apply participant_kept_refl].
  - intros w1 w2 w3 H12 H23 p Hp.
    destruct (H12 p Hp) as (p2 & Hp2 & Hk2).
    destruct (H23 p2 Hp2) as (p3 & Hp3 & Hk3).
    exists p3. split; [done|]. by eapply participant_kept_trans.
  - intros r w p Hp. by apply handle_participant_kept.
Qed.

(** X3. No sequence of requests deletes a participant row or changes its
    role, host flag, join time or accumulated duration; once its left-at is
    set it stays set (no request puts it back to null). *)
Theorem participants_persist rs w sid uid p :
  sessionParticipants w !! (sid, uid) = Some p →
  ∃ p', sessionParticipants (run rs w) !! (sid, uid) = Some p' ∧
    role p' = role p ∧ isHost p' = isHost p ∧ joinedAt p' = joinedAt p ∧
    totalDurationMinutes p' = totalDurationMinutes p ∧
    (∀ t, leftAt p = Some t → ∃ t', leftAt p' = Some t').
Proof.
  intros Hp. destruct (run_participant_kept rs w _ p Hp) as (p' & Hp' & Hk).
  exists p'. split; [exact Hp'|].
  destruct Hk as (_ & _ & Hr & Hh & Hj & Hd & Hl).
  split_and!; try done.
  intros t Ht. destruct (leftAt p') as [t'|] eqn:Hl'; [by exists t'|].
  destruct Hl; [by rewrite Ht | done].
Qed.

Lemma participants_persist_witness :
  ∃ p', sessionParticipants (run Live.requests Scenario.w_left) !! ("s1", "u-a")
        = Some p' ∧ role p' = PLAYER ∧ ∃ t', leftAt p' = Some t'.
Proof.
  edestruct (participants_persist Live.requests Scenario.w_left "s1" "u-a")
    as (p' & Hp' & Hrole & _ & _ & _ & Hleft).
  - vm_compute. reflexivity.
  - exists p'. split; [exact Hp'|]. split; [exact Hrole|].
    apply (Hleft 5000). reflexivity.
Defined.

(** ** The chat log *)

Lemma send_message_chat_shape socket sid msg ty nid w :
  sessionChat (send_message socket sid msg ty nid w) = sessionChat w ∨
  ∃ row, sessionChat (send_message socket sid msg ty nid w)
         = (sessionChat w ++ [row])%list.
Proof.
  unfold send_message. destruct (truthy _); cbn; [|auto].
  unfold_ops. repeat case_match; simplify_eq/=; eauto.
Qed.

(** X5. The chat log is append-only: the chat rows stored before a sequence
    of requests are a prefix of the chat rows stored after it (no message is
    deleted, edited or reordered). *)
Theorem chat_append_only rs w :
  sessionChat w `prefix_of` sessionChat (run rs w).
Proof.
  revert w.
  apply (run_invariant (λ w w', sessionChat w `prefix_of` sessionChat w')).
  - reflexivity.
  - intros w1 w2 w3 H12 H23. by etrans.
  - intros r w.
    assert (Hsame : ∀ l, l = sessionChat w → sessionChat w `prefix_of` l)
      by (intros l ->; reflexivity).
    destruct r; cbn.
    + apply Hsame, createGame_frame.
    + apply Hsame, createSession_frame.
    + apply Hsame, joinSession_frame.
    + apply Hsame, leaveSession_frame.
    + apply Hsame, endSession_frame.
    + destruct (send_message_chat_shape socket sessionId msg bodyType
                  newChatId w) as [Heq | [row Heq]]; rewrite Heq;
        [reflexivity | by apply prefix_app_r].
    + done.
Qed.

(** X6. A send_message event from a socket whose user id is the id of a user
    profile, for an existing session and with a fresh chat id, appends
    exactly one chat row (that session, that user, the message, the given
    type or CHAT, the current time), emits exactly one new_message with this
    row and the profile to the room of the session, and changes no session,
    participant or profile. *)
Theorem send_message_stored socket sid msg bodyType nid w uid s u :
  socket_userId socket = Some uid → uid ≠ "" →
  gameSessions w !! sid = Some s →
  userProfiles w !! uid = Some u →
  Forall (λ c, sc_id c ≠ nid) (sessionChat w) →
  let row := {| sc_id := nid; sc_sessionId := sid; sc_userId := uid;
                message := msg; sc_type := default CHAT bodyType;
                sc_createdAt := now w |} in
  let w' := send_message socket sid msg bodyType nid w in
  sessionChat w' = (sessionChat w ++ [row])%list ∧
  effects w'
  = (effects w ++ [IoTo ("session:" +:+ sid) (new_message row (Some u))])%list ∧
  gameSessions w' = gameSessions w ∧
  sessionParticipants w' = sessionParticipants w ∧
  userProfiles w' = userProfiles w.
Proof.
  intros Hu Hne Hs Hprof Hfresh. unfold send_message. rewrite Hu. cbn.
  rewrite bool_decide_eq_true_2 by done. cbn. unfold_ops.
  rewrite Hs, Hprof.
  assert (list_find (λ c, sc_id c = nid) (sessionChat w) = None) as ->.
  { apply list_find_None. done. }
  done.
Qed.

Lemma send_message_stored_witness :
  length (sessionChat
            (send_message {| socket_id := "k1"; socket_userId := Some "u-a" |}
               "s1" "hello" None "c1" Scenario.w_joined)) = 1%nat.
Proof.
  edestruct (send_message_stored
               {| socket_id := "k1"; socket_userId := Some "u-a" |}
               "s1" "hello" None "c1" Scenario.w_joined "u-a")
    as (Hchat & _).
  - reflexivity.
  - discriminate.
  - vm_compute. reflexivity.
  - vm_compute. reflexivity.
  - constructor.
  - rewrite Hchat. reflexivity.
Defined.

(** X7. A send_message event changes nothing and emits nothing when the
    session does not exist, or the socket's user id is not the id of any
    user profile, or the chat id is already taken: the rejected insert is
    swallowed by the catch block of the listener. *)
Theorem send_message_dropped socket sid msg bodyType nid w :
  gameSessions w !! sid = None ∨
  (∃ uid, socket_userId socket = Some uid ∧ userProfiles w !! uid = None) ∨
  Exists (λ c, sc_id c = nid) (sessionChat w) →
  send_message socket sid msg bodyType nid w = w.
Proof.
  intros Hcase. unfold send_message.
  destruct (truthy (socket_userId socket)) eqn:Htruthy; cbn; [|done].
  unfold_ops.
  destruct Hcase as [Hs | [(uid & Hu & Hp) | Hdup]].
  - rewrite Hs. repeat case_match; simplify_eq/=; done.
  - rewrite Hu. cbn. rewrite Hp. repeat case_match; simplify_eq/=; done.
  - destruct (list_find _ (sessionChat w)) eqn:Hfind; [done|].
    apply list_find_None in Hfind. apply Exists_exists in Hdup as (c & Hin & Hc).
    rewrite Forall_forall in Hfind. by destruct (Hfind c Hin).
Qed.

Lemma send_message_dropped_witness :
  send_message {| socket_id := "k1"; socket_userId := Some "ext-a" |}
    "s1" "hello" None "c1" Scenario.w_joined
  = Scenario.w_joined.
Proof.
  apply send_message_dropped. right. left. exists "ext-a".
  split; [reflexivity|]. vm_compute. reflexivity.
Defined.

(** ** Creating a session: what is stored, what is answered *)

Lemma create_after_profile_outcome b sid c p w :
  let r := try_catch (create_after_profile b sid c p)
             "Failed to create session" w in
  (code r.2 ≠ 201 ∧ gameSessions r.1 = gameSessions w ∧
   sessionParticipants r.1 = sessionParticipants w ∧ games r.1 = games w) ∨
  (∃ row prow g,
     find_row (λ s, createdBy s = up_id p ∧
                    (status s = STARTING ∨ status s = ACTIVE))
       (gameSessions w) = None ∧
     find_row (λ s, sessionCode s = Some c) (gameSessions w) = None ∧
     gameSessions w !! sid = None ∧
     gameSessions r.1 = <[sid := row]> (gameSessions w) ∧
     gs_id row = sid ∧ createdBy row = up_id p ∧
     sessionCode row = Some c ∧ status row = ACTIVE ∧
     maxPlayers row = default 1 (b_maxPlayers b) ∧
     fps row = default 60 (b_fps b) ∧
     b_videoQuality b = Some (videoQuality row) ∧
     int4 (maxPlayers row) ∧ int4 (fps row) ∧
     currentPlayers row = 0 ∧ startedAt row = now w ∧ endedAt row = None ∧
     sessionParticipants w !! (sid, up_id p) = None ∧
     sessionParticipants r.1
     = <[(sid, up_id p) := prow]> (sessionParticipants w) ∧
     sp_sessionId prow = sid ∧ sp_userId prow = up_id p ∧
     role prow = PLAYER ∧ isHost prow = true ∧ leftAt prow = None ∧
     games w !! gameId row = Some g ∧
     userProfiles r.1 = userProfiles w ∧ now r.1 = now w ∧
     ((b_gameId b = IdString (gameId row) ∧ int4 (playCount g + 1) ∧
       r.2 = json 201 (CreatedBody sid (Some c) ("/play/" +:+ c)) ∧
       games r.1 = <[gameId row := {| g_id := g_id g; slug := slug g;
                                      playCount := playCount g + 1 |}]>
                     (games w) ∧
       effects r.1 = (effects w ++ [RedisPublish "session_updates"
                                      "session_created" sid (gameId row)])%list)
      ∨
      ((b_gameId b = IdOther (Some (gameId row)) ∨
        (b_gameId b = IdString (gameId row) ∧ ¬ int4 (playCount g + 1))) ∧
       r.2 = err 500 "Failed to create session" ∧
       games r.1 = games w ∧ effects r.1 = effects w))).
Proof.
  unfold create_after_profile. unfold_ops. cbn.
  repeat (run_step; try (left; done)).
  all: right; eexists _, _, _; rewrite insert_insert_eq.
  all: split_and!; try done; tauto.
Qed.

Lemma createSession_outcome user b pid sid random w :
  let r := createSession user b pid sid random w in
  let c := generateSessionCode random in
  (code r.2 ≠ 201 ∧ gameSessions r.1 = gameSessions w ∧
   sessionParticipants r.1 = sessionParticipants w ∧ games r.1 = games w) ∨
  (∃ p row prow g,
     profile_of r.1 user = Some p ∧
     find_row (λ s, createdBy s = up_id p ∧
                    (status s = STARTING ∨ status s = ACTIVE))
       (gameSessions w) = None ∧
     gameSessions w !! sid = None ∧
     gameSessions r.1 = <[sid := row]> (gameSessions w) ∧
     gs_id row = sid ∧ createdBy row = up_id p ∧
     sessionCode row = Some c ∧
     status row = ACTIVE ∧ maxPlayers row = default 1 (b_maxPlayers b) ∧
     currentPlayers row = 0 ∧
     sessionParticipants w !! (sid, up_id p) = None ∧
     sessionParticipants r.1
     = <[(sid, up_id p) := prow]> (sessionParticipants w) ∧
     sp_sessionId prow = sid ∧ role prow = PLAYER ∧ isHost prow = true ∧
     leftAt prow = None ∧
     games w !! gameId row = Some g ∧
     ((b_gameId b = IdString (gameId row) ∧ int4 (playCount g + 1) ∧
       r.2 = json 201 (CreatedBody sid (Some c) ("/play/" +:+ c)) ∧
       games r.1 = <[gameId row := {| g_id := g_id g; slug := slug g;
                                      playCount := playCount g + 1 |}]>
                     (games w))
      ∨
      ((b_gameId b = IdOther (Some (gameId row)) ∨
        (b_gameId b = IdString (gameId row) ∧ ¬ int4 (playCount g + 1))) ∧
       r.2 = err 500 "Failed to create session" ∧
       games r.1 = games w))).
Proof.
  cbn. rewrite createSession_resolved.
  destruct (resolveProfile user pid w) as [w1 o] eqn:Hres.
  destruct (resolveProfile_tables _ _ _ _ _ Hres) as (Hgs & Hsp & Hnow).
  destruct (resolveProfile_frame _ _ _ _ _ Hres) as (Hg & _ & _).
  destruct o as [p| |r];
    [|by left|by destruct (resolveProfile_no_Return _ _ _ _ _ Hres)].
  apply resolveProfile_Value in Hres.
  destruct (create_after_profile_outcome b sid (generateSessionCode random) p w1)
    as [(Hc & H1 & H2 & H3) | (row & prow & g & Hnone & _ & Hfresh & Hins
        & ? & ? & ? & ? & ? & _ & _ & _ & _ & ? & _ & _ & Hpfresh & Hpins & ?
        & _ & ? & ? & ? & Hgame & Hprof & _ & Hcases)].
  - left. rewrite <- Hgs, <- Hsp, <- Hg. done.
  - right. exists p, row, prow, g. rewrite <- Hgs, <- Hsp, <- Hg.
    split_and!; try done; [unfold profile_of; by rewrite Hprof|].
    destruct Hcases as [(? & ? & ? & ? & _) | (? & ? & ? & _)];
      [left | right]; done.
Qed.

(** X8. createSession stores the session and its host together or not at
    all, and a 201 tells that both are stored; a 500 does not tell that
    nothing is. Either nothing is stored (the session, participant and game
    tables are as before, and the answer is not 201), or exactly one session
    row was inserted under an unused id (active, created by the caller's
    profile, holding the generated join code, maxPlayers from the body or 1,
    currentPlayers 0) with exactly one participant row (the creator, as
    player and host, not left). In the second case the answer is 201 and the
    play count of the game went up by one, unless the increment that follows
    the transaction is rejected, because the gameId of the body is not a
    string or because the play count would leave the 32-bit column: then
    the answer is 500 'Failed to create session', the game table is as
    before, and the two rows stay stored. *)
Theorem createSession_stored_or_not user b pid sid random w :
  let r := createSession user b pid sid random w in
  (code r.2 ≠ 201 ∧ gameSessions r.1 = gameSessions w ∧
   sessionParticipants r.1 = sessionParticipants w ∧ games r.1 = games w) ∨
  (∃ p row prow g,
     profile_of r.1 user = Some p ∧
     gameSessions w !! sid = None ∧
     gameSessions r.1 = <[sid := row]> (gameSessions w) ∧
     createdBy row = up_id p ∧ status row = ACTIVE ∧
     sessionCode row = Some (generateSessionCode random) ∧
     maxPlayers row = default 1 (b_maxPlayers b) ∧ currentPlayers row = 0 ∧
     sessionParticipants w !! (sid, up_id p) = None ∧
     sessionParticipants r.1
     = <[(sid, up_id p) := prow]> (sessionParticipants w) ∧
     role prow = PLAYER ∧ isHost prow = true ∧ leftAt prow = None ∧
     games w !! gameId row = Some g ∧
     ((code r.2 = 201 ∧ b_gameId b = IdString (gameId row) ∧
       playCount <$> games r.1 !! gameId row = Some (playCount g + 1)) ∨
      (r.2 = err 500 "Failed to create session" ∧ games r.1 = games w ∧
       (b_gameId b = IdOther (Some (gameId row)) ∨
        (b_gameId b = IdString (gameId row) ∧ ¬ int4 (playCount g + 1)))))).
Proof.
  cbn. destruct (createSession_outcome user b pid sid random w)
    as [Hfail | (p & row & prow & g & Hp & _ & Hfresh & Hins & _ & Hcb
         & Hcode & Hst & Hmax & Hcur & Hpfresh & Hpins & _ & Hrole & Hhost
         & Hleft & Hg & Hcases)].
  - by left.
  - right. exists p, row, prow, g. split_and!; try done.
    destruct Hcases as [(Hid & _ & Hr & Hgames) | (Hwhy & Hr & Hgames)].
    + left. rewrite Hr, Hgames, lookup_insert_eq. done.
    + right. split_and!; done.
Qed.

(** The second case and its exception, on the game of the scenario: a
    gameId sent as the one-element array of the id is accepted by the
    insert (through its [toString()]) and rejected by the update of the
    play count. And a body without [videoQuality] is refused at the
    insert: nothing is stored. *)
Example createSession_500_and_stored :
  let b := {| b_gameId := IdOther (Some "g1"); b_maxPlayers := Some 2;
              b_isPrivate := None; b_videoQuality := Some Q1080p;
              b_fps := None |} in
  let r := createSession Scenario.host b "u-h" "s1" Scenario.draws
             Scenario.w_game in
  r.2 = err 500 "Failed to create session" ∧
  status <$> gameSessions r.1 !! "s1" = Some ACTIVE ∧
  isHost <$> sessionParticipants r.1 !! ("s1", "u-h") = Some true ∧
  playCount <$> games r.1 !! "g1" = Some 0.
Proof. vm_compute. repeat split; reflexivity. Qed.

Example createSession_default_quality_refused :
  let b := {| b_gameId := IdString "g1"; b_maxPlayers := Some 2;
              b_isPrivate := None; b_videoQuality := None; b_fps := None |} in
  let r := createSession Scenario.host b "u-h" "s1" Scenario.draws
             Scenario.w_game in
  r.2 = err 500 "Failed to create session" ∧
  gameSessions r.1 = gameSessions Scenario.w_game.
Proof. vm_compute. repeat split; reflexivity. Qed.

(** X10. createSession answers 201 with the session id, the generated join
    code and the join URL /play/<code> whenever the caller has a profile,
    none of the sessions that profile created is starting or active, the new
    session id and the (session, profile) pair are unused, no session holds
    the generated code, the body names a member of the video-quality enum
    (the default of the handler names none), its maxPlayers and fps, or
    their defaults 1 and 60, are 32-bit integers, its gameId is a string and
    the id of a stored game, and the play count of that game plus one is a
    32-bit integer. *)
Theorem createSession_created user b pid sid random w p gid g quality :
  profile_of w user = Some p →
  userProfiles w !! up_id p = Some p →
  (∀ i s, gameSessions w !! i = Some s → createdBy s = up_id p →
          status s ≠ STARTING ∧ status s ≠ ACTIVE) →
  gameSessions w !! sid = None →
  ¬ code_held (generateSessionCode random) w →
  b_videoQuality b = Some quality →
  int4 (default 1 (b_maxPlayers b)) → int4 (default 60 (b_fps b)) →
  b_gameId b = IdString gid →
  games w !! gid = Some g → int4 (playCount g + 1) →
  sessionParticipants w !! (sid, up_id p) = None →
  (createSession user b pid sid random w).2
  = json 201 (CreatedBody sid (Some (generateSessionCode random))
                ("/play/" +:+ generateSessionCode random)).
Proof.
  intros Hp Hkey Hnone Hfresh Hfree Hvq Hmax Hfps Hgid Hg Hcount Hrow.
  rewrite createSession_resolved. revert Hfree.
  generalize (generateSessionCode random). intros c Hfree.
  rewrite (profile_of_resolve user pid w p Hp).
  unfold create_after_profile. unfold_ops. cbn.
  match goal with
  | |- context [find_row ?P (gameSessions w)] =>
      destruct (find_row P (gameSessions w)) as [v|] eqn:Hv
  end.
  { apply find_row_Some in Hv as [[Hvc Hvs] [k Hk]].
    destruct (Hnone k v Hk Hvc) as [? ?]. by destruct Hvs. }
  destruct (find_row (λ s, sessionCode s = Some c)
              (gameSessions w)) as [v|] eqn:Hc.
  { apply find_row_Some in Hc as [Hvc [k Hk]]. destruct Hfree. by exists k, v. }
  cbn. repeat (run_step; try done). tauto.
Qed.

Lemma createSession_created_witness :
  (createSession Scenario.ann Live.no_players "u-a9" "s2"
     (λ i, Scenario.colliding_draws (6 + i)) Scenario.w_joined).2
  = json 201 (CreatedBody "s2" (Some "CGNSW3") "/play/CGNSW3").
Proof.
  eapply (createSession_created Scenario.ann Live.no_players "u-a9" "s2"
            (λ i, Scenario.colliding_draws (6 + i)) Scenario.w_joined).
  - vm_compute. reflexivity.
  - vm_compute. reflexivity.
  - apply (bool_decide_unpack
             (map_Forall (λ _ s, createdBy s = "u-a" →
                                 status s ≠ STARTING ∧ status s ≠ ACTIVE)
                (gameSessions Scenario.w_joined))).
    vm_compute. exact I.
  - vm_compute. reflexivity.
  - intros (i & s & Hi & Hc).
    apply (bool_decide_unpack
             (map_Forall (λ _ s, sessionCode s ≠ Some "CGNSW3")
                (gameSessions Scenario.w_joined))
             ltac:(vm_compute; exact I) i s Hi Hc).
  - reflexivity.
  - vm_compute. intuition discriminate.
  - vm_compute. intuition discriminate.
  - reflexivity.
  - vm_compute. reflexivity.
  - vm_compute. intuition discriminate.
  - vm_compute. reflexivity.
Defined.



(** X12. endSession answers only 200, 403 'Only the host can end the
    session' or 404 'Session not found', never the 500 of its catch block
    (no store call of the handler can be rejected by the tables); for a
    session id that is not stored it answers 404 and leaves the world
    unchanged. *)
Theorem endSession_outcomes id user w :
  (gameSessions w !! id = None →
   endSession id user w = (w, err 404 "Session not found")) ∧
  ((endSession id user w).2 = ok ∨
   (endSession id user w).2 = err 403 "Only the host can end the session" ∨
   (endSession id user w).2 = err 404 "Session not found").
Proof.
  unfold endSession. unfold_ops. split.
  - by intros ->.
  - repeat (run_step; auto).
Qed.

(** ** Joining: acceptance, and who can be refused as full *)

(** X13. joinSession answers 200 whenever the caller's profile is found or
    created, the session is active, it is not the case that the role is
    player and currentPlayers >= maxPlayers, and no participant row exists
    for the (session, profile) pair; it then inserts exactly one participant
    row (the asked role or player, not host, joined now, not left, duration
    0), leaves the session table unchanged, and emits user_joined with the
    profile's id, user name, display name and the role to the room of the
    session. *)
Theorem joinSession_accepted id user bodyRole nid w w1 p p' s :
  resolveProfile user nid w = (w1, Value p) →
  userProfiles w1 !! up_id p = Some p' →
  gameSessions w !! id = Some s → status s = ACTIVE →
  ¬ (maxPlayers s ≤ currentPlayers s ∧ default PLAYER bodyRole = PLAYER) →
  sessionParticipants w !! (id, up_id p) = None →
  let row := {| sp_sessionId := id; sp_userId := up_id p;
                role := default PLAYER bodyRole; isHost := false;
                joinedAt := now w; leftAt := None;
                totalDurationMinutes := 0 |} in
  ∃ w2, joinSession id user bodyRole nid w = (w2, json 200 (JoinedBody row s)) ∧
    sessionParticipants w2 = <[(id, up_id p) := row]> (sessionParticipants w) ∧
    gameSessions w2 = gameSessions w ∧
    effects w2
    = (effects w1 ++ [IoTo ("session:" +:+ id)
                        (user_joined (up_id p) (username p) (displayName p)
                           (default PLAYER bodyRole))])%list.
Proof.
  intros Hres Hkey Hs Hst Hnf Hrow.
  destruct (resolveProfile_tables _ _ _ _ _ Hres) as (Hgs & Hsp & Hnow).
  rewrite (joinSession_resolved _ _ _ _ _ _ _ Hres).
  unfold join_after_profile. unfold_ops. rewrite Hgs, Hs.
  rewrite decide_False by (by intros []).
  rewrite decide_False by done. rewrite Hsp, Hrow. cbn.
  rewrite Hsp, Hrow, Hgs, Hs, Hkey, Hnow. cbn.
  eexists. split; [reflexivity|]. cbn. by rewrite Hsp, Hgs.
Qed.

Lemma joinSession_accepted_witness :
  ∃ w2 row, joinSession "s1" Scenario.ann (Some SPECTATOR) "u-a"
              (set_now 1000 Scenario.w_created)
            = (w2, json 200 (JoinedBody row
                 {| gs_id := "s1"; gameId := "g1"; createdBy := "u-h";
                    sessionCode := Some "AEJQUZ"; status := ACTIVE;
                    sessionType := SINGLE; isPrivate := false; maxPlayers := 2;
                    currentPlayers := 0; spectatorCount := 0;
                    videoQuality := Q1080p; fps := 60; startedAt := 0;
                    endedAt := None; lastActivityAt := 0;
                    durationMinutes := None |})) ∧
            role row = SPECTATOR.
Proof.
  edestruct (joinSession_accepted "s1" Scenario.ann (Some SPECTATOR) "u-a"
               (set_now 1000 Scenario.w_created)) as (w2 & Hjoin & _).
  - vm_compute. reflexivity.
  - vm_compute. reflexivity.
  - vm_compute. reflexivity.
  - reflexivity.
  - intros [_ Hrole]. discriminate Hrole.
  - vm_compute. reflexivity.
  - eexists w2, _. split; [exact Hjoin | reflexivity].
Defined.

(** X14. 'Session is full' is only ever answered to a join as player (asked
    for or by default) of a stored, active session whose currentPlayers is
    at least maxPlayers; a spectator or moderator is never refused as full. *)
Theorem joinSession_full_only_players id user bodyRole nid w :
  (joinSession id user bodyRole nid w).2 = err 400 "Session is full" →
  default PLAYER bodyRole = PLAYER ∧
  ∃ s, gameSessions w !! id = Some s ∧ status s = ACTIVE ∧
       maxPlayers s ≤ currentPlayers s.
Proof.
  destruct (resolveProfile user nid w) as [w1 o] eqn:Hres.
  destruct (resolveProfile_tables _ _ _ _ _ Hres) as (Hgs & Hsp & _).
  destruct o as [p| |r].
  - rewrite (joinSession_resolved _ _ _ _ _ _ _ Hres).
    unfold join_after_profile. unfold_ops. rewrite Hgs.
    destruct (gameSessions w !! id) as [s|]; [|done].
    destruct (decide (status s ≠ ACTIVE)) as [|Hact]; [done|].
    destruct (decide (maxPlayers s ≤ currentPlayers s ∧ _)) as [[Hfull Hr]|].
    + intros _. split; [done|]. exists s. split_and!; try done.
      by apply dec_stable.
    + cbn. destruct (present _); cbn; [done|].
      repeat case_match; simplify_eq/=; done.
  - by rewrite (joinSession_unresolved _ _ _ _ _ _ Hres).
  - by destruct (resolveProfile_no_Return _ _ _ _ _ Hres).
Qed.

Lemma joinSession_full_only_players_witness :
  ∃ s, gameSessions Live.w_no_room !! "s2" = Some s ∧ status s = ACTIVE ∧
       maxPlayers s ≤ currentPlayers s.
Proof.
  apply (joinSession_full_only_players "s2" Scenario.host None "u-x"
           Live.w_no_room).
  vm_compute. reflexivity.
Defined.

Lemma joinSession_room_left id user bodyRole nid w s :
  gameSessions w !! id = Some s →
  ¬ (maxPlayers s ≤ currentPlayers s) →
  (joinSession id user bodyRole nid w).2 ≠ err 400 "Session is full".
Proof.
  intros Hs Hroom.
  destruct (resolveProfile user nid w) as [w1 o] eqn:Hres.
  destruct (resolveProfile_tables _ _ _ _ _ Hres) as (Hgs & Hsp & _).
  destruct o as [p| |r].
  - rewrite (joinSession_resolved _ _ _ _ _ _ _ Hres).
    unfold join_after_profile. unfold_ops. rewrite Hgs, Hs.
    destruct (decide (status s ≠ ACTIVE)) as [|Hact]; [done|].
    rewrite decide_False by (by intros []).
    cbn. destruct (present _); cbn; [done|].
    repeat case_match; simplify_eq/=; done.
  - by rewrite (joinSession_unresolved _ _ _ _ _ _ Hres).
  - by destruct (resolveProfile_no_Return _ _ _ _ _ Hres).
Qed.

Lemma handle_counters_zero r w :
  (∀ i s, gameSessions w !! i = Some s → currentPlayers s = 0) →
  ∀ i s, gameSessions (handle r w) !! i = Some s → currentPlayers s = 0.
Proof.
  intros Hz i s.
  destruct r; cbn.
  - rewrite createGame_gameSessions. apply Hz.
  - destruct (createSession_gameSessions_shape user b newProfileId
                newSessionId random w)
      as [Heq | (row & Hfresh & Heq & _ & _ & Hcur & _)]; rewrite Heq;
      [apply Hz|].
    destruct (decide (newSessionId = i)) as [->|Hne].
    + rewrite lookup_insert_eq. by intros [= <-].
    + rewrite lookup_insert_ne by done. apply Hz.
  - rewrite joinSession_gameSessions. apply Hz.
  - rewrite leaveSession_gameSessions. apply Hz.
  - destruct (endSession_gameSessions_shape id user w)
      as [Heq | (s0 & Hs0 & Heq)]; rewrite Heq; [apply Hz|].
    destruct (decide (id = i)) as [->|Hne].
    + rewrite lookup_insert_eq. intros [= <-]. cbn. by eapply Hz.
    + rewrite lookup_insert_ne by done. apply Hz.
  - rewrite send_message_gameSessions. apply Hz.
  - apply Hz.
Qed.

(** X15. From a state in which every session has currentPlayers 0 (the empty
    database in particular), after any sequence of requests every session
    still has currentPlayers 0, so a join to a session with maxPlayers >= 1
    is never answered 'Session is full', however many players are in it. *)
Theorem join_never_full rs w id user bodyRole nid s :
  (∀ i s, gameSessions w !! i = Some s → currentPlayers s = 0) →
  gameSessions (run rs w) !! id = Some s → 1 ≤ maxPlayers s →
  currentPlayers s = 0 ∧
  (joinSession id user bodyRole nid (run rs w)).2 ≠ err 400 "Session is full".
Proof.
  intros Hz Hs Hmax.
  assert (Hz' : ∀ i s, gameSessions (run rs w) !! i = Some s →
                       currentPlayers s = 0).
  { clear Hs. revert w Hz.
    apply (run_invariant (λ w w',
      (∀ i s, gameSessions w !! i = Some s → currentPlayers s = 0) →
      ∀ i s, gameSessions w' !! i = Some s → currentPlayers s = 0)).
    - intros w Hz. exact Hz.
    - intros w1 w2 w3 H12 H23 Hz. apply H23, H12, Hz.
    - intros r w. apply handle_counters_zero. }
  split; [by eapply Hz'|].
  apply (joinSession_room_left _ _ _ _ _ s Hs).
  rewrite (Hz' id s Hs). lia.
Qed.

Lemma join_never_full_witness :
  (joinSession "s1" Scenario.ann None "u-x" (run Live.requests emptyWorld)).2
  ≠ err 400 "Session is full".
Proof.
  eapply (join_never_full Live.requests emptyWorld "s1").
  - intros i s Hi. cbn in Hi. rewrite lookup_empty in Hi. discriminate Hi.
  - vm_compute. reflexivity.
  - vm_compute. discriminate.
Defined.

(** ** Profiles and games *)

(** X16. The profile get-or-create of the session handlers: a profile it
    returns belongs to the caller (its platiumUserId is the caller's id),
    and resolving again, at any later time and with any candidate id,
    returns the same profile and writes nothing. *)
Theorem resolveProfile_idempotent user nid w w1 p nid' t :
  resolveProfile user nid w = (w1, Value p) →
  platiumUserId p = au_id user ∧
  resolveProfile user nid' (set_now t w1) = (set_now t w1, Value p).
Proof.
  intros Hres. apply resolveProfile_Value in Hres. split.
  - unfold profile_of in Hres. by apply find_row_Some in Hres as [? _].
  - by apply profile_of_resolve.
Qed.

Lemma resolveProfile_idempotent_witness :
  ∃ p, resolveProfile Scenario.ann "u-a2"
         (set_now 2000 (resolveProfile Scenario.ann "u-a" Scenario.w_created).1)
       = (set_now 2000 (resolveProfile Scenario.ann "u-a" Scenario.w_created).1,
          Value p) ∧ up_id p = "u-a".
Proof.
  eexists. split.
  - eapply (resolveProfile_idempotent Scenario.ann "u-a" Scenario.w_created).
    vm_compute. reflexivity.
  - reflexivity.
Defined.

Lemma resolveProfile_profiles_shape user nid w w' o :
  resolveProfile user nid w = (w', o) →
  userProfiles w' = userProfiles w ∨
  ∃ row, userProfiles w' = <[nid := row]> (userProfiles w) ∧
         userProfiles w !! nid = None ∧
         ∀ k q, userProfiles w !! k = Some q →
                platiumUserId q ≠ platiumUserId row ∧
                username q ≠ username row.
Proof.
  unfold_ops. intros Hr.
  destruct (find_row _ (userProfiles w)) as [p'|] eqn:Hfound;
    [left; by simplify_eq/=|].
  cbn in Hr.
  destruct (userProfiles w !! nid) eqn:Hnid; [left; by simplify_eq/=|].
  destruct (find_row (λ u, platiumUserId u = au_id user ∨ _) _) eqn:Hdup;
    [left; by simplify_eq/=|].
  injection Hr as <- <-. right. eexists. split; [reflexivity|].
  split; [done|]. intros k q Hk. cbn.
  pose proof (find_row_None _ _ Hdup k q Hk) as Hn. cbn in Hn. tauto.
Qed.

Lemma profiles_unique_step m m' nid :
  profiles_unique m →
  (m' = m ∨ ∃ row, m' = <[nid := row]> m ∧ m !! nid = None ∧
     ∀ k q, m !! k = Some q →
            platiumUserId q ≠ platiumUserId row ∧ username q ≠ username row) →
  profiles_unique m'.
Proof.
  intros Hu [-> | (row & -> & Hfresh & Hnew)]; [done|].
  intros i j p q Hi Hj Heq.
  destruct (decide (i = nid)) as [->|Hi']; destruct (decide (j = nid)) as [->|Hj'];
    [done| | |].
  - rewrite lookup_insert_eq in Hi. rewrite lookup_insert_ne in Hj by done.
    simplify_eq. destruct (Hnew j q Hj). destruct Heq; congruence.
  - rewrite lookup_insert_eq in Hj. rewrite lookup_insert_ne in Hi by done.
    simplify_eq. destruct (Hnew i p Hi). destruct Heq; congruence.
  - rewrite lookup_insert_ne in Hi, Hj by done. eauto.
Qed.

Lemma create_after_profile_profiles b sid c p w :
  userProfiles (try_catch (create_after_profile b sid c p)
                  "Failed to create session" w).1 = userProfiles w.
Proof.
  unfold create_after_profile. unfold_ops. repeat (run_step; try done).
Qed.

Lemma join_after_profile_profiles id bodyRole p w :
  userProfiles (try_catch (join_after_profile id bodyRole p)
                  "Failed to join session" w).1 = userProfiles w.
Proof.
  unfold join_after_profile. unfold_ops. repeat (run_step; try done).
  all: try (destruct (present _); cbn; try done).
  all: repeat (run_step; try done).
Qed.

Lemma handle_profiles_unique r w :
  profiles_unique (userProfiles w) → profiles_unique (userProfiles (handle r w)).
Proof.
  intros Hu. destruct r; cbn.
  - by rewrite (proj2 (proj2 (proj2 (createGame_frame newId sl w)))).
  - rewrite createSession_resolved.
    destruct (resolveProfile user newProfileId w) as [w1 o] eqn:Hres.
    pose proof (resolveProfile_profiles_shape _ _ _ _ _ Hres) as Hshape.
    destruct o as [p| |r];
      [rewrite create_after_profile_profiles| |];
      by eapply profiles_unique_step.
  - destruct (resolveProfile user newProfileId w) as [w1 o] eqn:Hres.
    pose proof (resolveProfile_profiles_shape _ _ _ _ _ Hres) as Hshape.
    destruct o as [p| |r].
    + rewrite (joinSession_resolved _ _ _ _ _ _ _ Hres).
      rewrite join_after_profile_profiles. by eapply profiles_unique_step.
    + rewrite (joinSession_unresolved _ _ _ _ _ _ Hres).
      by eapply profiles_unique_step.
    + by destruct (resolveProfile_no_Return _ _ _ _ _ Hres).
  - by rewrite (proj1 (leaveSession_frame id user w)).
  - by rewrite (proj1 (endSession_frame id user w)).
  - by rewrite (proj1 (send_message_frame socket sessionId msg bodyType
                         newChatId w)).
  - done.
Qed.

(** X17. One profile per user, over all requests: if no two stored profiles
    share a platiumUserId or a username, then after any sequence of requests
    no two stored profiles share a platiumUserId or a username. *)
Theorem one_profile_per_user rs w :
  profiles_unique (userProfiles w) →
  ∀ i j p q,
    userProfiles (run rs w) !! i = Some p →
    userProfiles (run rs w) !! j = Some q →
    platiumUserId p = platiumUserId q ∨ username p = username q → i = j.
Proof.
  revert w.
  apply (run_invariant (λ w w', profiles_unique (userProfiles w) →
                                profiles_unique (userProfiles w'))).
  - auto.
  - auto.
  - intros r w. apply handle_profiles_unique.
Qed.

Lemma one_profile_per_user_witness :
  profiles_unique (userProfiles (run Live.requests emptyWorld)).
Proof.
  refine (one_profile_per_user Live.requests emptyWorld _).
  intros i j p q Hi. cbn in Hi. rewrite lookup_empty in Hi. discriminate Hi.
Defined.

Lemma createGame_games_shape nid sl w :
  games (createGame nid sl w).1 = games w ∨
  ∃ row, games w !! nid = None ∧
         games (createGame nid sl w).1 = <[nid := row]> (games w).
Proof.
  unfold createGame. unfold_ops. repeat (run_step; auto).
  right. eexists. split; done.
Qed.

(** X18. No sequence of requests deletes a game or changes its slug, and the
    play count of a game never decreases. *)
Theorem play_count_never_decreases rs w gid g :
  games w !! gid = Some g →
  ∃ g', games (run rs w) !! gid = Some g' ∧ slug g' = slug g ∧
        playCount g ≤ playCount g'.
Proof.
  revert g. revert w.
  apply (run_invariant (λ w w', ∀ g, games w !! gid = Some g →
           ∃ g', games w' !! gid = Some g' ∧ slug g' = slug g ∧
                 playCount g ≤ playCount g')).
  - intros w g Hg. exists g. split_and!; [done..|lia].
  - intros w1 w2 w3 H12 H23 g Hg.
    destruct (H12 g Hg) as (g2 & Hg2 & Hs2 & Hp2).
    destruct (H23 g2 Hg2) as (g3 & Hg3 & Hs3 & Hp3).
    exists g3. split_and!; [done|congruence|lia].
  - intros r w g Hg.
    assert (Hsame : ∀ m, m = games w →
              ∃ g', m !! gid = Some g' ∧ slug g' = slug g ∧
                    playCount g ≤ playCount g').
    { intros m ->. exists g. split_and!; [done..|lia]. }
    destruct r; cbn.
    + destruct (createGame_games_shape newId sl w)
        as [Heq | (row & Hfresh & Heq)]; [by apply Hsame|].
      rewrite Heq. exists g. split_and!; [|done|lia].
      rewrite lookup_insert_ne; [done|]. intros ->. congruence.
    + destruct (createSession_outcome user b newProfileId newSessionId random w)
        as [(_ & _ & _ & Heq) | (p & row & prow & g0 & _ & _ & _ & _ & _ & _
             & _ & _ & _ & _ & _ & _ & _ & _ & _ & _ & Hg0
             & [(_ & _ & _ & Heq) | (_ & _ & Heq)])];
        [by apply Hsame| |by apply Hsame].
      rewrite Heq. destruct (decide (gameId row = gid)) as [Hgid|Hne].
      * rewrite Hgid in *. rewrite lookup_insert_eq. simplify_eq.
        eexists. split_and!; [done|done|cbn; lia].
      * rewrite lookup_insert_ne by done. by apply Hsame.
    + apply Hsame, joinSession_frame.
    + apply Hsame, leaveSession_frame.
    + apply Hsame, endSession_frame.
    + apply Hsame, send_message_frame.
    + by apply Hsame.
Qed.

Lemma play_count_never_decreases_witness :
  ∃ g', games (run Live.requests Scenario.w_game) !! "g1" = Some g' ∧
        0 ≤ playCount g'.
Proof.
  edestruct (play_count_never_decreases Live.requests Scenario.w_game "g1")
    as (g' & Hg' & _ & Hcount).
  - vm_compute. reflexivity.
  - exists g'. split; [exact Hg' | exact Hcount].
Defined.

(** ** One open session for each creator *)

Lemma handle_userProfiles_shape r w :
  userProfiles (handle r w) = userProfiles w ∨
  ∃ nid row, userProfiles (handle r w) = <[nid := row]> (userProfiles w) ∧
    userProfiles w !! nid = None ∧
    ∀ k q, userProfiles w !! k = Some q →
           platiumUserId q ≠ platiumUserId row ∧ username q ≠ username row.
Proof.
  assert (Hshape : ∀ user nid w1 o m,
    resolveProfile user nid w = (w1, o) → m = userProfiles w1 →
    m = userProfiles w ∨
    ∃ nid row, m = <[nid := row]> (userProfiles w) ∧
      userProfiles w !! nid = None ∧
      ∀ k q, userProfiles w !! k = Some q →
             platiumUserId q ≠ platiumUserId row ∧ username q ≠ username row).
  { intros user nid w1 o m Hres ->.
    destruct (resolveProfile_profiles_shape _ _ _ _ _ Hres)
      as [?|(row & ? & ? & ?)]; [by left|right]. by exists nid, row. }
  destruct r; cbn.
  - left. apply createGame_frame.
  - rewrite createSession_resolved.
    destruct (resolveProfile user newProfileId w) as [w1 o] eqn:Hres.
    destruct o as [p| |r]; eapply Hshape; try done.
    apply create_after_profile_profiles.
  - destruct (resolveProfile user newProfileId w) as [w1 o] eqn:Hres.
    destruct o as [p| |r].
    + rewrite (joinSession_resolved _ _ _ _ _ _ _ Hres).
      eapply Hshape; [done|]. apply join_after_profile_profiles.
    + rewrite (joinSession_unresolved _ _ _ _ _ _ Hres). by eapply Hshape.
    + by destruct (resolveProfile_no_Return _ _ _ _ _ Hres).
  - left. apply leaveSession_frame.
  - left. apply endSession_frame.
  - left. apply send_message_frame.
  - by left.
Qed.

(** A profile, once it is the caller's, stays the caller's. *)
Lemma handle_profile_of r w user p :
  profiles_unique (userProfiles w) → profile_of w user = Some p →
  profile_of (handle r w) user = Some p.
Proof.
  intros Hu Hp. unfold profile_of in *.
  destruct (handle_userProfiles_shape r w) as [-> | (nid & row & -> & Hfresh & Hnew)];
    [done|].
  pose proof Hp as Hp'. apply find_row_Some in Hp' as [HP [i Hi]].
  destruct (find_row (λ u, platiumUserId u = au_id user)
              (<[nid := row]> (userProfiles w))) as [q|] eqn:Hq.
  - apply find_row_Some in Hq as [HQ [j Hj]].
    destruct (decide (j = nid)) as [->|Hne].
    + rewrite lookup_insert_eq in Hj. simplify_eq.
      destruct (Hnew i p Hi) as [Hpid _]. congruence.
    + rewrite lookup_insert_ne in Hj by done.
      assert (i = j) by (apply (Hu i j p q Hi Hj); left; congruence).
      by simplify_eq.
  - destruct (find_row_None _ _ Hq i p); [|done].
    rewrite lookup_insert_ne; [done|]. intros ->. congruence.
Qed.

Lemma run_profile_of rs w user p :
  profiles_unique (userProfiles w) → profile_of w user = Some p →
  profiles_unique (userProfiles (run rs w)) ∧
  profile_of (run rs w) user = Some p.
Proof.
  revert w. induction rs as [|r rs IH]; intros w Hu Hp; [done|].
  cbn. apply IH; [by apply handle_profiles_unique | by apply handle_profile_of].
Qed.

(** Where the rows of the session table after a request come from: from
    before, with the status they had or ended; or from a creation, under
    their own id, for a creator who had no open session. *)
Lemma handle_gameSessions_origin r w k s' :
  gameSessions (handle r w) !! k = Some s' →
  (∃ s, gameSessions w !! k = Some s ∧ gs_id s' = gs_id s ∧
        createdBy s' = createdBy s ∧
        (status s' = status s ∨ status s' = ENDED)) ∨
  (gameSessions w !! k = None ∧ gs_id s' = k ∧
   find_row (λ s, createdBy s = createdBy s' ∧
                  (status s = STARTING ∨ status s = ACTIVE))
     (gameSessions w) = None).
Proof.
  assert (Hsame : ∀ m, m = gameSessions w → m !! k = Some s' →
    (∃ s, gameSessions w !! k = Some s ∧ gs_id s' = gs_id s ∧
          createdBy s' = createdBy s ∧
          (status s' = status s ∨ status s' = ENDED)) ∨
    (gameSessions w !! k = None ∧ gs_id s' = k ∧
     find_row (λ s, createdBy s = createdBy s' ∧
                    (status s = STARTING ∨ status s = ACTIVE))
       (gameSessions w) = None)).
  { intros m -> Hk. left. exists s'. auto. }
  destruct r; cbn.
  - apply Hsame, createGame_gameSessions.
  - destruct (createSession_outcome user b newProfileId newSessionId random w)
      as [(_ & Heq & _) | (p & row & prow & g & _ & Hnone & Hfresh & Hins
           & Hid & Hcb & _)]; [by apply Hsame|].
    rewrite Hins. destruct (decide (newSessionId = k)) as [->|Hne].
    + rewrite lookup_insert_eq. intros [= <-]. right. by rewrite Hcb.
    + rewrite lookup_insert_ne by done. by apply Hsame.
  - apply Hsame, joinSession_gameSessions.
  - apply Hsame, leaveSession_gameSessions.
  - destruct (endSession_gameSessions_shape id user w)
      as [Heq | (s0 & Hs0 & Heq)]; [by apply Hsame|].
    rewrite Heq. destruct (decide (id = k)) as [->|Hne].
    + rewrite lookup_insert_eq. intros [= <-]. left. exists s0. cbn. auto.
    + rewrite lookup_insert_ne by done. by apply Hsame.
  - apply Hsame, send_message_gameSessions.
  - by apply Hsame.
Qed.

Lemma handle_only_open_session r w c sid :
  only_open_session c sid w → only_open_session c sid (handle r w).
Proof.
  intros [(v & Hv & Hvc & Hvid) Honly]. split.
  - destruct (handle_session_kept r w sid v Hv) as (v' & Hv' & Hkept).
    exists v'. destruct Hkept as (? & _ & ? & _). split_and!; congruence.
  - intros (v' & Hv' & Hlive') k s' Hk Hc Hlive.
    assert (Hv0 : status v = STARTING ∨ status v = ACTIVE).
    { destruct (handle_gameSessions_origin r w sid v' Hv')
        as [(v0 & Hv0 & _ & _ & Hst) | (Hnone & _)]; [|congruence].
      simplify_eq. destruct Hst as [<- | Hended]; [done|].
      rewrite Hended in Hlive'. by destruct Hlive'. }
    destruct (handle_gameSessions_origin r w k s' Hk)
      as [(s0 & Hs0 & Hid & Hcb & Hst) | (_ & _ & Hnone)].
    + rewrite Hid. apply (Honly ltac:(by exists v) k s0 Hs0); [congruence|].
      destruct Hst as [<- | Hended]; [done|].
      rewrite Hended in Hlive. by destruct Hlive.
    + destruct (find_row_None _ _ Hnone sid v Hv). split; [congruence | done].
Qed.

Lemma run_only_open_session rs w c sid :
  only_open_session c sid w → only_open_session c sid (run rs w).
Proof.
  revert w. induction rs as [|r rs IH]; intros w H; [done|].
  cbn. by apply IH, handle_only_open_session.
Qed.

(** X9. While a session is open its creator cannot open another: after a
    successful createSession, and after any further sequence of requests
    that leaves the created session active, a createSession by the same
    user, whatever its body, generated ids and random draws, is answered 400
    'You already have an active session' with the id of that session, and
    changes nothing. (Profiles are unique by platiumUserId and username at
    the start, as the unique indexes have it.) *)
Theorem createSession_twice_refused user b pid sid random w rs s b' pid' sid'
    random' :
  profiles_unique (userProfiles w) →
  code (createSession user b pid sid random w).2 = 201 →
  gameSessions (run rs (createSession user b pid sid random w).1) !! sid
  = Some s →
  status s = ACTIVE →
  createSession user b' pid' sid' random'
    (run rs (createSession user b pid sid random w).1)
  = (run rs (createSession user b pid sid random w).1,
     json 400 (ErrorSessionBody "You already have an active session" sid)).
Proof.
  intros Hu H201 Hs Hactive.
  destruct (createSession_outcome user b pid sid random w)
    as [[Hne _] | (p & row & prow & g & Hp & Hnone & Hfresh & Hins & Hid & Hcb
         & _ & Hst & _)]; [done|].
  assert (Hu1 : profiles_unique
                  (userProfiles (createSession user b pid sid random w).1)).
  { apply (handle_profiles_unique (POST_sessions user b pid sid random) w Hu). }
  set (w1 := (createSession user b pid sid random w).1) in *.
  assert (Hopen : only_open_session (up_id p) sid w1).
  { split.
    - exists row. rewrite Hins, lookup_insert_eq. done.
    - intros _ k v Hk Hvc Hlive. rewrite Hins in Hk.
      destruct (decide (k = sid)) as [->|Hne].
      + rewrite lookup_insert_eq in Hk. by simplify_eq.
      + rewrite lookup_insert_ne in Hk by done.
        by destruct (find_row_None _ _ Hnone k v Hk). }
  apply (run_only_open_session rs) in Hopen as [(v & Hv & Hvc & _) Honly].
  destruct (run_profile_of rs w1 user p Hu1 Hp) as [_ Hp2].
  set (w2 := run rs w1) in *.
  rewrite Hs in Hv. injection Hv as <-.
  rewrite createSession_resolved.
  rewrite (profile_of_resolve user pid' w2 p) by exact Hp2.
  unfold create_after_profile. unfold_ops. cbn.
  match goal with
  | |- context [find_row ?P (gameSessions w2)] =>
      destruct (find_row P (gameSessions w2)) as [x|] eqn:Hx
  end.
  - apply find_row_Some in Hx as [[Hxc Hxs] [k Hk]]. cbn.
    rewrite (Honly ltac:(exists s; auto) k x Hk Hxc Hxs). done.
  - exfalso. eapply (find_row_None _ _ Hx sid s); [done|]. auto.
Qed.

Lemma createSession_twice_refused_witness :
  createSession Scenario.host Live.no_players "u-h2" "s9" Scenario.draws
    (run [POST_sessions_join "s1" Scenario.ann None "u-a"; Clock 5000;
          DELETE_sessions_leave "s1" Scenario.ann]
       (createSession Scenario.host Scenario.two_players "u-h" "s1"
          Scenario.draws Scenario.w_game).1)
  = (run [POST_sessions_join "s1" Scenario.ann None "u-a"; Clock 5000;
          DELETE_sessions_leave "s1" Scenario.ann]
       (createSession Scenario.host Scenario.two_players "u-h" "s1"
          Scenario.draws Scenario.w_game).1,
     json 400 (ErrorSessionBody "You already have an active session" "s1")).
Proof.
  eapply (createSession_twice_refused Scenario.host Scenario.two_players
            "u-h" "s1" Scenario.draws Scenario.w_game).
  - intros i j p q Hi. vm_compute in Hi. discriminate Hi.
  - vm_compute. reflexivity.
  - vm_compute. reflexivity.
  - reflexivity.
Defined.

(** For contrast: once the creator has ended the session, the next
    creation is accepted. *)
Example createSession_after_end_accepted :
  code (createSession Scenario.host Scenario.two_players "u-h2" "s2"
          (λ i, Scenario.colliding_draws (6 + i))
          (set_now 4000000 Scenario.w_ended)).2 = 201.
Proof. vm_compute. reflexivity. Qed.

(** ** Listing the open sessions *)

#[local] Instance started_after_total : Total started_after.
Proof. intros a b. unfold started_after. lia. Qed.

#[local] Instance started_after_trans : Transitive started_after.
Proof. intros a b c. unfold started_after. lia. Qed.

Lemma findMany_sorted q w :
  let l := merge_sort started_after
             (filter (sessions_where q) (map_to_list (gameSessions w)).*2) in
  StronglySorted started_after (take 20 l ++ drop 20 l) ∧
  (∀ s, s ∈ l ↔ sessions_where q s ∧ ∃ k, gameSessions w !! k = Some s).
Proof.
  cbn. split.
  - rewrite take_drop. apply StronglySorted_merge_sort; apply _.
  - intros s. rewrite merge_sort_Permutation, list_elem_of_filter.
    rewrite list_elem_of_fmap. split.
    + intros [Hw ([k s'] & -> & Hin)]. split; [done|].
      exists k. by apply elem_of_map_to_list.
    + intros [Hw [k Hk]]. split; [done|]. exists (k, s). split; [done|].
      by apply elem_of_map_to_list.
Qed.

Lemma findMany_elem q w s :
  s ∈ gameSession_findMany q w →
  sessions_where q s ∧ ∃ k, gameSessions w !! k = Some s.
Proof.
  unfold gameSession_findMany. intros Hin.
  apply (findMany_sorted q w). by eapply subseteq_take.
Qed.

(** X19. GET /api/sessions answers with at most 20 summaries, ordered by
    start time, newest first; every summary is that of a stored session that
    is starting or active, not private and, when the query gives a non-empty
    gameId, of that game; and isFull is true exactly when currentPlayers >=
    maxPlayers. *)
Theorem getSessions_sound q w :
  (length (getSessions q w) ≤ 20)%nat ∧
  StronglySorted (λ a b, ss_startedAt b ≤ ss_startedAt a) (getSessions q w) ∧
  ∀ x, x ∈ getSessions q w →
    ∃ k s, gameSessions w !! k = Some s ∧ x = session_summary w s ∧
      (status s = STARTING ∨ status s = ACTIVE) ∧ isPrivate s = false ∧
      (∀ g, q = Some g → g ≠ "" → gameId s = g) ∧
      (isFull x = true ↔ maxPlayers s ≤ currentPlayers s).
Proof.
  unfold getSessions. split_and!.
  - rewrite length_fmap. unfold gameSession_findMany. rewrite length_take. lia.
  - apply (StronglySorted_fmap (session_summary w) started_after); [done|].
    unfold gameSession_findMany.
    eapply StronglySorted_app_1_l. apply (findMany_sorted q w).
  - intros x Hx. apply list_elem_of_fmap in Hx as (s & -> & Hs).
    apply findMany_elem in Hs as [(Hst & Hpriv & Hq) [k Hk]].
    exists k, s. split_and!; try done.
    + intros g -> Hg. assert (Some (gameId s) = Some g) as [= ->]; [|done].
      apply Hq. cbn. by rewrite bool_decide_eq_true_2.
    + cbn. apply bool_decide_eq_true.
Qed.

(** X20. GET /api/sessions leaves out a stored session that matches the
    filter (starting or active, not private, of the queried game) only when
    the answer has its 20 entries and each of them started no earlier than
    that session. *)
Theorem getSessions_newest_first q w k s :
  gameSessions w !! k = Some s →
  (status s = STARTING ∨ status s = ACTIVE) → isPrivate s = false →
  (∀ g, q = Some g → g ≠ "" → gameId s = g) →
  session_summary w s ∈ getSessions q w ∨
  (length (getSessions q w) = 20%nat ∧
   ∀ x, x ∈ getSessions q w → startedAt s ≤ ss_startedAt x).
Proof.
  intros Hk Hst Hpriv Hq.
  destruct (findMany_sorted q w) as [Hsorted Helem]. cbn in Helem.
  set (l := merge_sort started_after _) in *.
  assert (Hin : s ∈ l).
  { apply Helem. split; [|by exists k]. split_and!; try done.
    destruct q as [g|]; cbn; [|done]. intros Hg%bool_decide_eq_true.
    by rewrite (Hq g eq_refl Hg). }
  rewrite <- (take_drop 20 l) in Hin. apply elem_of_app in Hin as [Hin|Hin].
  - left. unfold getSessions, gameSession_findMany. fold l.
    by apply list_elem_of_fmap_2.
  - right. unfold getSessions, gameSession_findMany. fold l. split.
    + rewrite length_fmap, length_take.
      apply list_elem_of_lookup in Hin as [i Hi].
      apply lookup_lt_Some in Hi. rewrite length_drop in Hi. lia.
    + intros x Hx. apply list_elem_of_fmap in Hx as (s' & -> & Hs').
      cbn. by apply (StronglySorted_app_1_elem_of _ _ _ s' s Hsorted).
Qed.

Lemma getSessions_newest_first_witness :
  ∃ x, x ∈ getSessions (Some "g1") Live.w_no_room ∧ ss_sessionId x = "s2".
Proof.
  edestruct (getSessions_newest_first (Some "g1") Live.w_no_room "s2")
    as [Hin | [Hlen _]].
  - vm_compute. reflexivity.
  - right. reflexivity.
  - reflexivity.
  - intros g Hg _. injection Hg as <-. reflexivity.
  - eexists. split; [exact Hin | reflexivity].
  - vm_compute in Hlen. discriminate Hlen.
Defined.

Lemma handle_sessions_keyed r w :
  sessions_keyed w → sessions_keyed (handle r w).
Proof.
  intros Hk k s. destruct r; cbn.
  - rewrite createGame_gameSessions. apply Hk.
  - destruct (createSession_gameSessions_shape user b newProfileId
                newSessionId random w)
      as [Heq | (row & Hfresh & Heq & Hid & _)]; rewrite Heq; [apply Hk|].
    destruct (decide (newSessionId = k)) as [->|Hne].
    + rewrite lookup_insert_eq. by intros [= <-].
    + rewrite lookup_insert_ne by done. apply Hk.
  - rewrite joinSession_gameSessions. apply Hk.
  - rewrite leaveSession_gameSessions. apply Hk.
  - destruct (endSession_gameSessions_shape id user w)
      as [Heq | (s0 & Hs0 & Heq)]; rewrite Heq; [apply Hk|].
    destruct (decide (id = k)) as [->|Hne].
    + rewrite lookup_insert_eq. intros [= <-]. cbn. by apply Hk.
    + rewrite lookup_insert_ne by done. apply Hk.
  - rewrite send_message_gameSessions. apply Hk.
  - apply Hk.
Qed.

(** X21. An ended session is never listed again: when every session is
    stored under its own id, a session that is ended does not appear in the
    answer of GET /api/sessions after any sequence of requests. *)
Theorem ended_session_never_listed rs w id s q :
  sessions_keyed w →
  gameSessions w !! id = Some s → status s = ENDED →
  ∀ x, x ∈ getSessions q (run rs w) → ss_sessionId x ≠ id.
Proof.
  intros Hkeyed Hs Hended x Hx.
  assert (Hkeyed' : sessions_keyed (run rs w)).
  { clear Hs Hx. revert w Hkeyed.
    apply (run_invariant (λ w w', sessions_keyed w → sessions_keyed w')).
    - intros w Hk. exact Hk.
    - intros w1 w2 w3 H12 H23 Hk. apply H23, H12, Hk.
    - intros r w. apply handle_sessions_keyed. }
  unfold getSessions in Hx. apply list_elem_of_fmap in Hx as (s' & -> & Hs').
  apply findMany_elem in Hs' as [(Hst & _) [k Hk]]. cbn.
  rewrite (Hkeyed' k s' Hk). intros ->.
  destruct (run_session_kept rs w id s Hs) as (s2 & Hs2 & Hkept).
  simplify_eq. destruct Hkept as (_&_&_&_&_&_&_&_&Hstay).
  rewrite (Hstay Hended) in Hst. by destruct Hst.
Qed.

Lemma ended_session_never_listed_witness :
  Forall (λ x, ss_sessionId x ≠ "s1")
    (getSessions None (run Live.requests Scenario.w_ended)).
Proof.
  apply Forall_forall.
  eapply (ended_session_never_listed Live.requests Scenario.w_ended "s1").
  - apply (bool_decide_unpack
             (map_Forall (λ k s, gs_id s = k) (gameSessions Scenario.w_ended))).
    vm_compute. exact I.
  - vm_compute. reflexivity.
  - reflexivity.
Defined.

(** ** The realtime channel *)

Lemma elem_of_room_members rt room k :
  k ∈ room_members rt room ↔
  ∃ c, rt_conns rt !! k = Some c ∧ room ∈ conn_rooms c.
Proof.
  unfold room_members. rewrite elem_of_dom. unfold is_Some.
  setoid_rewrite map_lookup_filter_Some. cbn. naive_solver.
Qed.

Lemma socket_to_emit_relayed k room m rt :
  relayed k room m rt (socket_to_emit k room m rt).
Proof.
  unfold socket_to_emit, send, relayed. eexists.
  cbn [rt_out rt_store rt_conns online_users]. split_and!; try done.
  intros k'. cbn [em_to]. rewrite elem_of_difference, elem_of_room_members.
  rewrite elem_of_singleton. tauto.
Qed.

(** X22. game_input and the three WebRTC signalling events of a connected
    socket are each relayed as exactly one emission, received by exactly the
    other connected sockets that are in the room of the session (never the
    sender, never a socket outside the room) and carrying the sender's user
    id (inputs) or socket id (signalling); the store, the connections and
    the online set are unchanged. *)
Theorem relay_reaches_the_others k sid data rt c :
  rt_conns rt !! k = Some c →
  let room := "session:" +:+ sid in
  relayed k room (M_player_input (conn_userId c) data) rt
    (on_game_input k sid data rt) ∧
  relayed k room (M_webrtc_offer k data) rt (on_webrtc_offer k sid data rt) ∧
  relayed k room (M_webrtc_answer k data) rt (on_webrtc_answer k sid data rt) ∧
  relayed k room (M_webrtc_ice_candidate k data) rt
    (on_webrtc_ice_candidate k sid data rt).
Proof.
  intros Hk. unfold on_game_input, on_webrtc_offer, on_webrtc_answer,
    on_webrtc_ice_candidate, on_socket. rewrite Hk.
  split_and!; apply socket_to_emit_relayed.
Qed.

Lemma relay_reaches_the_others_witness :
  ∃ e, last (rt_out (on_game_input "k1" "s1" "A" Live.rt_room)) = Some e ∧
       "k2" ∈ em_to e ∧ ("k1" ∉ em_to e) ∧ ("k3" ∉ em_to e).
Proof.
  edestruct (relay_reaches_the_others "k1" "s1" "A" Live.rt_room)
    as [(e & Hout & _ & Hto & _) _].
  - vm_compute. reflexivity.
  - exists e. split; [rewrite Hout; apply last_snoc|]. split; [|split].
    + apply Hto. split; [discriminate|]. eexists. split.
      * vm_compute. reflexivity.
      * apply (bool_decide_unpack _). vm_compute. exact I.
    + intros [Hne _]%Hto. apply Hne. reflexivity.
    + intros [_ (c' & Hc' & Hin)]%Hto. vm_compute in Hc'.
      injection Hc' as <-. revert Hin. apply (bool_decide_unpack _).
      vm_compute. exact I.
Defined.

Lemma session_snapshot_elem w sid p u :
  (p, u) ∈ session_snapshot w sid ↔
  ∃ s key, gameSessions w !! sid = Some s ∧
    sessionParticipants w !! key = Some p ∧
    sp_sessionId p = gs_id s ∧ leftAt p = None ∧
    u = userProfiles w !! sp_userId p.
Proof.
  unfold session_snapshot. destruct (gameSessions w !! sid) as [s|].
  - rewrite list_elem_of_fmap. setoid_rewrite list_elem_of_filter.
    setoid_rewrite list_elem_of_fmap. split.
    + intros (p' & [= -> ->] & [Hs Hl] & [key p''] & -> & Hin).
      exists s, key. split_and!; try done. by apply elem_of_map_to_list.
    + intros (s' & key & [= <-] & Hkey & Hs & Hl & ->).
      exists p. split_and!; try done. exists (key, p). split; [done|].
      by apply elem_of_map_to_list.
  - split; [by intros ?%not_elem_of_nil | by intros (?&?&?&_)].
Qed.

(** X23. join_session_room puts the socket into the room of the session and
    into no other room, moves no other socket, and sends to that socket
    alone one session_participants message holding exactly the participant
    rows of the session whose left-at is null, each with its user profile
    (no row when the session does not exist); the store and the online set
    are unchanged. *)
Theorem join_session_room_snapshot k sid rt c :
  rt_conns rt !! k = Some c →
  let room := "session:" +:+ sid in
  let rt' := on_join_session_room k sid rt in
  (∀ k' r, k' ∈ room_members rt' r ↔
           k' ∈ room_members rt r ∨ (k' = k ∧ r = room)) ∧
  (∃ rows, rt_out rt'
           = (rt_out rt ++ [{| em_to := {[k]};
                               em_msg := M_session_participants rows |}])%list ∧
     ∀ p u, (p, u) ∈ rows ↔
       ∃ s key, gameSessions (rt_store rt) !! sid = Some s ∧
         sessionParticipants (rt_store rt) !! key = Some p ∧
         sp_sessionId p = gs_id s ∧ leftAt p = None ∧
         u = userProfiles (rt_store rt) !! sp_userId p) ∧
  rt_store rt' = rt_store rt ∧ online_users rt' = online_users rt.
Proof.
  intros Hk. cbn. unfold on_join_session_room, on_socket. rewrite Hk. cbn.
  split_and!; try done.
  - intros k' r. rewrite !elem_of_room_members. cbn.
    destruct (decide (k' = k)) as [->|Hne].
    + rewrite lookup_insert_eq, Hk. split.
      * intros (c' & [= <-] & Hin). cbn in Hin.
        apply elem_of_union in Hin as [->%elem_of_singleton|Hin]; eauto.
      * intros [(c' & [= <-] & Hin) | [_ ->]]; eexists; split; try done;
          cbn; set_solver.
    + rewrite lookup_insert_ne by done. split; [by left|].
      intros [?|[? _]]; done.
  - eexists. split; [reflexivity|]. intros p u. apply session_snapshot_elem.
Qed.

Lemma join_session_room_snapshot_witness :
  "k3" ∈ room_members (on_join_session_room "k3" "s1" Live.rt_room)
           "session:s1" ∧
  rt_store (on_join_session_room "k3" "s1" Live.rt_room)
  = rt_store Live.rt_room.
Proof.
  edestruct (join_session_room_snapshot "k3" "s1" Live.rt_room)
    as (Hmem & _ & Hstore & _).
  - vm_compute. reflexivity.
  - split; [|exact Hstore]. apply Hmem. right. split; reflexivity.
Defined.

(** X24. Room membership decides who gets the relay: after join_session_room
    a socket receives another socket's game_input for that session, after
    leave_session_room it does not; leave_session_room changes the socket's
    membership of no other room and emits nothing. *)
Theorem leave_session_room_stops_relay k k' sid data rt c c' :
  rt_conns rt !! k = Some c → rt_conns rt !! k' = Some c' → k ≠ k' →
  let room := "session:" +:+ sid in
  (∀ e, last (rt_out (on_game_input k' sid data
                        (on_join_session_room k sid rt))) = Some e →
        k ∈ em_to e) ∧
  (∀ e, last (rt_out (on_game_input k' sid data
                        (on_leave_session_room k sid rt))) = Some e →
        k ∉ em_to e) ∧
  (∀ r, r ≠ room →
        (k ∈ room_members (on_leave_session_room k sid rt) r ↔
         k ∈ room_members rt r)) ∧
  rt_out (on_leave_session_room k sid rt) = rt_out rt.
Proof.
  intros Hk Hk' Hne. cbn.
  unfold on_game_input, on_join_session_room, on_leave_session_room, on_socket.
  rewrite Hk. cbn. rewrite !lookup_insert_ne by done. rewrite Hk'. cbn.
  split_and!; try done.
  - intros e. rewrite last_snoc. intros [= <-]. cbn [em_to].
    rewrite elem_of_difference, elem_of_room_members. cbn.
    rewrite lookup_insert_eq. split; [|set_solver].
    eexists. split; [done|]. cbn. set_solver.
  - intros e. rewrite last_snoc. intros [= <-]. cbn [em_to].
    rewrite elem_of_difference, elem_of_room_members. cbn.
    rewrite lookup_insert_eq. intros [(c0 & [= <-] & Hin) _]. cbn in Hin.
    apply elem_of_difference in Hin as [_ Hn]. apply Hn.
    by apply elem_of_singleton.
  - intros r Hr. rewrite !elem_of_room_members. cbn.
    rewrite lookup_insert_eq, Hk. split.
    + intros (c0 & [= <-] & Hin). cbn in Hin. exists c. split; [done|].
      by apply elem_of_difference in Hin as [? _].
    + intros (c0 & [= <-] & Hin). eexists. split; [done|]. cbn.
      apply elem_of_difference. split; [done|].
      by intros ->%elem_of_singleton.
Qed.

Lemma leave_session_room_stops_relay_witness :
  rt_out (on_leave_session_room "k2" "s1" Live.rt_room) = rt_out Live.rt_room.
Proof.
  edestruct (leave_session_room_stops_relay "k2" "k1" "s1" "A" Live.rt_room)
    as (_ & _ & _ & Hout).
  - vm_compute. reflexivity.
  - vm_compute. reflexivity.
  - discriminate.
  - exact Hout.
Defined.

(** X25. On a connected socket, send_message before authenticate changes
    nothing; after an authenticate that the validator accepted, send_message
    for an existing session stores the message under the authenticated
    user's id, provided that id is the id of a user profile and the chat id
    is fresh. *)
Theorem chat_needs_authentication k sid msg bodyType nid rt c :
  rt_conns rt !! k = Some c →
  (conn_userId c = None →
   on_send_message k sid msg bodyType nid rt = rt) ∧
  (∀ user s u,
     au_id user ≠ "" →
     gameSessions (rt_store rt) !! sid = Some s →
     userProfiles (rt_store rt) !! au_id user = Some u →
     Forall (λ m, sc_id m ≠ nid) (sessionChat (rt_store rt)) →
     sessionChat (rt_store (on_send_message k sid msg bodyType nid
                              (on_authenticate k (Valid user) rt)))
     = (sessionChat (rt_store rt) ++
        [{| sc_id := nid; sc_sessionId := sid; sc_userId := au_id user;
            message := msg; sc_type := default CHAT bodyType;
            sc_createdAt := now (rt_store rt) |}])%list).
Proof.
  intros Hk. split.
  - intros Hnone. unfold on_send_message, on_socket. rewrite Hk.
    unfold set_store, send_message. cbn. rewrite Hnone.
    by destruct rt.
  - intros user s u Hne Hs Hu Hfresh.
    unfold on_send_message, on_authenticate, on_socket. rewrite Hk. cbn.
    rewrite lookup_insert_eq. cbn.
    unfold send_message. cbn. rewrite bool_decide_eq_true_2 by done. cbn.
    unfold_ops. rewrite Hs, Hu.
    assert (list_find (λ m, sc_id m = nid) (sessionChat (rt_store rt)) = None)
      as -> by (by apply list_find_None).
    done.
Qed.

Lemma chat_needs_authentication_witness :
  on_send_message "k1" "s1" "hello" None "c1" Live.rt_room = Live.rt_room ∧
  sessionChat (rt_store (on_send_message "k1" "s1" "hello" None "c1"
                           (on_authenticate "k1" (Valid Live.ann_by_profile_id)
                              Live.rt_room)))
  = (sessionChat (rt_store Live.rt_room) ++
     [{| sc_id := "c1"; sc_sessionId := "s1";
         sc_userId := au_id Live.ann_by_profile_id;
         message := "hello"; sc_type := default CHAT None;
         sc_createdAt := now (rt_store Live.rt_room) |}])%list.
Proof.
  edestruct (chat_needs_authentication "k1" "s1" "hello" None "c1" Live.rt_room)
    as (Hdrop & Hstore).
  - vm_compute. reflexivity.
  - split; [apply Hdrop; reflexivity|].
    eapply (Hstore Live.ann_by_profile_id).
    + discriminate.
    + vm_compute. reflexivity.
    + vm_compute. reflexivity.
    + vm_compute. constructor.
Defined.

(** X26. disconnect of a connected socket removes it from the connections
    and from every room and leaves the store unchanged; for a socket that
    never authenticated nothing is emitted and the online set is unchanged;
    for an authenticated one the user is removed from online_users, its
    user_socket key is deleted and user_offline is sent to all the sockets
    still connected. *)
Theorem disconnect_outcomes k rt c :
  rt_conns rt !! k = Some c →
  let rt' := on_disconnect k rt in
  rt_conns rt' = delete k (rt_conns rt) ∧
  (∀ r, k ∉ room_members rt' r) ∧
  rt_store rt' = rt_store rt ∧
  (conn_userId c = None →
   rt_out rt' = rt_out rt ∧ online_users rt' = online_users rt) ∧
  (∀ u, conn_userId c = Some u → u ≠ "" →
     (u ∉ online_users rt') ∧ user_socket rt' !! u = None ∧
     rt_out rt'
     = (rt_out rt ++ [{| em_to := dom (delete k (rt_conns rt));
                         em_msg := M_user_offline u |}])%list).
Proof.
  intros Hk. cbn. unfold on_disconnect, on_socket. rewrite Hk.
  assert (Hconns : ∀ rt0, rt_conns rt0 = delete k (rt_conns rt) →
                          ∀ r, k ∉ room_members rt0 r).
  { intros rt0 Heq r Hin. apply elem_of_room_members in Hin as (c0 & Hc0 & _).
    by rewrite Heq, lookup_delete_eq in Hc0. }
  destruct (conn_userId c) as [u|] eqn:Hu; cbn.
  - destruct (decide (u = "")) as [->|Hne].
    + rewrite bool_decide_eq_false_2 by (by intros []). cbn.
      split_and!; try done; [by apply Hconns|].
      by intros u' [= <-] Hne'.
    + rewrite bool_decide_eq_true_2 by done. cbn.
      split_and!; try done; [by apply Hconns|].
      intros u' [= <-] _. split_and!; try done.
      * rewrite elem_of_difference, elem_of_singleton. tauto.
      * apply lookup_delete_eq.
  - split_and!; try done. by apply Hconns.
Qed.

Lemma disconnect_outcomes_witness :
  rt_conns (on_disconnect "k2" Live.rt_room)
  = delete "k2" (rt_conns Live.rt_room) ∧
  user_socket
    (on_disconnect "k2"
       (on_authenticate "k2" (Valid Live.ann_by_profile_id) Live.rt_room))
    !! "u-a" = None.
Proof.
  split.
  - edestruct (disconnect_outcomes "k2" Live.rt_room) as (Hconns & _).
    + vm_compute. reflexivity.
    + exact Hconns.
  - edestruct (disconnect_outcomes "k2"
                 (on_authenticate "k2" (Valid Live.ann_by_profile_id)
                    Live.rt_room))
      as (_ & _ & _ & _ & Hauth).
    + vm_compute. reflexivity.
    + edestruct (Hauth "u-a") as (_ & Hsocket & _).
      * reflexivity.
      * discriminate.
      * exact Hsocket.
Defined.

(** ** Pages of the in-memory catalogue *)

Lemma truncate_Z (z : Z) : truncate (inject_Z z) = z.
Proof.
  unfold truncate. case_bool_decide; [apply Qceiling_Z | apply Qfloor_Z].
Qed.

Lemma relative_index_Z (len z : Z) :
  0 ≤ z → relative_index len (Num (inject_Z z)) = Z.min z len.
Proof.
  intros Hz. unfold relative_index. rewrite truncate_Z.
  by rewrite bool_decide_eq_false_2 by lia.
Qed.

Lemma js_slice_chunk {A} (l : list A) (i limit : nat) :
  js_slice l (Num (inject_Z (Z.of_nat i * Z.of_nat limit)))
    (Num (inject_Z (Z.of_nat i * Z.of_nat limit + Z.of_nat limit)))
  = take limit (drop (i * limit) l).
Proof.
  unfold js_slice. rewrite !relative_index_Z by lia.
  destruct (decide (i * limit ≤ length l)%nat) as [Hle|Hgt].
  - replace (Z.to_nat (Z.min (Z.of_nat i * Z.of_nat limit) (Z.of_nat (length l))))
      with (i * limit)%nat by lia.
    destruct (decide (i * limit + limit ≤ length l)%nat).
    + f_equal. lia.
    + rewrite !take_ge; [done| |]; rewrite length_drop; lia.
  - rewrite (drop_ge l (i * limit)) by lia. rewrite take_nil.
    replace (Z.to_nat (_ - _)) with 0%nat by lia. done.
Qed.

Lemma chunks_concat {A} (limit n : nat) (l : list A) :
  (0 < limit)%nat → (length l ≤ n * limit)%nat →
  concat ((λ i, take limit (drop (i * limit) l)) <$> seq 0 n) = l.
Proof.
  intros Hpos. revert l. induction n as [|n IH]; intros l Hlen.
  - destruct l; [done | cbn in Hlen; lia].
  - cbn [seq fmap list_fmap concat]. rewrite <- fmap_S_seq, <- list_fmap_compose.
    cbn. etrans; [|apply (take_drop limit l)]. f_equal.
    etrans; [|apply (IH (drop limit l)); rewrite length_drop; lia].
    f_equal. apply list_fmap_ext. intros _ i _. cbn.
    by rewrite drop_drop.
Qed.

(** Where the integers stay below [2 ^ 53], the indices the handler
    computes are the exact ones. *)
Lemma page_indices (p limit : Z) :
  1 ≤ p → 1 ≤ limit → p * limit < 2 ^ 53 →
  let startIndex :=
    Number_mul (Number_sub (to_double (inject_Z p)) (Num 1))
      (to_double (inject_Z limit)) in
  startIndex = Num (inject_Z ((p - 1) * limit)) ∧
  Number_add startIndex (to_double (inject_Z limit))
  = Num (inject_Z ((p - 1) * limit + limit)).
Proof.
  intros Hp Hlimit Hprod.
  assert (p < 2 ^ 53 ∧ limit < 2 ^ 53) as [? ?] by nia.
  cbn zeta.
  rewrite (to_double_Z (inject_Z p) p), (to_double_Z (inject_Z limit) limit)
    by (done || lia).
  assert (Number_sub (Num (inject_Z p)) (Num 1) = Num (inject_Z (p - 1))) as ->.
  { unfold Number_sub. cbn [Number_neg Number_add]. apply to_double_Z; [|lia].
    rewrite Qred_correct. unfold Z.sub. rewrite inject_Z_plus. reflexivity. }
  cbn [Number_mul].
  rewrite (to_double_Z _ ((p - 1) * limit)) by (by rewrite inject_Z_mult || nia).
  split; [done|]. cbn [Number_add].
  apply to_double_Z; [by rewrite inject_Z_plus | nia].
Qed.

Lemma filteredGames_length q games :
  (length (filteredGames q games) ≤ length games)%nat.
Proof.
  unfold filteredGames.
  destruct (truthy (q_system q)); destruct (truthy (q_search q));
    repeat (etrans; [apply length_filter|]); done.
Qed.

(** X27. GET /api/games of the in-memory server, for a limit from 1 to below
    2^52 and a catalogue of fewer than 2^52 games (an array has fewer than
    2^32): total and totalPages = ceil(total / limit) are the same on every
    page; pages 1 to totalPages, concatenated in order, are exactly the
    filtered catalogue (every matching game is on exactly one page, in
    catalogue order); every page is taken in order from the filtered
    catalogue; a page p >= 1 with p * limit below 2^53, where the doubles of
    the handler are exact, has at most limit games, and is empty when it
    comes after totalPages. *)
Theorem getGames_pages_partition games sys search limit :
  1 ≤ limit < 2 ^ 52 → Z.of_nat (length games) < 2 ^ 52 →
  let q page := {| q_page := Some page; q_limit := Some limit;
                   q_system := sys; q_search := search |} in
  let filtered := filteredGames (q 1) games in
  let page p := gp_games (getGames (q p) games) in
  let pages := - ((- Z.of_nat (length filtered)) `div` limit) in
  (∀ p, gp_total (getGames (q p) games) = length filtered ∧
        gp_totalPages (getGames (q p) games) = Some pages) ∧
  0 ≤ pages ∧
  concat ((λ i, page (Z.of_nat i + 1)) <$> seq 0 (Z.to_nat pages)) = filtered ∧
  (∀ p, page p `sublist_of` filtered) ∧
  (∀ p, 1 ≤ p → p * limit < 2 ^ 53 →
        Z.of_nat (length (page p)) ≤ limit ∧
        (pages < p → page p = [])).
Proof.
  intros Hlimit Hgames. cbn.
  set (filtered := filteredGames _ games).
  assert (Hlen : Z.of_nat (length filtered) < 2 ^ 52).
  { pose proof (filteredGames_length
                  {| q_page := Some 1; q_limit := Some limit;
                     q_system := sys; q_search := search |} games).
    fold filtered in H. lia. }
  set (pages := - ((- Z.of_nat (length filtered)) `div` limit)).
  assert (Hpages : 0 ≤ pages ∧ Z.of_nat (length filtered) ≤ pages * limit ∧
                   (pages - 1) * limit < Z.of_nat (length filtered)).
  { unfold pages.
    pose proof (Z.div_mod (- Z.of_nat (length filtered)) limit ltac:(lia)) as Hd.
    pose proof (Z.mod_pos_bound (- Z.of_nat (length filtered)) limit
                  ltac:(lia)) as Hm.
    generalize dependent ((- Z.of_nat (length filtered)) `div` limit).
    generalize dependent ((- Z.of_nat (length filtered)) `mod` limit).
    intros m Hm d Hd. nia. }
  assert (Hchunk : ∀ i : nat, (Z.of_nat i + 1) * limit < 2 ^ 53 →
    js_slice filtered
      (Number_mul (Number_sub (to_double (inject_Z (Z.of_nat i + 1))) (Num 1))
         (to_double (inject_Z limit)))
      (Number_add
         (Number_mul (Number_sub (to_double (inject_Z (Z.of_nat i + 1))) (Num 1))
            (to_double (inject_Z limit)))
         (to_double (inject_Z limit)))
    = take (Z.to_nat limit) (drop (i * Z.to_nat limit) filtered)).
  { intros i Hi.
    destruct (page_indices (Z.of_nat i + 1) limit) as [-> ->]; [lia..|].
    rewrite <- (js_slice_chunk filtered i (Z.to_nat limit)).
    do 3 f_equal; lia. }
  split_and!.
  - intros p. split; [done|].
    rewrite (to_double_Z _ (Z.of_nat (length filtered))),
      (to_double_Z _ limit) by (done || lia).
    cbn [Number_div]. unfold is_zero. cbn [Qnum inject_Z].
    rewrite bool_decide_eq_false_2 by lia.
    destruct (to_double_quotient_ceiling (Z.of_nat (length filtered)) limit)
      as (y & -> & Hy); [lia..|].
    cbn [Math_ceil json_integer gp_totalPages]. by rewrite Qfloor_Z, Hy.
  - lia.
  - etrans; [|apply (chunks_concat (Z.to_nat limit) (Z.to_nat pages) filtered);
                [lia|nia]].
    f_equal. apply list_fmap_ext. intros k i Hk. apply Hchunk.
    apply lookup_seq in Hk as [-> Hk]. nia.
  - intros p. unfold js_slice. etrans; [apply sublist_take | apply sublist_drop].
  - intros p Hp Hprod. replace p with (Z.of_nat (Z.to_nat (p - 1)) + 1) by lia.
    rewrite Hchunk by lia. split.
    + rewrite length_take. lia.
    + intros Hafter. rewrite drop_ge; [by rewrite take_nil | nia].
Qed.

Lemma getGames_pages_partition_witness :
  concat ((λ i, gp_games (getGames {| q_page := Some (Z.of_nat i + 1);
                                      q_limit := Some 2;
                                      q_system := Some "nes";
                                      q_search := None |} Live.five_games))
            <$> seq 0 2)
  = filteredGames {| q_page := Some 1; q_limit := Some 2;
                     q_system := Some "nes"; q_search := None |}
      Live.five_games.
Proof.
  edestruct (getGames_pages_partition Live.five_games (Some "nes") None 2)
    as (_ & _ & Hconcat & _).
  - lia.
  - vm_compute. reflexivity.
  - exact Hconcat.
Defined.

(** Outside these bounds the doubles decide: a limit of 400 digits is
    [Infinity], the first page is empty and the number of pages is 0. *)
Example getGames_huge_limit :
  let r := getGames {| q_page := Some 1; q_limit := Some (10 ^ 400);
                       q_system := None; q_search := None |}
             Live.five_games in
  gp_games r = [] ∧ gp_total r = 5%nat ∧ gp_totalPages r = Some 0 ∧
  gp_limit r = None.
Proof. vm_compute. repeat split; reflexivity. Qed.

Lemma js_slice_sublist {A} (l : list A) (start stop : Number) :
  js_slice l start stop `sublist_of` l.
Proof. unfold js_slice. etrans; [apply sublist_take | apply sublist_drop]. Qed.

(** X28. GET /api/games of the in-memory server only answers games of the
    catalogue, in catalogue order, and each of them matches the query: it is
    of the queried system when a non-empty system is given, and its title or
    its genre contains the search text, case-insensitively, when a non-empty
    search is given. *)
Theorem getGames_only_matching q games :
  gp_games (getGames q games) `sublist_of` games ∧
  ∀ g, g ∈ gp_games (getGames q games) →
    (∀ s, q_system q = Some s → s ≠ "" → sg_system g = s) ∧
    (∀ s, q_search q = Some s → s ≠ "" →
       includes (toLowerCase (sg_title g)) (toLowerCase s) = true ∨
       ∃ genre, sg_genre g = Some genre ∧
                includes (toLowerCase genre) (toLowerCase s) = true).
Proof.
  assert (Hsub : gp_games (getGames q games) `sublist_of` filteredGames q games)
    by apply js_slice_sublist.
  assert (Hf : ∀ g, g ∈ filteredGames q games →
    g ∈ games ∧
    (truthy (q_system q) = true → Some (sg_system g) = q_system q) ∧
    (truthy (q_search q) = true →
     matches_search (default "" (q_search q)) g = true)).
  { intros g. unfold filteredGames.
    destruct (truthy (q_system q)); destruct (truthy (q_search q));
      rewrite ?list_elem_of_filter; intuition discriminate. }
  split.
  - etrans; [exact Hsub|]. unfold filteredGames.
    destruct (truthy (q_system q)); destruct (truthy (q_search q));
      repeat (etrans; [apply sublist_filter|]); done.
  - intros g Hg. apply (sublist_subseteq _ _ Hsub) in Hg.
    destruct (Hf g Hg) as (_ & Hsys & Hsearch). split.
    + intros s Hs Hne. rewrite Hs in Hsys. cbn in Hsys.
      rewrite bool_decide_eq_true_2 in Hsys by done.
      by injection (Hsys eq_refl).
    + intros s Hs Hne. rewrite Hs in Hsearch. cbn in Hsearch.
      rewrite bool_decide_eq_true_2 in Hsearch by done.
      specialize (Hsearch eq_refl). unfold matches_search in Hsearch.
      apply orb_true_iff in Hsearch as [?|Hgenre]; [by left|].
      right. destruct (sg_genre g) as [genre|]; [|done]. by exists genre.
Qed.

(** ** Join codes: one code per sequence of indices *)

Lemma string_get_lookup (s : string) (k : nat) :
  String.get k s = String.list_ascii_of_string s !! k.
Proof.
  revert k. induction s as [|a s IH]; intros [|k]; cbn; auto.
Qed.

Lemma string_app_nil_r (s : string) : s +:+ "" = s.
Proof.
  induction s as [|a s IH]; [done|].
  change (String a (s +:+ "") = String a s). by rewrite IH.
Qed.

Lemma string_app_snoc (s : string) (c : ascii) (t : string) :
  (s +:+ String c "") +:+ t = s +:+ String c t.
Proof.
  induction s as [|a s IH]; [done|].
  change (String a ((s +:+ String c "") +:+ t) = String a (s +:+ String c t)).
  by rewrite IH.
Qed.

Lemma fold_append_char_indices (ks : list nat) (s : string) :
  Forall (λ k, (k < 31)%nat) ks →
  ∃ cs, Forall2 (λ k c, String.list_ascii_of_string chars !! k = Some c) ks cs ∧
        fold_left append_char ((λ k, Num (inject_Z (Z.of_nat k))) <$> ks) s
        = s +:+ String.string_of_list_ascii cs.
Proof.
  intros Hks. revert s. induction Hks as [|k ks Hk _ IH]; intros s; cbn.
  - exists []. split; [constructor|]. cbn. by rewrite string_app_nil_r.
  - destruct (String.get k chars) as [c|] eqn:Hget.
    + destruct (IH (append_char s (Num (inject_Z (Z.of_nat k)))))
        as (cs & Hcs & Heq).
      pose proof Hget as Hget'. rewrite string_get_lookup in Hget'.
      exists (c :: cs). split.
      * constructor; [exact Hget' | done].
      * rewrite Heq. unfold append_char. rewrite string_at_nat, Hget. cbn.
        apply string_app_snoc.
    + rewrite string_get_lookup in Hget. apply lookup_ge_None in Hget.
      change (length (String.list_ascii_of_string chars)) with 31%nat in Hget.
      lia.
Qed.

Lemma random_indices (rnd : nat → Double) (l : list nat) :
  Forall (λ i, (0 <= d_value (rnd i))%Q ∧ (d_value (rnd i) < 1)%Q) l →
  ∃ ks, Forall (λ k, (k < 31)%nat) ks ∧
        (λ i, random_index (rnd i)) <$> l
        = (λ k, Num (inject_Z (Z.of_nat k))) <$> ks.
Proof.
  induction 1 as [|i l [H0 H1] _ (ks & Hks & Heq)].
  - by exists [].
  - destruct (random_index_lt (rnd i) H0 H1) as (k & Hk & Hlt).
    exists (k :: ks). split; [by constructor|]. cbn. by rewrite Hk, Heq.
Qed.

Lemma indices_of_chars (ks ks' : list nat) (cs : list ascii) :
  Forall2 (λ k c, String.list_ascii_of_string chars !! k = Some c) ks cs →
  Forall2 (λ k c, String.list_ascii_of_string chars !! k = Some c) ks' cs →
  ks = ks'.
Proof.
  assert (Hnodup : NoDup (String.list_ascii_of_string chars)).
  { apply (bool_decide_unpack _). vm_compute. exact I. }
  intros H. revert ks'. induction H as [|k c ks cs Hk _ IH]; intros ks' H'.
  - by apply Forall2_nil_inv_r in H'.
  - apply Forall2_cons_inv_r in H' as (k' & ks'' & Hk' & H' & ->).
    f_equal; [by eapply NoDup_lookup | by apply IH].
Qed.

(** X29. The join code determines the six alphabet indices that were drawn:
    two sequences of six draws in [0, 1) give the same code only if at each
    of the six positions they select the same index of the alphabet, the
    index being the rounded product of the draw and 31, as the handler
    computes it (so the 31^6 index sequences give 31^6 distinct codes). *)
Theorem generateSessionCode_injective (random random' : nat → Double) :
  (∀ i, (i < 6)%nat →
        (0 <= d_value (random i))%Q ∧ (d_value (random i) < 1)%Q) →
  (∀ i, (i < 6)%nat →
        (0 <= d_value (random' i))%Q ∧ (d_value (random' i) < 1)%Q) →
  generateSessionCode random = generateSessionCode random' →
  ∀ i, (i < 6)%nat → random_index (random i) = random_index (random' i).
Proof.
  intros Hr Hr' Heq.
  assert (Hfold : ∀ rnd, generateSessionCode rnd
            = fold_left append_char ((λ i, random_index (rnd i)) <$> seq 0 6) "")
    by done.
  assert (Hks : ∀ rnd : nat → Double,
            (∀ i, (i < 6)%nat →
                  (0 <= d_value (rnd i))%Q ∧ (d_value (rnd i) < 1)%Q) →
            ∃ ks, Forall (λ k, (k < 31)%nat) ks ∧
                  (λ i, random_index (rnd i)) <$> seq 0 6
                  = (λ k, Num (inject_Z (Z.of_nat k))) <$> ks).
  { intros rnd Hrnd. apply random_indices, Forall_forall.
    intros i Hi%elem_of_seq. apply Hrnd. lia. }
  destruct (Hks random Hr) as (ks & Hlt & Hidx).
  destruct (Hks random' Hr') as (ks' & Hlt' & Hidx').
  rewrite !Hfold, Hidx, Hidx' in Heq.
  destruct (fold_append_char_indices ks "" Hlt) as (cs & Hcs & E).
  destruct (fold_append_char_indices ks' "" Hlt') as (cs' & Hcs' & E').
  rewrite E, E' in Heq.
  assert (Hstr : String.string_of_list_ascii cs = String.string_of_list_ascii cs')
    by exact Heq.
  assert (Hcseq : cs = cs').
  { rewrite <- (String.list_ascii_of_string_of_list_ascii cs),
      <- (String.list_ascii_of_string_of_list_ascii cs'). by rewrite Hstr. }
  subst cs'. rewrite <- (indices_of_chars ks ks' cs Hcs Hcs'), <- Hidx in Hidx'.
  intros i Hi.
  assert (Hi' : seq 0 6 !! i = Some i) by (by apply lookup_seq_lt).
  apply (f_equal (λ l, l !! i)) in Hidx'.
  rewrite !list_lookup_fmap, Hi' in Hidx'. cbn in Hidx'. by injection Hidx'.
Qed.

Lemma generateSessionCode_injective_witness :
  ¬ (d_value (Scenario.draws 3) == d_value (Scenario.other_draws 3))%Q ∧
  random_index (Scenario.draws 3) = random_index (Scenario.other_draws 3).
Proof.
  split; [discriminate|].
  apply (generateSessionCode_injective Scenario.draws Scenario.other_draws).
  - intros i Hi.
    do 6 (destruct i as [|i]; [split; [discriminate | reflexivity]|]). lia.
  - intros i Hi.
    do 6 (destruct i as [|i]; [split; [discriminate | reflexivity]|]). lia.
  - vm_compute. reflexivity.
  - lia.
Defined.
